(** * The distributed key-value server of MXNet (LeMethod fork)

  A shallow embedding of [src/kvstore/kvstore_dist_server.h] and of the
  worker pool of [my_thread_pool.{h,cc}]:

  - machine integers and IEEE doubles as the C++ code uses them;
  - the Cantor pairing of a request type and a dtype ([GetCommandType],
    [DepairDataHandleType]);
  - the serial [Executor] as a transition system;
  - the worker pool [MyThreadPool];
  - the model-distribution loop of LeMethod;
  - the request handlers of [KVStoreDistServer] in a state-and-failure
    monad over the server's fields.

  The tensor engine, the optimizer, the gradient codec, the profiler, the
  string splitter and the transport are collaborators of the server: they
  are parameters of the sections below, and their calls are recorded in
  the order the server makes them. *)

From Stdlib Require Import ZArith Lia Bool List String Ascii DecimalString.
From Stdlib Require Import Floats.SpecFloat.
From stdpp Require Import base option list gmap.
Import ListNotations.

#[local] Open Scope Z_scope.

(** * Machine integers *)

Module MachineInt.

(** [int] is 32 bits wide, two's complement; arithmetic that leaves the
    range wraps around (what the compiled code does; the C++ standard
    leaves signed overflow undefined). *)
Definition INT_MIN : Z := - 2 ^ 31.
Definition INT_MAX : Z := 2 ^ 31 - 1.

Definition in_int (z : Z) : bool := (INT_MIN <=? z) && (z <=? INT_MAX).

Definition wrap_int (z : Z) : Z := (z + 2 ^ 31) mod 2 ^ 32 - 2 ^ 31.

Definition int_add (a b : Z) : Z := wrap_int (a + b).
Definition int_sub (a b : Z) : Z := wrap_int (a - b).
Definition int_mul (a b : Z) : Z := wrap_int (a * b).
(** [/] on [int] truncates toward zero. *)
Definition int_div (a b : Z) : Z := wrap_int (Z.quot a b).

(** [int64_t], for the tick counts of the clock. *)
Definition wrap_int64 (z : Z) : Z := (z + 2 ^ 63) mod 2 ^ 64 - 2 ^ 63.

(** [size_t] and [ps::Key] are unsigned 64-bit. *)
Definition wrap_size_t (z : Z) : Z := z mod 2 ^ 64.

Lemma wrap_int_id z : INT_MIN <= z <= INT_MAX -> wrap_int z = z.
Proof.
  unfold wrap_int, INT_MIN, INT_MAX. intros H.
  rewrite Z.mod_small; lia.
Qed.

Lemma wrap_int_range z : INT_MIN <= wrap_int z <= INT_MAX.
Proof.
  unfold wrap_int, INT_MIN, INT_MAX.
  pose proof (Z.mod_pos_bound (z + 2 ^ 31) (2 ^ 32) ltac:(lia)). lia.
Qed.

Lemma wrap_int64_id z : - 2 ^ 63 <= z < 2 ^ 63 -> wrap_int64 z = z.
Proof. unfold wrap_int64. intros H. rewrite Z.mod_small; lia. Qed.

Lemma wrap_size_t_id z : 0 <= z < 2 ^ 64 -> wrap_size_t z = z.
Proof. unfold wrap_size_t. intros H. apply Z.mod_small; lia. Qed.

End MachineInt.
Export MachineInt.

(** * Outcomes of a call *)

(** The [CHECK]s of the source, one constructor per site that the model
  reaches.  A tripped [CHECK] is fatal ([LOG(FATAL)]). *)
Inductive CheckSite : Type :=
| Check_Depair_x_ge_0                (* CHECK_GE(x, 0) *)
| Check_Depair_y_ge_0                (* CHECK_GE(y, 0) *)
| Check_controller                   (* CHECK(controller_) *)
| Check_updater                      (* CHECK(updater_) *)
| Check_multi_precision_pushes_underway
  (* "Multiprecision mode can not be set while pushes are underway." *)
| Check_profiler_config              (* "Improper profiler config passed from worker" *)
| Check_profiler_param_empty         (* "ProfilerConfig parameter is empty" *)
| Check_profiler_value_empty         (* "ProfilerConfig value is empty for parameter" *)
| Check_keys_size_1                  (* CHECK_EQ(keys.size(), 1) *)
| Check_lens_size_1                  (* CHECK_EQ(lens.size(), 1) *)
| Check_vals_size_lens0              (* CHECK_EQ(vals.size(), lens[0]) *)
| Check_LeMethod_sync_mode           (* "LeMethod only support for sync mode" *)
| Check_LeMethod_only_DefaultPushPull (* "LeMethod only support DefaultPushPull." *)
| Check_updater_async                (* "Updater needs to be set for async mode" *)
| Check_AutoPull_DefaultPushPull     (* CHECK(type.requestType == kDefaultPushPull) *)
| Check_init_first                   (* "init <key> first" *)
| Check_unit_len_gt_0                (* CHECK_GT(unit_len, 0) *)
| Check_vals_size_rows               (* CHECK_EQ(vals.size(), num_rows * unit_len * num_bytes) *)
| Check_lens_not_empty               (* "req_data.lens cannot be empty" *)
| Check_lens0_eq_0                   (* CHECK_EQ(req_data.lens[0], 0) *)
| Check_init_empty_data              (* "init with empty data is not supported" *)
| Check_sync_mode                    (* CHECK(sync_mode_) *)
| Check_compression_fp32             (* "Gradient compression is currently supported for fp32 only" *)
| Check_keys_size_2                  (* CHECK_EQ(keys.size(), 2) *)
| Check_lens_size_2                  (* CHECK_EQ(lens.size(), 2) *)
| Check_vals_size_lens1              (* CHECK_EQ(vals.size(), lens[1]) *)
| Check_lens_size_0                  (* CHECK_EQ(lens.size(), 0) *)
| Check_real_type                    (* MSHADOW_REAL_TYPE_SWITCH on another dtype *)
| Check_sizeof_unknown_type.         (* mshadow_sizeof on an unknown dtype *)

(** What a call does: it returns, a [CHECK] trips, the calling thread
  waits forever, or the C++ semantics gives no meaning to the run (an
  index out of range, a read through a null or short buffer, a double that
  does not fit the [int] it is converted to). *)
Inductive result (A : Type) : Type :=
| Ok (a : A)
| Fatal (c : CheckSite)
| Blocked
| Undefined.
Arguments Ok {A} a.
Arguments Fatal {A} c.
Arguments Blocked {A}.
Arguments Undefined {A}.

Definition is_Ok {A} (r : result A) : bool :=
match r with Ok _ => true | _ => false end.

(** * IEEE doubles *)

Module Double.

(** [double] is binary64: 53 bits of precision, [emax = 1024].  The
    operations are those of the standard library's executable
    specification of IEEE 754 (round to nearest, ties to even). *)
Definition prec : Z := 53.
Definition emax : Z := 1024.

Definition double : Type := spec_float.

Definition mul : double -> double -> double := SFmul prec emax.
Definition div : double -> double -> double := SFdiv prec emax.
Definition sub : double -> double -> double := SFsub prec emax.
Definition sqrt : double -> double := SFsqrt prec emax.

(** Conversion of an integer to [double] (rounds when it has more than
    53 significant bits). *)
Definition of_Z (z : Z) : double := binary_normalize prec emax z 0 false.

(** The integer part of a finite double, toward zero and toward minus
    infinity. *)
Definition Ztrunc (x : double) : option Z :=
  match x with
  | S754_zero _ => Some 0
  | S754_finite s m e => Some (cond_Zopp s (Z.shiftl (Zpos m) e))
  | _ => None
  end.

Definition Zfloor (x : double) : option Z :=
  match x with
  | S754_zero _ => Some 0
  | S754_finite s m e => Some (Z.shiftl (cond_Zopp s (Zpos m)) e)
  | _ => None
  end.

(** [std::floor]: the result is again a double. *)
Definition floor (x : double) : double :=
  match x with
  | S754_finite s m e =>
      binary_normalize prec emax (Z.shiftl (cond_Zopp s (Zpos m)) e) 0 s
  | _ => x
  end.

(** The conversion [int(x)] of a double: truncation toward zero; not
    defined by C++ when the truncated value is not an [int] (also for NaN
    and the infinities). *)
Definition to_int (x : double) : result Z :=
  match Ztrunc x with
  | Some z => if in_int z then Ok z else Undefined
  | None => Undefined
  end.

(** The sign bit; [None] for NaN. *)
Definition sign (x : double) : option bool :=
  match x with
  | S754_zero s | S754_infinity s | S754_finite s _ _ => Some s
  | S754_nan => None
  end.

End Double.
Export Double.

(** * Request types and the Cantor pairing *)

(** [enum class RequestType].  A [static_cast] of an integer outside
    [0..2] yields a value that is none of the three enumerators. *)
Inductive RequestType : Type :=
| kDefaultPushPull
| kRowSparsePushPull
| kCompressedPushPull
| kNoEnumerator (v : Z).

Definition RequestType_to_int (r : RequestType) : Z :=
  match r with
  | kDefaultPushPull => 0
  | kRowSparsePushPull => 1
  | kCompressedPushPull => 2
  | kNoEnumerator v => v
  end.

Definition RequestType_of_int (x : Z) : RequestType :=
  if x =? 0 then kDefaultPushPull
  else if x =? 1 then kRowSparsePushPull
  else if x =? 2 then kCompressedPushPull
  else kNoEnumerator x.

Record DataHandleType : Type := mkDataHandleType {
  requestType : RequestType;
  dtype : Z
}.

(** [GetCommandType]: [(((m + d) * (m + d + 1)) / 2) + d] on [int]. *)
Definition GetCommandType (requestType : RequestType) (d : Z) : Z :=
  let m := RequestType_to_int requestType in
  int_add (int_div (int_mul (int_add m d) (int_add (int_add m d) 1)) 2) d.

(** [std::floor((std::sqrt(8 * cmd + 1) - 1) / 2)], the double that
    [DepairDataHandleType] converts to [int w]. *)
Definition Depair_root (cmd : Z) : double :=
  Double.floor
    (Double.div
       (Double.sub (Double.sqrt (Double.of_Z (int_add (int_mul 8 cmd) 1)))
                   (Double.of_Z 1))
       (Double.of_Z 2)).

(** [DepairDataHandleType]. *)
Definition DepairDataHandleType (cmd : Z) : result DataHandleType :=
  match Double.to_int (Depair_root cmd) with
  | Ok w =>
      let t := int_div (int_add (int_mul w w) w) 2 in
      let y := int_sub cmd t in
      let x := int_sub w y in
      if negb (0 <=? x) then Fatal Check_Depair_x_ge_0
      else if negb (0 <=? y) then Fatal Check_Depair_y_ge_0
      else Ok {| requestType := RequestType_of_int x; dtype := y |}
  | Fatal c => Fatal c
  | Blocked => Blocked
  | Undefined => Undefined
  end.

(** * The serial executor *)

Module Executor.
Section Executor.

(** The memory the submitted functions work on. *)
Context {W : Type}.

(** [Func]: a [std::function<void()>]; run on a memory it changes it, or a
    [CHECK] inside it trips and throws.  The functions the server hands in
    test their [CHECK] before they write anything. *)
Definition Func : Type := W -> result W.

(** [struct Block]: the function ([None] for an empty [Func()], the
    poison) and its promise, named by a number (every [Block] makes a new
    promise). *)
Record Block : Type := mkBlock {
  f : option Func;
  p : nat
}.

(** The executor: its queue, the promises whose future is ready
    ([set_value()] has run, or the promise was destroyed unset), the number
    of the next promise, and whether a thread is inside the loop of
    [Start]. *)
Record Executor : Type := mkExecutor {
  queue_ : list Block;
  fulfilled : list nat;
  next_promise : nat;
  in_Start : bool
}.

(** A new executor: nothing queued, no thread in [Start] yet. *)
Definition new_Executor : Executor :=
  {| queue_ := []; fulfilled := []; next_promise := 0; in_Start := false |}.

(** Entering [Start] (the thread that calls [Run]). *)
Definition enter_Start (e : Executor) : Executor :=
  {| queue_ := queue_ e; fulfilled := fulfilled e;
     next_promise := next_promise e; in_Start := true |}.

(** One turn of the loop of [Start]: wait for a block, pop it, run it and
    fulfil its promise; the poison fulfils its promise and leaves the
    loop.  When a [CHECK] trips in [blk.f()] the exception leaves [Start]:
    the thread is out of the loop, and [blk], a local of [Start] that holds
    the only reference to the promise, is destroyed with it, which makes the
    future ready without [set_value()] ([fut.wait()] returns on it all the
    same).  [None]: no turn is possible (no thread is in [Start], or it
    waits on the empty queue). *)
Definition Start_step (e : Executor) (w : W) : option (result (Executor * W)) :=
  if in_Start e then
    match queue_ e with
    | [] => None
    | blk :: rest =>
        match f blk with
        | Some g =>
            match g w with
            | Ok w' =>
                Some (Ok ({| queue_ := rest; fulfilled := p blk :: fulfilled e;
                             next_promise := next_promise e; in_Start := true |}, w'))
            | Fatal c =>
                Some (Ok ({| queue_ := rest; fulfilled := p blk :: fulfilled e;
                             next_promise := next_promise e; in_Start := false |}, w))
            | Blocked => Some Blocked
            | Undefined => Some Undefined
            end
        | None =>
            Some (Ok ({| queue_ := rest; fulfilled := p blk :: fulfilled e;
                         next_promise := next_promise e; in_Start := false |}, w))
        end
    end
  else None.

(** The [CHECK] with which the next turn of the loop throws out of
    [Start], if it does. *)
Definition Start_throws (e : Executor) (w : W) : option CheckSite :=
  if in_Start e then
    match queue_ e with
    | [] => None
    | blk :: _ =>
        match f blk with
        | Some g => match g w with Fatal c => Some c | _ => None end
        | None => None
        end
    end
  else None.

(** The loop of [Start], for as many turns as are possible. *)
Fixpoint Start_run (fuel : nat) (e : Executor) (w : W) : result (Executor * W) :=
  match fuel with
  | O => Ok (e, w)
  | S n =>
      match Start_step e w with
      | None => Ok (e, w)
      | Some (Ok (e', w')) => Start_run n e' w'
      | Some (Fatal c) => Fatal c
      | Some Blocked => Blocked
      | Some Undefined => Undefined
      end
  end.

(** The locked part of [Exec]: the block joins the queue. *)
Definition Exec_push (func : option Func) (e : Executor) : Executor * nat :=
  ({| queue_ := queue_ e ++ [ {| f := func; p := next_promise e |} ];
      fulfilled := fulfilled e;
      next_promise := S (next_promise e);
      in_Start := in_Start e |},
   next_promise e).

Definition promise_set (n : nat) (e : Executor) : bool :=
  existsb (Nat.eqb n) (fulfilled e).

(** [Exec], seen from the calling thread while the thread in [Start] is
    the only other one that runs: the block is queued, the loop takes its
    turns, and [fut.wait()] returns once the block's future is ready.  When
    it never is, the caller waits forever.  A [CHECK] of the function trips
    in the thread of [Start], not in the caller: [Exec] returns. *)
Definition Exec (func : option Func) (e : Executor) (w : W) : result (Executor * W) :=
  let (e1, n) := Exec_push func e in
  match Start_run (length (queue_ e1)) e1 w with
  | Ok (e2, w2) => if promise_set n e2 then Ok (e2, w2) else Blocked
  | Fatal c => Fatal c
  | Blocked => Blocked
  | Undefined => Undefined
  end.

(** [Stop] is [Exec(Func())]. *)
Definition Stop (e : Executor) (w : W) : result (Executor * W) := Exec None e w.

(** The executor between two calls: a thread waits in [Start] on the empty
    queue. *)
Definition idle (e : Executor) : Prop := in_Start e = true /\ queue_ e = [].

End Executor.
Arguments Func W : clear implicits.
Arguments Block W : clear implicits.
Arguments Executor W : clear implicits.
End Executor.

(** * Tensors, requests and the server's memory *)

(** What the server reads of an [NDArray]: storage type, shape, dtype, the
    row ids of a row-sparse array ([aux_data(rowsparse::kIdx)]) and the
    bytes behind [data().dptr_]. *)
Inductive NDArrayStorageType : Type := kDefaultStorage | kRowSparseStorage.

Record NDArrayRep : Type := mkNDArray {
  storage_type : NDArrayStorageType;
  shape : list Z;
  nd_dtype : Z;
  aux_idx : list Z;
  dptr : list Byte.byte
}.

(** An [NDArray] handle; [None] is an array for which [is_none()] holds. *)
Definition NDArray : Type := option NDArrayRep.

Definition is_none (a : NDArray) : bool :=
  match a with None => true | Some _ => false end.

(** [TShape::Size()] and [TShape::ProdShape(1, ndim())]. *)
Definition Size (sh : list Z) : Z := fold_right Z.mul 1 sh.
Definition ProdShape1 (sh : list Z) : Z := Size (tl sh).

(** [ps::KVMeta], the fields the server reads. *)
Record KVMeta : Type := mkKVMeta {
  cmd : Z;
  push : bool;
  pull : bool;
  sender : Z;
  timestamp : Z;
  meta_key : Z;
  num_merge : Z;
  control_cmd : Z;
  num_aggregation : Z
}.

(** [ps::KVPairs<char>]. *)
Record KVPairs : Type := mkKVPairs {
  keys : list Z;
  vals : list Byte.byte;
  lens : list Z
}.

(** [ps::SimpleData], a command. *)
Record SimpleData : Type := mkSimpleData {
  head : Z;
  body : string
}.

(** [enum class CommandType], in the order of the source. *)
Inductive CommandType : Type :=
| kController
| kSetMultiPrecision
| kStopServer
| kSyncMode
| kSetGradientCompression
| kSetProfilerParams
| kNoCommand (v : Z).

Definition CommandType_of_int (x : Z) : CommandType :=
  if x =? 0 then kController
  else if x =? 1 then kSetMultiPrecision
  else if x =? 2 then kStopServer
  else if x =? 3 then kSyncMode
  else if x =? 4 then kSetGradientCompression
  else if x =? 5 then kSetProfilerParams
  else kNoCommand x.

(** [enum class KVStoreServerProfilerCommand] of [mxnet/kvstore.h], in its
    order. *)
Inductive KVStoreServerProfilerCommand : Type :=
| kSetConfig
| kState
| kPause
| kDump
| kNoProfilerCommand (v : Z).

Definition KVStoreServerProfilerCommand_of_int (x : Z) : KVStoreServerProfilerCommand :=
  if x =? 0 then kSetConfig
  else if x =? 1 then kState
  else if x =? 2 then kPause
  else if x =? 3 then kDump
  else kNoProfilerCommand x.

(** The calls the server makes to its collaborators, as they appear in
    the source. *)
Inductive Event : Type :=
| Response (req : KVMeta)                       (* server->Response(req) *)
| ResponseData (req : KVMeta) (res : KVPairs)   (* server->Response(req, res) *)
| AutoPullUpdate (version : Z) (req : KVMeta) (res : KVPairs)
| AppResponse (recved : SimpleData)             (* app->Response(recved) *)
| ControllerCall (head : Z) (body : string)     (* controller_(head, body) *)
| UpdaterCall (key : Z) (update stored : NDArray)  (* updater_(key, update, &stored) *)
| MXSetProfilerConfig (keys vals : list string) (* MXSetProfilerConfig(n, keys, vals) *)
| MXSetProfilerState (state : Z)
| MXProfilePause (paused : Z)
| MXDumpProfile (finished : Z)
| NoticeWorkersOneIterationFinish
| EnqueueModelDistribution (reqMeta : KVMeta) (kvs : KVPairs).
  (* threadPool_.enqueue(&KVStoreDistServer::ModelDistribution, this, reqMeta, kvs);
     the queued task is run by the thread of the pool *)

(** [struct UpdateBuf]. *)
Record UpdateBuf : Type := mkUpdateBuf {
  request : list KVMeta;
  merged : NDArray;
  temp_array : NDArray
}.

Definition new_UpdateBuf : UpdateBuf :=
  {| request := []; merged := None; temp_array := None |}.

(** [KVStore::Updater]: given the key, the update and the stored array,
    the stored array after the call. *)
Definition Updater : Type := Z -> NDArray -> NDArray -> NDArray.

(** The fields of [KVStoreDistServer] other than the executor.  A map
    holds the arrays that are not none: [m[key]] on a key the map does not
    hold default-constructs an entry, a none array (for [update_buf_] an
    empty [UpdateBuf], for [store_v_] zero).  [GC] is the state of the
    gradient codec.  [calls] lists the calls made so far, oldest first. *)
Record Fields {GC : Type} : Type := mkFields {
  sync_mode_ : bool;
  controller_ : bool;
  updater_ : option Updater;
  store_ : gmap Z NDArrayRep;
  store_realt_ : gmap Z NDArrayRep;
  update_buf_ : gmap Z UpdateBuf;
  decomp_buf_ : gmap Z NDArrayRep;
  multi_precision_ : bool;
  gradient_compression_ : GC;
  num_aggregation_ : Z;
  iteration_ : Z;
  store_v_ : gmap Z Z;
  calls : list Event
}.
Arguments Fields GC : clear implicits.
Arguments mkFields {GC}.

(** The server: its executor and its fields. *)
Record KVStoreDistServer {GC : Type} : Type := mkServer {
  exec_ : Executor.Executor (Fields GC);
  fields : Fields GC
}.
Arguments KVStoreDistServer GC : clear implicits.
Arguments mkServer {GC}.

(** ** The monad of a handler *)

Definition M (GC A : Type) : Type :=
  KVStoreDistServer GC -> result (A * KVStoreDistServer GC).

Definition ret {GC A} (a : A) : M GC A := fun s => Ok (a, s).

Definition bind {GC A B} (m : M GC A) (k : A -> M GC B) : M GC B :=
  fun s =>
    match m s with
    | Ok (a, s') => k a s'
    | Fatal c => Fatal c
    | Blocked => Blocked
    | Undefined => Undefined
    end.

Declare Scope server_scope.
Delimit Scope server_scope with server.
Notation "x <- m ;; k" := (bind m (fun x => k))
  (at level 100, m at next level, right associativity) : server_scope.
Notation "m ;; k" := (bind m (fun _ => k))
  (at level 100, right associativity) : server_scope.
#[local] Open Scope server_scope.

Definition fatal {GC A} (c : CheckSite) : M GC A := fun _ => Fatal c.
Definition undefined {GC A} : M GC A := fun _ => Undefined.
Definition get {GC} : M GC (Fields GC) := fun s => Ok (fields s, s).
Definition modify {GC} (g : Fields GC -> Fields GC) : M GC unit :=
  fun s => Ok (tt, {| exec_ := exec_ s; fields := g (fields s) |}).

(** [CHECK(b)] at site [c]. *)
Definition CHECK {GC} (b : bool) (c : CheckSite) : M GC unit :=
  if b then ret tt else fatal c.

(** Lifts a pure result. *)
Definition lift {GC A} (r : result A) : M GC A :=
  fun s =>
    match r with
    | Ok a => Ok (a, s)
    | Fatal c => Fatal c
    | Blocked => Blocked
    | Undefined => Undefined
    end.

(** [v[i]] of an array without bounds check. *)
Definition index {GC A} (l : list A) (i : nat) : M GC A :=
  match l !! i with
  | Some a => ret a
  | None => undefined
  end.

(** [for (x : l) body(x)]. *)
Fixpoint for_each {GC A} (l : list A) (body : A -> M GC unit) : M GC unit :=
  match l with
  | [] => ret tt
  | x :: rest => body x ;; for_each rest body
  end.

(** [exec_.Exec(func)] from a handler. *)
Definition exec_Exec {GC} (func : Executor.Func (Fields GC)) : M GC unit :=
  fun s =>
    match Executor.Exec (Some func) (exec_ s) (fields s) with
    | Ok (e, w) => Ok (tt, {| exec_ := e; fields := w |})
    | Fatal c => Fatal c
    | Blocked => Blocked
    | Undefined => Undefined
    end.

(** [exec_.Stop()] from a handler. *)
Definition exec_Stop {GC} : M GC unit :=
  fun s =>
    match Executor.Stop (exec_ s) (fields s) with
    | Ok (e, w) => Ok (tt, {| exec_ := e; fields := w |})
    | Fatal c => Fatal c
    | Blocked => Blocked
    | Undefined => Undefined
    end.

(** ** Field updates *)

Section FieldUpdates.
Context {GC : Type}.
Implicit Type w : Fields GC.

Definition set_sync_mode_ (b : bool) w : Fields GC :=
  mkFields b (controller_ w) (updater_ w) (store_ w) (store_realt_ w)
    (update_buf_ w) (decomp_buf_ w) (multi_precision_ w)
    (gradient_compression_ w) (num_aggregation_ w) (iteration_ w)
    (store_v_ w) (calls w).

Definition set_controller_ (b : bool) w : Fields GC :=
  mkFields (sync_mode_ w) b (updater_ w) (store_ w) (store_realt_ w)
    (update_buf_ w) (decomp_buf_ w) (multi_precision_ w)
    (gradient_compression_ w) (num_aggregation_ w) (iteration_ w)
    (store_v_ w) (calls w).

Definition set_updater_ (u : option Updater) w : Fields GC :=
  mkFields (sync_mode_ w) (controller_ w) u (store_ w) (store_realt_ w)
    (update_buf_ w) (decomp_buf_ w) (multi_precision_ w)
    (gradient_compression_ w) (num_aggregation_ w) (iteration_ w)
    (store_v_ w) (calls w).

Definition set_store_ (m : gmap Z NDArrayRep) w : Fields GC :=
  mkFields (sync_mode_ w) (controller_ w) (updater_ w) m (store_realt_ w)
    (update_buf_ w) (decomp_buf_ w) (multi_precision_ w)
    (gradient_compression_ w) (num_aggregation_ w) (iteration_ w)
    (store_v_ w) (calls w).

Definition set_store_realt_ (m : gmap Z NDArrayRep) w : Fields GC :=
  mkFields (sync_mode_ w) (controller_ w) (updater_ w) (store_ w) m
    (update_buf_ w) (decomp_buf_ w) (multi_precision_ w)
    (gradient_compression_ w) (num_aggregation_ w) (iteration_ w)
    (store_v_ w) (calls w).

Definition set_update_buf_ (m : gmap Z UpdateBuf) w : Fields GC :=
  mkFields (sync_mode_ w) (controller_ w) (updater_ w) (store_ w)
    (store_realt_ w) m (decomp_buf_ w) (multi_precision_ w)
    (gradient_compression_ w) (num_aggregation_ w) (iteration_ w)
    (store_v_ w) (calls w).

Definition set_decomp_buf_ (m : gmap Z NDArrayRep) w : Fields GC :=
  mkFields (sync_mode_ w) (controller_ w) (updater_ w) (store_ w)
    (store_realt_ w) (update_buf_ w) m (multi_precision_ w)
    (gradient_compression_ w) (num_aggregation_ w) (iteration_ w)
    (store_v_ w) (calls w).

Definition set_multi_precision_ (b : bool) w : Fields GC :=
  mkFields (sync_mode_ w) (controller_ w) (updater_ w) (store_ w)
    (store_realt_ w) (update_buf_ w) (decomp_buf_ w) b
    (gradient_compression_ w) (num_aggregation_ w) (iteration_ w)
    (store_v_ w) (calls w).

Definition set_gradient_compression_ (g : GC) w : Fields GC :=
  mkFields (sync_mode_ w) (controller_ w) (updater_ w) (store_ w)
    (store_realt_ w) (update_buf_ w) (decomp_buf_ w) (multi_precision_ w)
    g (num_aggregation_ w) (iteration_ w) (store_v_ w) (calls w).

Definition set_num_aggregation_ (n : Z) w : Fields GC :=
  mkFields (sync_mode_ w) (controller_ w) (updater_ w) (store_ w)
    (store_realt_ w) (update_buf_ w) (decomp_buf_ w) (multi_precision_ w)
    (gradient_compression_ w) n (iteration_ w) (store_v_ w) (calls w).

Definition set_iteration_ (n : Z) w : Fields GC :=
  mkFields (sync_mode_ w) (controller_ w) (updater_ w) (store_ w)
    (store_realt_ w) (update_buf_ w) (decomp_buf_ w) (multi_precision_ w)
    (gradient_compression_ w) (num_aggregation_ w) n (store_v_ w) (calls w).

Definition set_store_v_ (m : gmap Z Z) w : Fields GC :=
  mkFields (sync_mode_ w) (controller_ w) (updater_ w) (store_ w)
    (store_realt_ w) (update_buf_ w) (decomp_buf_ w) (multi_precision_ w)
    (gradient_compression_ w) (num_aggregation_ w) (iteration_ w) m (calls w).

Definition set_calls (l : list Event) w : Fields GC :=
  mkFields (sync_mode_ w) (controller_ w) (updater_ w) (store_ w)
    (store_realt_ w) (update_buf_ w) (decomp_buf_ w) (multi_precision_ w)
    (gradient_compression_ w) (num_aggregation_ w) (iteration_ w)
    (store_v_ w) l.

(** [m[key] = a] for a map of arrays. *)
Definition assign (key : Z) (a : NDArray) (m : gmap Z NDArrayRep) : gmap Z NDArrayRep :=
  match a with
  | Some r => <[key := r]> m
  | None => delete key m
  end.

(** [update_buf_[key]] and [store_v_[key]], read. *)
Definition update_buf_at (key : Z) w : UpdateBuf :=
  default new_UpdateBuf (update_buf_ w !! key).

Definition store_v_at (key : Z) w : Z := default 0 (store_v_ w !! key).

(** [update_buf_[key]], written field by field. *)
Definition set_request (key : Z) (l : list KVMeta) w : Fields GC :=
  let u := update_buf_at key w in
  set_update_buf_
    (<[key := {| request := l; merged := merged u; temp_array := temp_array u |}]>
       (update_buf_ w)) w.

Definition set_merged (key : Z) (a : NDArray) w : Fields GC :=
  let u := update_buf_at key w in
  set_update_buf_
    (<[key := {| request := request u; merged := a; temp_array := temp_array u |}]>
       (update_buf_ w)) w.

Definition set_temp_array (key : Z) (a : NDArray) w : Fields GC :=
  let u := update_buf_at key w in
  set_update_buf_
    (<[key := {| request := request u; merged := merged u; temp_array := a |}]>
       (update_buf_ w)) w.

(** [mp ? store_realt_[key] : store_[key]], read and written. *)
Definition stored_at (mp : bool) (key : Z) w : NDArray :=
  if mp then store_realt_ w !! key else store_ w !! key.

Definition set_stored (mp : bool) (key : Z) (a : NDArray) w : Fields GC :=
  if mp then set_store_realt_ (assign key a (store_realt_ w)) w
  else set_store_ (assign key a (store_ w)) w.

Definition emit (ev : Event) : M GC unit :=
  modify (fun w => set_calls (calls w ++ [ev]) w).

End FieldUpdates.

(** * Model distribution (LeMethod) *)

Module ModelDistribution.
Section ModelDistribution.

Variable UNKNOWN : Z.        (* ps::Van::UNKNOWN *)
Variable QUIT : Z.           (* ps::Van::QUIT *)
Variable my_node_id : Z.     (* van()->my_node().id *)
(** [high_resolution_clock::period] is [1 / clock_den] seconds
    (nanoseconds in libstdc++ and libc++: [clock_den = 10^9]). *)
Variable clock_den : Z.

(** The message sent to a receiver. *)
Record Message : Type := mkMessage {
  msg_sender : Z;
  msg_timestamp : Z;
  msg_key : Z;
  msg_version : Z;
  msg_recver : Z;
  msg_data : KVPairs
}.

(** The calls to the van, in the order they are made. *)
Inductive VanCall : Type :=
| GetModelReceiver (lastBandwidth lastReceiver iteration : Z)
| Send (msg : Message)
| WaitForModelDistributionReply.

(** What the world answers in one turn of the loop: the receiver the van
    picks, and the readings of the clock before [Send] and after the
    reply, in ticks. *)
Record Round : Type := mkRound {
  receiver : Z;
  startTime : Z;
  endTime : Z
}.

(** [const std::chrono::duration<double> diff = startTime - endTime;
     lastBandwidth = int(diff.count() * 1000000);]
    The difference of two time points is a tick count in [int64_t]; the
    conversion to seconds in [double] divides by the period's
    denominator. *)
Definition diff_count (startTime endTime : Z) : double :=
  Double.div (Double.of_Z (wrap_int64 (startTime - endTime))) (Double.of_Z clock_den).

Definition bandwidth (startTime endTime : Z) : result Z :=
  Double.to_int (Double.mul (diff_count startTime endTime) (Double.of_Z 1000000)).

(** The [while (true)] loop, against the answers [rounds]; when these run
    out the loop has made its next call to [GetModelReceiver] and waits
    for the answer. *)
Fixpoint distribute (rounds : list Round) (reqMeta : KVMeta) (kvs : KVPairs)
    (iteration_ lastBandwidth lastReceiver : Z) : result (list VanCall) :=
  match rounds with
  | [] => Ok [GetModelReceiver lastBandwidth lastReceiver iteration_]
  | r :: rest =>
      if receiver r =? QUIT then
        Ok [GetModelReceiver lastBandwidth lastReceiver iteration_]
      else
        let msg := {| msg_sender := my_node_id; msg_timestamp := timestamp reqMeta;
                      msg_key := meta_key reqMeta; msg_version := iteration_;
                      msg_recver := receiver r; msg_data := kvs |} in
        match bandwidth (startTime r) (endTime r) with
        | Ok bw =>
            match distribute rest reqMeta kvs iteration_ bw (receiver r) with
            | Ok more =>
                Ok (GetModelReceiver lastBandwidth lastReceiver iteration_
                      :: Send msg :: WaitForModelDistributionReply :: more)
            | Fatal c => Fatal c
            | Blocked => Blocked
            | Undefined => Undefined
            end
        | Fatal c => Fatal c
        | Blocked => Blocked
        | Undefined => Undefined
        end
  end.

(** [ModelDistribution]: the new [iteration_] and the calls made. *)
Definition ModelDistribution (reqMeta : KVMeta) (kvs : KVPairs)
    (rounds : list Round) (iteration_ : Z) : result (Z * list VanCall) :=
  let it := int_add iteration_ 1 in
  match distribute rounds reqMeta kvs it UNKNOWN UNKNOWN with
  | Ok l => Ok (it, l)
  | Fatal c => Fatal c
  | Blocked => Blocked
  | Undefined => Undefined
  end.

(** The arguments of the calls to [GetModelReceiver] among [l]. *)
Fixpoint oracle_calls (l : list VanCall) : list (Z * Z * Z) :=
  match l with
  | [] => []
  | GetModelReceiver b r i :: rest => (b, r, i) :: oracle_calls rest
  | _ :: rest => oracle_calls rest
  end.

(** The messages sent among [l]. *)
Fixpoint sent (l : list VanCall) : list Message :=
  match l with
  | [] => []
  | Send m :: rest => m :: sent rest
  | _ :: rest => sent rest
  end.

(** The turns that run: those before the van answers [QUIT]. *)
Fixpoint turns (rounds : list Round) : list Round :=
  match rounds with
  | [] => []
  | r :: rest => if receiver r =? QUIT then [] else r :: turns rest
  end.

End ModelDistribution.
End ModelDistribution.

(** * The worker pool *)

Module ThreadPool.
Section ThreadPool.

(** A queued task. *)
Context {Task : Type}.

(** A [std::thread] of [workers]: whether its loop still runs, and whether
    the thread object is joinable. *)
Record Worker : Type := mkWorker {
  running : bool;
  joinable : bool
}.

(** [class MyThreadPool], and the tasks its workers have taken off the
    queue so far, oldest first. *)
Record MyThreadPool : Type := mkPool {
  workers : list Worker;
  tasks : list Task;
  stop : bool;
  taken : list Task
}.

Inductive Exception : Type :=
| runtime_error_enqueue_on_stopped   (* "enqueue on stopped MyThreadPool" *)
| system_error_join.                 (* std::thread::join on a thread that is not joinable *)

Inductive outcome (A : Type) : Type :=
| Returns (a : A)
| Throws (e : Exception).
Arguments Returns {A} a.
Arguments Throws {A} e.

(** The loop of a worker: it takes tasks off the queue, and returns when
    [stop] is set and the queue is empty.  With [stop] set, the workers
    that still run empty the queue and end. *)
Definition workers_drain (pool : MyThreadPool) : MyThreadPool :=
  if existsb running (workers pool) then
    {| workers := map (fun wk => {| running := running wk && negb (stop pool);
                                    joinable := joinable wk |}) (workers pool);
       tasks := [];
       stop := stop pool;
       taken := taken pool ++ tasks pool |}
  else pool.

(** [for (std::thread& worker : workers) worker.join();] *)
Fixpoint join_all (ws : list Worker) : outcome (list Worker) :=
  match ws with
  | [] => Returns []
  | wk :: rest =>
      if joinable wk then
        match join_all rest with
        | Returns rest' => Returns ({| running := false; joinable := false |} :: rest')
        | Throws e => Throws e
        end
      else Throws system_error_join
  end.

(** [MyThreadPool::Stop]. *)
Definition Stop (pool : MyThreadPool) : outcome MyThreadPool :=
  let pool1 := workers_drain {| workers := workers pool; tasks := tasks pool;
                                stop := true; taken := taken pool |} in
  match join_all (workers pool1) with
  | Returns ws => Returns {| workers := ws; tasks := tasks pool1;
                             stop := true; taken := taken pool1 |}
  | Throws e => Throws e
  end.

(** [MyThreadPool::set_max_thread_num], for [maxThreadNum >= 0]. *)
Definition set_max_thread_num (maxThreadNum : nat) (pool : MyThreadPool)
    : outcome MyThreadPool :=
  match Stop pool with
  | Returns pool1 =>
      Returns {| workers := replicate maxThreadNum {| running := true; joinable := true |};
                 tasks := tasks pool1;
                 stop := false;
                 taken := taken pool1 |}
  | Throws e => Throws e
  end.

(** The constructor [MyThreadPool(threads)]. *)
Definition new_MyThreadPool (threads : nat) : outcome MyThreadPool :=
  set_max_thread_num threads
    {| workers := []; tasks := []; stop := false; taken := [] |}.

(** [MyThreadPool::enqueue]. *)
Definition enqueue (task : Task) (pool : MyThreadPool) : outcome MyThreadPool :=
  if stop pool then Throws runtime_error_enqueue_on_stopped
  else Returns {| workers := workers pool; tasks := tasks pool ++ [task];
                  stop := false; taken := taken pool |}.

(** A worker that runs takes the task at the front of the queue. *)
Definition worker_step (pool : MyThreadPool) : option MyThreadPool :=
  if existsb running (workers pool) then
    match tasks pool with
    | [] => None
    | t :: rest => Some {| workers := workers pool; tasks := rest;
                           stop := stop pool; taken := taken pool ++ [t] |}
    end
  else None.

End ThreadPool.
Arguments MyThreadPool Task : clear implicits.
End ThreadPool.

(** * The handlers of [KVStoreDistServer] *)

(** The collaborators of the server: constants and tables of mshadow, the
    tensor engine, the gradient codec (with state [GC]), the environment,
    the transport, and the string splitter of [kvstore_utils.h]. *)
Class Collaborators (GC : Type) : Type := mkCollaborators {
  kFloat32 : Z;                      (* mshadow::kFloat32 *)
  mshadow_sizeof : Z -> option Z;    (* bytes of a dtype; none: fatal *)
  real_type : Z -> bool;             (* the dtypes of MSHADOW_REAL_TYPE_SWITCH *)
  uninit : list Z -> Z -> list Byte.byte;       (* what a fresh buffer holds *)
  CopyFromTo : NDArray -> NDArray -> NDArray;   (* from, to: the new to *)
  plus_assign : NDArray -> NDArray -> NDArray;  (* a += b: the new a *)
  ElemwiseBinaryOp_plus : NDArray -> NDArray -> NDArray -> NDArray;
                                     (* lhs, rhs, out: the new out *)
  ndarray_Copy : Z -> Z -> list Byte.byte -> list Byte.byte;
                                     (* from dtype, to dtype, bytes *)
  Dequantize : GC -> NDArray -> NDArray -> NDArray;  (* from, to: the new to *)
  DecodeParams : string -> GC -> GC;
  ENABLE_LEMETHOD : bool;            (* dmlc::GetEnv("ENABLE_LEMETHOD", false) *)
  ENABLE_TSENGINE : bool;            (* dmlc::GetEnv("ENABLE_TSENGINE", false) *)
  NumWorkers : Z;                    (* ps::NumWorkers() *)
  kr_begin : Z;                      (* GetServerKeyRanges()[MyRank()].begin() *)
  MyRank : Z;                        (* ps::MyRank() *)
  split : string -> ascii -> list string;
                                     (* mxnet::kvstore::split(s, delim, out): the items *)
  LOCAL_AGGREGATION : Z;             (* ps::Control::LOCAL_AGGREGATION *)
  INIT : Z                           (* ps::Control::INIT *)
}.

Section Server.
Context {GC : Type} {env : Collaborators GC}.

#[local] Abbreviation Fields := (Fields GC).
#[local] Abbreviation M := (M GC).

(** The constructors of [NDArray] the server uses. *)
Definition NDArray_dense (sh : list Z) (dt : Z) : NDArray :=
  Some {| storage_type := kDefaultStorage; shape := sh; nd_dtype := dt;
          aux_idx := []; dptr := uninit sh dt |}.

Definition NDArray_rsp (sh : list Z) (dt : Z) : NDArray :=
  Some {| storage_type := kRowSparseStorage; shape := sh; nd_dtype := dt;
          aux_idx := []; dptr := [] |}.

Definition NDArray_blob (sh : list Z) (dt : Z) (bytes : list Byte.byte) : NDArray :=
  Some {| storage_type := kDefaultStorage; shape := sh; nd_dtype := dt;
          aux_idx := []; dptr := bytes |}.

Definition NDArray_rsp_blob (sh : list Z) (dt : Z) (bytes : list Byte.byte)
    (idx : list Z) : NDArray :=
  Some {| storage_type := kRowSparseStorage; shape := sh; nd_dtype := dt;
          aux_idx := idx; dptr := bytes |}.

Definition shape_of (a : NDArray) : list Z :=
  match a with Some r => shape r | None => [] end.

Definition sizeof_ (dt : Z) : M Z :=
  match mshadow_sizeof dt with
  | Some n => ret n
  | None => fatal Check_sizeof_unknown_type
  end.

(** [len] bytes read at [p + off]. *)
Definition read_bytes (p : list Byte.byte) (off len : Z) : M (list Byte.byte) :=
  if (0 <=? off) && (0 <=? len) && (off + len <=? Z.of_nat (length p))
  then ret (take (Z.to_nat len) (drop (Z.to_nat off) p))
  else undefined.

(** [DecodeKey]. *)
Definition DecodeKey (key : Z) : Z := wrap_int (wrap_size_t (key - kr_begin)).

(** [has_multi_precision_copy]. *)
Definition has_multi_precision_copy (type : DataHandleType) (w : Fields) : bool :=
  multi_precision_ w && negb (dtype type =? kFloat32).

(** [set_controller] and [set_updater]. *)
Definition set_controller (controller : bool) : M unit :=
  CHECK controller Check_controller ;;
  modify (set_controller_ controller).

Definition set_updater (updater : option Updater) : M unit :=
  CHECK (bool_decide (is_Some updater)) Check_updater ;;
  modify (set_updater_ updater).

(** [DefaultStorageResponse]. *)
Definition DefaultStorageResponse (type : DataHandleType) (key : Z)
    (req_meta : KVMeta) (req_data : KVPairs) : M unit :=
  w <- get ;;
  match store_ w !! key with
  | None => fatal Check_init_first
  | Some stored =>
      sz <- sizeof_ (nd_dtype stored) ;;
      let len := wrap_size_t (Size (shape stored) * sz) in
      bytes <- read_bytes (dptr stored) 0 len ;;
      emit (ResponseData req_meta
              {| keys := keys req_data; vals := bytes; lens := [wrap_int len] |})
  end.

(** [DefaultAutoPull]. *)
Definition DefaultAutoPull (type : DataHandleType) (key : Z) (version : Z)
    (req_meta : KVMeta) (req_data : KVPairs) : M unit :=
  CHECK (match requestType type with kDefaultPushPull => true | _ => false end)
        Check_AutoPull_DefaultPushPull ;;
  w <- get ;;
  match store_ w !! key with
  | None => fatal Check_init_first
  | Some stored =>
      sz <- sizeof_ (nd_dtype stored) ;;
      let len := wrap_size_t (Size (shape stored) * sz) in
      bytes <- read_bytes (dptr stored) 0 len ;;
      emit (AutoPullUpdate version req_meta
              {| keys := keys req_data; vals := bytes; lens := [wrap_int len] |})
  end.

(** The function handed to the executor by [ApplyUpdates] and
    [ApplyUpdatesDefault]: [CHECK(updater_); updater_(key, update, &stored)],
    with [update] and [stored] the references the caller took. *)
Definition call_updater (mp sync : bool) (key : Z) : Executor.Func Fields :=
  fun w =>
    match updater_ w with
    | None => Fatal Check_updater
    | Some u =>
        let stored := stored_at mp key w in
        let update := if sync then merged (update_buf_at key w)
                      else temp_array (update_buf_at key w) in
        Ok (set_stored mp key (u key update stored)
              (set_calls (calls w ++ [UpdaterCall key update stored]) w))
    end.

(** The first half of both dispatchers: the updater through the executor,
    or without one the copy of [merged]. *)
Definition apply_update (mp : bool) (key : Z) : M unit :=
  w <- get ;;
  if bool_decide (is_Some (updater_ w)) then
    exec_Exec (call_updater mp (sync_mode_ w) key)
  else
    CHECK (sync_mode_ w) Check_updater_async ;;
    modify (fun w => set_stored mp key
                       (CopyFromTo (merged (update_buf_at key w)) (stored_at mp key w)) w).

(** [if (has_multi_precision_copy(type)) CopyFromTo(stored, store_[key])]. *)
Definition copy_down (mp : bool) (key : Z) : M unit :=
  if mp then
    modify (fun w => set_store_ (assign key (CopyFromTo (store_realt_ w !! key)
                                               (store_ w !! key)) (store_ w)) w)
  else ret tt.

(** [ApplyUpdates], on [update_buf_[key]]. *)
Definition ApplyUpdates (type : DataHandleType) (key : Z) (req_data : KVPairs) : M unit :=
  w <- get ;;
  let update_buf := update_buf_at key w in
  if negb (sync_mode_ w)
     || (Z.of_nat (length (request update_buf)) =? wrap_size_t NumWorkers) then
    let mp := has_multi_precision_copy type w in
    apply_update mp key ;;
    let has_pull := existsb pull (request update_buf) in
    if has_pull then
      copy_down mp key ;;
      for_each (request update_buf)
        (fun req => if pull req
                    then DefaultStorageResponse type key req req_data
                    else ret tt) ;;
      modify (set_request key [])
    else
      for_each (request update_buf) (fun req => emit (Response req)) ;;
      modify (set_request key []) ;;
      copy_down mp key
  else ret tt.

(** [ApplyUpdatesDefault], on [update_buf_[key]] and [store_v_[key]]. *)
Definition ApplyUpdatesDefault (type : DataHandleType) (key : Z)
    (req_meta : KVMeta) (req_data : KVPairs) : M unit :=
  w <- get ;;
  let update_buf := update_buf_at key w in
  if negb (sync_mode_ w)
     || (Z.of_nat (length (request update_buf)) =? wrap_size_t NumWorkers) then
    let mp := has_multi_precision_copy type w in
    apply_update mp key ;;
    modify (set_request key []) ;;
    modify (fun w => set_store_v_ (<[key := int_add (store_v_at key w) 1]> (store_v_ w)) w) ;;
    copy_down mp key ;;
    w <- get ;;
    DefaultAutoPull type key (store_v_at key w) req_meta req_data
  else ret tt.

(** [DecodeRowIds]: the row ids of [keys[1..num_rows]], written to a
    buffer of [num_rows] entries. *)
Fixpoint decode_rows (ks : list Z) (master_key : Z) : list Z :=
  match ks with
  | [] => []
  | k :: rest => (DecodeKey k - master_key) :: decode_rows rest master_key
  end.

Definition DecodeRowIds (ks : list Z) (master_key : Z) (num_rows : Z) : M (list Z) :=
  if (num_rows =? 0) || (Z.of_nat (length ks) <=? num_rows) then undefined
  else ret (decode_rows (take (Z.to_nat num_rows) (drop 1 ks)) master_key).

(** [AccumulateRowSparseGrads]. *)
Definition AccumulateRowSparseGrads (type : DataHandleType) (key : Z)
    (recved : NDArray) : M unit :=
  w <- get ;;
  let mp := has_multi_precision_copy type w in
  let out := NDArray_rsp (shape_of (merged (update_buf_at key w)))
                         (if mp then kFloat32 else dtype type) in
  (if mp
   then modify (fun w => set_temp_array key
                           (CopyFromTo recved (temp_array (update_buf_at key w))) w)
   else ret tt) ;;
  modify (fun w =>
    let to_merge := if mp then temp_array (update_buf_at key w) else recved in
    let out' := ElemwiseBinaryOp_plus to_merge (merged (update_buf_at key w)) out in
    set_merged key (CopyFromTo out' (merged (update_buf_at key w))) w).

(** The rows of [RowSparsePullResponse]: for [i = 1..num_rows], the
    [unit_size] bytes at [data + row_id * unit_size]. *)
Fixpoint gather_rows (data : list Byte.byte) (unit_size : Z) (master_key : Z)
    (ks : list Z) : M (list Byte.byte) :=
  match ks with
  | [] => ret []
  | k :: rest =>
      let key := DecodeKey k in
      let row_id := int_sub key master_key in
      row <- read_bytes data (row_id * unit_size) unit_size ;;
      more <- gather_rows data unit_size master_key rest ;;
      ret (row ++ more)
  end.

(** [RowSparsePullResponse]. *)
Definition RowSparsePullResponse (type : DataHandleType) (master_key : Z)
    (num_rows : Z) (req_meta : KVMeta) (req_data : KVPairs) : M unit :=
  if num_rows =? 0 then
    emit (ResponseData req_meta
            {| keys := keys req_data; vals := [];
               lens := replicate (length (keys req_data)) 0 |})
  else
    w <- get ;;
    match store_ w !! master_key with
    | None => fatal Check_init_first
    | Some stored =>
        let unit_len := ProdShape1 (shape stored) in
        num_bytes <- sizeof_ (dtype type) ;;
        let unit_size := wrap_int (unit_len * num_bytes) in
        (if Z.of_nat (length (keys req_data)) <=? num_rows then undefined else ret tt) ;;
        bytes <- gather_rows (dptr stored) unit_size master_key
                   (take (Z.to_nat num_rows) (drop 1 (keys req_data))) ;;
        emit (ResponseData req_meta
                {| keys := keys req_data; vals := bytes;
                   lens := <[0%nat := 0]> (replicate (length (keys req_data))
                                                     (wrap_int unit_len)) |})
    end.

(** [InitRowSparseStored]. *)
Definition InitRowSparseStored (type : DataHandleType) (master_key : Z)
    (num_rows : Z) (req_meta : KVMeta) (req_data : KVPairs) : M unit :=
  w <- get ;;
  let mp := has_multi_precision_copy type w in
  num_bytes <- sizeof_ (dtype type) ;;
  len1 <- index (lens req_data) 1 ;;
  let unit_len := int_div len1 (wrap_int num_bytes) in
  CHECK (0 <? unit_len) Check_unit_len_gt_0 ;;
  let dshape := [num_rows; wrap_size_t unit_len] in
  CHECK (Z.of_nat (length (vals req_data))
           =? wrap_size_t (num_rows * unit_len * wrap_int num_bytes))
        Check_vals_size_rows ;;
  CHECK (real_type (dtype type)) Check_real_type ;;
  let stored_dtype := if mp then kFloat32 else dtype type in
  modify (set_stored mp master_key (NDArray_rsp dshape stored_dtype)) ;;
  (if mp
   then modify (fun w => set_store_ (assign master_key (NDArray_rsp dshape (dtype type))
                                       (store_ w)) w)
   else ret tt) ;;
  modify (set_stored mp master_key
            (NDArray_rsp_blob dshape stored_dtype
               (ndarray_Copy (dtype type) stored_dtype (vals req_data))
               (seqZ 0 num_rows))) ;;
  (if mp
   then modify (fun w => set_store_ (assign master_key
                                       (CopyFromTo (store_realt_ w !! master_key)
                                                   (store_ w !! master_key))
                                       (store_ w)) w)
   else ret tt) ;;
  emit (Response req_meta).

(** [DataHandleRowSparse]. *)
Definition DataHandleRowSparse (type : DataHandleType) (req_meta : KVMeta)
    (req_data : KVPairs) : M unit :=
  k0 <- index (keys req_data) 0 ;;
  let master_key := DecodeKey k0 in
  let num_rows := wrap_size_t (Z.of_nat (length (keys req_data)) - 1) in
  w <- get ;;
  if push req_meta then
    CHECK (0 <? Z.of_nat (length (lens req_data))) Check_lens_not_empty ;;
    len0 <- index (lens req_data) 0 ;;
    CHECK (len0 =? 0) Check_lens0_eq_0 ;;
    match store_ w !! master_key with
    | None =>
        CHECK (0 <? num_rows) Check_init_empty_data ;;
        InitRowSparseStored type master_key num_rows req_meta req_data
    | Some stored =>
        let mp := has_multi_precision_copy type w in
        (if sync_mode_ w && is_none (merged (update_buf_at master_key w))
         then modify (set_merged master_key
                        (NDArray_rsp (shape stored) (if mp then kFloat32 else dtype type)))
         else ret tt) ;;
        (if mp && is_none (temp_array (update_buf_at master_key w))
         then modify (set_temp_array master_key (NDArray_rsp (shape stored) kFloat32))
         else ret tt) ;;
        if num_rows =? 0 then
          if sync_mode_ w then
            (if bool_decide (request (update_buf_at master_key w) = [])
             then modify (set_merged master_key
                            (NDArray_rsp (shape stored)
                                         (if mp then kFloat32 else dtype type)))
             else ret tt) ;;
            modify (fun w => set_request master_key
                               (request (update_buf_at master_key w) ++ [req_meta]) w) ;;
            ApplyUpdates type master_key req_data
          else emit (Response req_meta)
        else
          num_bytes <- sizeof_ (dtype type) ;;
          len1 <- index (lens req_data) 1 ;;
          let unit_len := wrap_size_t len1 / num_bytes in
          CHECK (0 <? unit_len) Check_unit_len_gt_0 ;;
          indices <- DecodeRowIds (keys req_data) master_key num_rows ;;
          CHECK (real_type (dtype type)) Check_real_type ;;
          let recved := NDArray_rsp_blob (shape stored) (dtype type)
                                         (vals req_data) indices in
          (if bool_decide (request (update_buf_at master_key w) = []) then
             if sync_mode_ w then
               modify (fun w => set_merged master_key
                                  (CopyFromTo recved (merged (update_buf_at master_key w))) w)
             else if mp then
               modify (fun w => set_temp_array master_key
                                  (CopyFromTo recved (temp_array (update_buf_at master_key w))) w)
             else modify (set_temp_array master_key recved)
           else
             CHECK (sync_mode_ w) Check_sync_mode ;;
             AccumulateRowSparseGrads type master_key recved) ;;
          modify (fun w => set_request master_key
                             (request (update_buf_at master_key w) ++ [req_meta]) w) ;;
          ApplyUpdates type master_key req_data
    end
  else RowSparsePullResponse type master_key num_rows req_meta req_data.

(** [DataHandleCompressed].  [decomp_buf] is a copy of the handle
    [decomp_buf_[key]]: a write through it reaches the map's array when that
    is not none, and a fresh array given to the copy does not. *)
Definition DataHandleCompressed (type : DataHandleType) (req_meta : KVMeta)
    (req_data : KVPairs) : M unit :=
  CHECK (dtype type =? kFloat32) Check_compression_fp32 ;;
  if push req_meta then
    CHECK (Z.of_nat (length (keys req_data)) =? 2) Check_keys_size_2 ;;
    CHECK (Z.of_nat (length (lens req_data)) =? 2) Check_lens_size_2 ;;
    len1 <- index (lens req_data) 1 ;;
    CHECK (Z.of_nat (length (vals req_data)) =? wrap_size_t len1) Check_vals_size_lens1 ;;
    k0 <- index (keys req_data) 0 ;;
    k1 <- index (keys req_data) 1 ;;
    let original_size := DecodeKey k0 in
    let key := DecodeKey k1 in
    num_bytes <- sizeof_ (dtype type) ;;
    let recved := NDArray_blob [wrap_size_t len1 / num_bytes] kFloat32 (vals req_data) in
    w <- get ;;
    let dshape := [original_size] in
    let decomp_buf := match decomp_buf_ w !! key with
                      | Some b => Some b
                      | None => NDArray_dense dshape kFloat32
                      end in
    let dequantize_scratch : M NDArray :=
      let d := Dequantize (gradient_compression_ w) recved decomp_buf in
      (if is_none (decomp_buf_ w !! key) then ret tt
       else modify (fun w => set_decomp_buf_ (assign key d (decomp_buf_ w)) w)) ;;
      ret d in
    match store_ w !! key with
    | None =>
        modify (fun w => set_store_
                  (assign key (Dequantize (gradient_compression_ w) recved
                                          (NDArray_dense dshape kFloat32))
                          (store_ w)) w) ;;
        emit (Response req_meta)
    | Some stored =>
        if sync_mode_ w then
          (if is_none (merged (update_buf_at key w))
           then modify (set_merged key (NDArray_dense dshape kFloat32))
           else ret tt) ;;
          (if Z.of_nat (length (request (update_buf_at key w))) =? 0 then
             modify (fun w => set_merged key
                       (Dequantize (gradient_compression_ w) recved
                                   (merged (update_buf_at key w))) w)
           else
             d <- dequantize_scratch ;;
             modify (fun w => set_merged key
                       (plus_assign (merged (update_buf_at key w)) d) w)) ;;
          modify (fun w => set_request key
                             (request (update_buf_at key w) ++ [req_meta]) w) ;;
          ApplyUpdates type key req_data
        else
          d <- dequantize_scratch ;;
          exec_Exec (fun w =>
            match updater_ w with
            | None => Fatal Check_updater
            | Some u =>
                Ok (set_store_ (assign key (u key d (store_ w !! key)) (store_ w))
                      (set_calls (calls w ++ [UpdaterCall key d (store_ w !! key)]) w))
            end) ;;
          emit (Response req_meta)
    end
  else
    CHECK (Z.of_nat (length (keys req_data)) =? 1) Check_keys_size_1 ;;
    CHECK (Z.of_nat (length (lens req_data)) =? 0) Check_lens_size_0 ;;
    k0 <- index (keys req_data) 0 ;;
    DefaultStorageResponse type (DecodeKey k0) req_meta req_data.

(** [DataHandleDefault]. *)
Definition DataHandleDefault (type : DataHandleType) (req_meta : KVMeta)
    (req_data : KVPairs) : M unit :=
  CHECK (Z.of_nat (length (keys req_data)) =? 1) Check_keys_size_1 ;;
  (if push req_meta then
     CHECK (Z.of_nat (length (lens req_data)) =? 1) Check_lens_size_1 ;;
     len0 <- index (lens req_data) 0 ;;
     CHECK (Z.of_nat (length (vals req_data)) =? wrap_size_t len0) Check_vals_size_lens0
   else ret tt) ;;
  k0 <- index (keys req_data) 0 ;;
  let key := DecodeKey k0 in
  w <- get ;;
  let mp := has_multi_precision_copy type w in
  if push req_meta then
    (if ENABLE_TSENGINE then emit (Response req_meta) else ret tt) ;;
    len0 <- index (lens req_data) 0 ;;
    num_bytes <- sizeof_ (dtype type) ;;
    let dshape := [wrap_size_t len0 / num_bytes] in
    CHECK (real_type (dtype type)) Check_real_type ;;
    let recved := NDArray_blob dshape (dtype type) (vals req_data) in
    if is_none (stored_at mp key w) then
      modify (set_stored mp key
                (CopyFromTo recved
                   (NDArray_dense dshape (if mp then kFloat32 else dtype type)))) ;;
      (if negb ENABLE_TSENGINE then emit (Response req_meta) else ret tt) ;;
      (if mp
       then modify (fun w => set_store_
                      (assign key (CopyFromTo (store_realt_ w !! key)
                                              (NDArray_dense dshape (dtype type)))
                              (store_ w)) w)
       else ret tt) ;;
      (if ENABLE_TSENGINE then
         modify (fun w => set_store_v_ (<[key := 0]> (store_v_ w)) w) ;;
         DefaultAutoPull type key 0 req_meta req_data
       else ret tt)
    else
      (if sync_mode_ w && is_none (merged (update_buf_at key w))
       then modify (set_merged key
                      (NDArray_dense dshape (if mp then kFloat32 else dtype type)))
       else ret tt) ;;
      (if mp && is_none (temp_array (update_buf_at key w))
       then modify (set_temp_array key (NDArray_dense dshape kFloat32))
       else ret tt) ;;
      (if bool_decide (request (update_buf_at key w) = []) then
         if sync_mode_ w then
           modify (fun w => set_merged key
                              (CopyFromTo recved (merged (update_buf_at key w))) w)
         else if mp then
           modify (fun w => set_temp_array key
                              (CopyFromTo recved (temp_array (update_buf_at key w))) w)
         else modify (set_temp_array key recved)
       else
         CHECK (sync_mode_ w) Check_sync_mode ;;
         if mp then
           modify (fun w => set_temp_array key
                              (CopyFromTo recved (temp_array (update_buf_at key w))) w) ;;
           modify (fun w => set_merged key
                              (plus_assign (merged (update_buf_at key w))
                                           (temp_array (update_buf_at key w))) w)
         else
           modify (fun w => set_merged key
                              (plus_assign (merged (update_buf_at key w)) recved) w)) ;;
      if ENABLE_TSENGINE then
        modify (fun w => set_request key
                           (request (update_buf_at key w)
                              ++ replicate (Z.to_nat (num_merge req_meta)) req_meta) w) ;;
        ApplyUpdatesDefault type key req_meta req_data
      else
        modify (fun w => set_request key
                           (request (update_buf_at key w) ++ [req_meta]) w) ;;
        ApplyUpdates type key req_data
  else DefaultStorageResponse type key req_meta req_data.

(** [LocalAggregation] (LeMethod).  The handler only queues
    [ModelDistribution] on the pool; what the task does, [iteration_++]
    included, happens on the pool's thread ([ModelDistribution_task]
    below). *)
Definition LocalAggregation (reqMeta : KVMeta) (reqData : KVPairs) : M unit :=
  CHECK (Z.of_nat (length (keys reqData)) =? 1) Check_keys_size_1 ;;
  (if push reqMeta then
     CHECK (Z.of_nat (length (lens reqData)) =? 1) Check_lens_size_1 ;;
     len0 <- index (lens reqData) 0 ;;
     CHECK (Z.of_nat (length (vals reqData)) =? wrap_size_t len0) Check_vals_size_lens0
   else ret tt) ;;
  k0 <- index (keys reqData) 0 ;;
  let key := DecodeKey k0 in
  type <- lift (DepairDataHandleType (cmd reqMeta)) ;;
  len0 <- index (lens reqData) 0 ;;
  num_bytes <- sizeof_ (dtype type) ;;
  let dshape := [wrap_size_t len0 / num_bytes] in
  CHECK (real_type (dtype type)) Check_real_type ;;
  let recved := NDArray_blob dshape (dtype type) (vals reqData) in
  modify (fun w => if is_none (store_ w !! key)
                   then set_store_ (assign key (NDArray_dense dshape (dtype type))
                                           (store_ w)) w
                   else w) ;;
  modify (fun w =>
    if num_aggregation_ w =? 0
    then set_store_ (assign key (CopyFromTo recved (store_ w !! key)) (store_ w)) w
    else set_store_ (assign key (plus_assign (store_ w !! key) recved) (store_ w)) w) ;;
  modify (fun w => set_num_aggregation_
                     (int_add (num_aggregation_ w) (num_aggregation reqMeta)) w) ;;
  w <- get ;;
  if num_aggregation_ w =? NumWorkers then
    CHECK (sync_mode_ w) Check_LeMethod_sync_mode ;;
    emit NoticeWorkersOneIterationFinish ;;
    modify (set_num_aggregation_ 0) ;;
    match store_ w !! key with
    | None => undefined
    | Some stored =>
        sz <- sizeof_ (nd_dtype stored) ;;
        let len := wrap_int (wrap_size_t (Size (shape stored) * sz)) in
        bytes <- read_bytes (dptr stored) 0 (wrap_size_t len) ;;
        emit (EnqueueModelDistribution reqMeta
                {| keys := keys reqData; vals := bytes; lens := [len] |})
    end
  else ret tt.

(** [DataHandleEx].  As in [LocalAggregation], [ModelDistribution] is
    queued on the pool and runs there. *)
Definition DataHandleEx (req_meta : KVMeta) (req_data : KVPairs) : M unit :=
  type <- lift (DepairDataHandleType (cmd req_meta)) ;;
  if ENABLE_LEMETHOD then
    CHECK (match requestType type with kDefaultPushPull => true | _ => false end)
          Check_LeMethod_only_DefaultPushPull ;;
    if control_cmd req_meta =? LOCAL_AGGREGATION then
      LocalAggregation req_meta req_data
    else if control_cmd req_meta =? INIT then
      DataHandleDefault type req_meta req_data ;;
      k0 <- index (keys req_data) 0 ;;
      let key := DecodeKey k0 in
      w <- get ;;
      match store_ w !! key with
      | None => undefined
      | Some stored =>
          sz <- sizeof_ (nd_dtype stored) ;;
          let len := wrap_int (wrap_size_t (Size (shape stored) * sz)) in
          bytes <- read_bytes (dptr stored) 0 (wrap_size_t len) ;;
          emit (EnqueueModelDistribution req_meta
                  {| keys := keys req_data; vals := bytes; lens := [len] |})
      end
    else ret tt
  else
    match requestType type with
    | kRowSparsePushPull => DataHandleRowSparse type req_meta req_data
    | kCompressedPushPull => DataHandleCompressed type req_meta req_data
    | kDefaultPushPull => DataHandleDefault type req_meta req_data
    | kNoEnumerator _ => ret tt
    end.

(** The tasks queued on [threadPool_] so far, oldest first: one for each
    [threadPool_.enqueue(&KVStoreDistServer::ModelDistribution, this,
    reqMeta, kvs)] among the calls. *)
Fixpoint enqueued (l : list Event) : list (KVMeta * KVPairs) :=
  match l with
  | [] => []
  | EnqueueModelDistribution reqMeta kvs :: rest => (reqMeta, kvs) :: enqueued rest
  | _ :: rest => enqueued rest
  end.

(** A queued task, as the thread of the pool runs it some time after the
    handler has returned: [ModelDistribution(reqMeta, kvs)] on the server's
    [iteration_], which it increments before its loop, against the answers
    [rounds] of the van.  No handler reads or writes [iteration_]; the
    task touches no other field. *)
Definition ModelDistribution_task (UNKNOWN QUIT my_node_id clock_den : Z)
    (rounds : list ModelDistribution.Round) (task : KVMeta * KVPairs) (w : Fields)
    : result (Fields * list ModelDistribution.VanCall) :=
  match ModelDistribution.ModelDistribution UNKNOWN QUIT my_node_id clock_den
          (fst task) (snd task) rounds (iteration_ w) with
  | Ok (it, l) => Ok (set_iteration_ it w, l)
  | Fatal c => Fatal c
  | Blocked => Blocked
  | Undefined => Undefined
  end.

(** The thread of the pool (with ENABLE_LEMETHOD the constructor calls
    [threadPool_.set_max_thread_num(1)]: one worker) runs the queued tasks
    one after the other, in the order of the queue; [answers] holds the
    answers of the van for each of them. *)
Fixpoint pool_run (UNKNOWN QUIT my_node_id clock_den : Z)
    (tasks : list (KVMeta * KVPairs)) (answers : list (list ModelDistribution.Round))
    (w : Fields) : result (Fields * list ModelDistribution.VanCall) :=
  match tasks, answers with
  | task :: tasks', rounds :: answers' =>
      match ModelDistribution_task UNKNOWN QUIT my_node_id clock_den rounds task w with
      | Ok (w1, l1) =>
          match pool_run UNKNOWN QUIT my_node_id clock_den tasks' answers' w1 with
          | Ok (w2, l2) => Ok (w2, l1 ++ l2)
          | Fatal c => Fatal c
          | Blocked => Blocked
          | Undefined => Undefined
          end
      | Fatal c => Fatal c
      | Blocked => Blocked
      | Undefined => Undefined
      end
  | _, _ => Ok (w, [])
  end.

(** One turn of the loop of [CreateMultiPrecisionCopies], for the entry
    [(key, stored)] of [store_]. *)
Definition CreateMultiPrecisionCopy (entry : Z * NDArrayRep) : M unit :=
  let (key, stored) := entry in
  if negb (nd_dtype stored =? kFloat32) then
    let stored_realt :=
      match storage_type stored with
      | kRowSparseStorage => NDArray_rsp (shape stored) kFloat32
      | kDefaultStorage => NDArray_dense (shape stored) kFloat32
      end in
    modify (fun w => set_store_realt_ (assign key stored_realt (store_realt_ w)) w) ;;
    modify (fun w =>
      match merged (update_buf_at key w) with
      | None => w
      | Some m =>
          set_merged key
            (match storage_type m with
             | kRowSparseStorage => NDArray_rsp (shape m) kFloat32
             | kDefaultStorage => NDArray_dense (shape m) kFloat32
             end) w
      end) ;;
    w <- get ;;
    CHECK (Z.of_nat (length (request (update_buf_at key w))) =? 0)
          Check_multi_precision_pushes_underway ;;
    modify (fun w => set_store_realt_
                       (assign key (CopyFromTo (Some stored) (store_realt_ w !! key))
                               (store_realt_ w)) w)
  else ret tt.

(** [CreateMultiPrecisionCopies]. *)
Definition CreateMultiPrecisionCopies : M unit :=
  w <- get ;;
  for_each (map_to_list (store_ w)) CreateMultiPrecisionCopy.

(** [recved.body.back() - '0']; [char] is signed. *)
Definition last_char_minus_0 (body : string) : option Z :=
  match String.get (String.length body - 1) body with
  | Some c =>
      let n := Z.of_N (Ascii.N_of_ascii c) in
      Some ((if n <? 128 then n else n - 256) - 48)
  | None => None
  end.

(** [body.front() - '0']. *)
Definition first_char_minus_0 (body : string) : option Z :=
  match body with
  | String c _ =>
      let n := Z.of_N (Ascii.N_of_ascii c) in
      Some ((if n <? 128 then n else n - 256) - 48)
  | EmptyString => None
  end.

(** [std::to_string] of an [int]. *)
Definition to_string (z : Z) : string := NilZero.string_of_int (Z.to_int z).

(** The loop of [SetProfilerConfig] over [elems]: the keys and the values
    that end up in [ckeys] and [cvals]. *)
Fixpoint profiler_params (elems : list string) : M (list string * list string) :=
  match elems with
  | [] => ret ([], [])
  | elem :: rest =>
      let parts := split elem ":"%char in
      CHECK (Z.of_nat (length parts) =? 2) Check_profiler_config ;;
      parts0 <- index parts 0 ;;
      parts1 <- index parts 1 ;;
      CHECK (negb (String.length parts0 =? 0)%nat) Check_profiler_param_empty ;;
      CHECK (negb (String.length parts1 =? 0)%nat) Check_profiler_value_empty ;;
      let parts1 :=
        if String.eqb parts0 "filename"
        then String.append "rank" (String.append (to_string MyRank)
                                                 (String.append "_" parts1))
        else parts1 in
      more <- profiler_params rest ;;
      ret (parts0 :: fst more, parts1 :: snd more)
  end.

(** [SetProfilerConfig].  [&ckeys[0]] and [&cvals[0]] index the vectors,
    which hold one entry per element. *)
Definition SetProfilerConfig (params_str : string) : M unit :=
  let elems := split params_str ","%char in
  kv <- profiler_params elems ;;
  _ <- index (fst kv) 0 ;;
  _ <- index (snd kv) 0 ;;
  emit (MXSetProfilerConfig (fst kv) (snd kv)).

(** [ProcessServerProfilerCommands]; the [switch] has no [default]. *)
Definition ProcessServerProfilerCommands (type : KVStoreServerProfilerCommand)
    (body : string) : M unit :=
  match type with
  | kSetConfig =>
      SetProfilerConfig (String.substring 0 (String.length body - 1) body)
  | kState =>
      match first_char_minus_0 body with
      | Some n => emit (MXSetProfilerState n)
      | None => undefined
      end
  | kPause =>
      match first_char_minus_0 body with
      | Some n => emit (MXProfilePause n)
      | None => undefined
      end
  | kDump =>
      match first_char_minus_0 body with
      | Some n => emit (MXDumpProfile n)
      | None => undefined
      end
  | kNoProfilerCommand _ => ret tt
  end.

(** The function handed to the executor by [CommandHandle]:
    [CHECK(controller_); controller_(recved.head, recved.body)]. *)
Definition call_controller (recved : SimpleData) : Executor.Func Fields :=
  fun w =>
    if controller_ w
    then Ok (set_calls (calls w ++ [ControllerCall (head recved) (body recved)]) w)
    else Fatal Check_controller.

(** [CommandHandle]. *)
Definition CommandHandle (recved : SimpleData) : M unit :=
  (match CommandType_of_int (head recved) with
   | kStopServer => exec_Stop
   | kSyncMode => modify (set_sync_mode_ true)
   | kSetGradientCompression =>
       modify (fun w => set_gradient_compression_
                          (DecodeParams (body recved) (gradient_compression_ w)) w)
   | kSetProfilerParams =>
       match last_char_minus_0 (body recved) with
       | Some t =>
           ProcessServerProfilerCommands (KVStoreServerProfilerCommand_of_int t)
                                         (body recved)
       | None => undefined
       end
   | kSetMultiPrecision =>
       w <- get ;;
       if negb (multi_precision_ w) then
         modify (set_multi_precision_ true) ;;
         CreateMultiPrecisionCopies
       else ret tt
   | kController => exec_Exec (call_controller recved)
   | kNoCommand _ => ret tt
   end) ;;
  emit (AppResponse recved).

End Server.

(** * A small instance

    Collaborators and server states on which the handlers run by
    computation: the real size table of mshadow for the dtypes 0..7, tensors
    copied byte by byte and added bytewise, an updater that overwrites the
    stored array with the update, two workers. *)

Module Toy.

Definition byte_add (x y : Byte.byte) : Byte.byte :=
  default Byte.x00 (Byte.of_N ((Byte.to_N x + Byte.to_N y) mod 256)).

Definition copy (from to : NDArray) : NDArray :=
  match from, to with
  | Some f, Some t =>
      Some {| storage_type := storage_type t; shape := shape t;
              nd_dtype := nd_dtype t; aux_idx := aux_idx f; dptr := dptr f |}
  | _, _ => to
  end.

Definition add (a b : NDArray) : NDArray :=
  match a, b with
  | Some x, Some y =>
      Some {| storage_type := storage_type x; shape := shape x;
              nd_dtype := nd_dtype x; aux_idx := aux_idx x;
              dptr := zip_with byte_add (dptr x) (dptr y) |}
  | _, _ => a
  end.

Definition sizeof (dt : Z) : option Z :=
  if dt =? 0 then Some 4 else if dt =? 1 then Some 8
  else if dt =? 2 then Some 2 else if dt =? 3 then Some 1
  else if dt =? 4 then Some 4 else if dt =? 5 then Some 1
  else if dt =? 6 then Some 8 else if dt =? 7 then Some 1
  else None.

(** The splitter: [std::getline] on the string until it is exhausted. *)
Fixpoint getlines (delim : ascii) (s item : string) : list string :=
  match s with
  | EmptyString => match item with EmptyString => [] | _ => [item] end
  | String c rest =>
      if Ascii.eqb c delim then item :: getlines delim rest EmptyString
      else getlines delim rest (String.append item (String c EmptyString))
  end.

Definition collaborators (lemethod tsengine : bool) : Collaborators unit :=
  {| kFloat32 := 0;
     mshadow_sizeof := sizeof;
     real_type := fun dt => (dt =? 0) || (dt =? 1) || (dt =? 2);
     uninit := fun sh dt =>
       replicate (Z.to_nat (Size sh * default 0 (sizeof dt))) Byte.x00;
     CopyFromTo := copy;
     plus_assign := add;
     ElemwiseBinaryOp_plus := fun lhs rhs out => copy (add lhs rhs) out;
     ndarray_Copy := fun _ _ bytes => bytes;
     Dequantize := fun _ from to => copy from to;
     DecodeParams := fun _ gc => gc;
     ENABLE_LEMETHOD := lemethod;
     ENABLE_TSENGINE := tsengine;
     NumWorkers := 2;
     kr_begin := 0;
     MyRank := 0;
     split := fun s delim => getlines delim s EmptyString;
     LOCAL_AGGREGATION := 1;
     INIT := 2 |}.

Definition updater : Updater := fun _ update stored => copy update stored.

(** An executor with a thread waiting in [Start]. *)
Definition idle_exec : Executor.Executor (Fields unit) :=
  Executor.enter_Start Executor.new_Executor.

(** The fields of a server that has seen no request. *)
Definition no_fields (sync mp : bool) (u : option Updater) : Fields unit :=
  {| sync_mode_ := sync; controller_ := false; updater_ := u;
     store_ := ∅; store_realt_ := ∅; update_buf_ := ∅; decomp_buf_ := ∅;
     multi_precision_ := mp; gradient_compression_ := tt;
     num_aggregation_ := 0; iteration_ := 0; store_v_ := ∅; calls := [] |}.

Definition server (w : Fields unit) : KVStoreDistServer unit :=
  {| exec_ := idle_exec; fields := w |}.

(** A dense tensor of two float32 elements, and a row-sparse one of two
    rows of one float16 element. *)
Definition dense_f32 (bytes : list Byte.byte) : NDArrayRep :=
  {| storage_type := kDefaultStorage; shape := [2]; nd_dtype := 0;
     aux_idx := []; dptr := bytes |}.

Definition rsp_f16 (bytes : list Byte.byte) : NDArrayRep :=
  {| storage_type := kRowSparseStorage; shape := [2; 1]; nd_dtype := 2;
     aux_idx := [0; 1]; dptr := bytes |}.

Definition bytes8 : list Byte.byte :=
  [Byte.x01; Byte.x02; Byte.x03; Byte.x04; Byte.x05; Byte.x06; Byte.x07; Byte.x08].

Definition bytes4 : list Byte.byte := [Byte.x0a; Byte.x0b; Byte.x0c; Byte.x0d].

(** A push request and a pull request of worker 9. *)
Definition push_meta (c : Z) : KVMeta :=
  {| cmd := c; push := true; pull := false; sender := 9; timestamp := 0;
     meta_key := 0; num_merge := 1; control_cmd := 0; num_aggregation := 0 |}.

Definition pull_meta (c : Z) : KVMeta :=
  {| cmd := c; push := false; pull := true; sender := 9; timestamp := 1;
     meta_key := 0; num_merge := 1; control_cmd := 0; num_aggregation := 0 |}.

(** Async mode with an updater: key 5 holds eight zero bytes and one push
    of [bytes8] is pending in [temp_array]. *)
Definition async_pending_5 : Fields unit :=
  set_update_buf_
    {[ 5 := {| request := [push_meta 0]; merged := None;
               temp_array := Some (dense_f32 bytes8) |} ]}
    (set_store_ {[ 5 := dense_f32 (replicate 8 Byte.x00) ]}
       (no_fields false false (Some updater))).

(** Sync mode with an updater: key 5 holds eight zero bytes; the pushes of
    both workers are merged into [bytes8], and the second one asks for the
    value. *)
Definition sync_complete_5 : Fields unit :=
  set_update_buf_
    {[ 5 := {| request := [push_meta 0;
                           {| cmd := 0; push := true; pull := true; sender := 11;
                              timestamp := 3; meta_key := 0; num_merge := 1;
                              control_cmd := 0; num_aggregation := 0 |}];
               merged := Some (dense_f32 bytes8);
               temp_array := None |} ]}
    (set_store_ {[ 5 := dense_f32 (replicate 8 Byte.x00) ]}
       (no_fields true false (Some updater))).

(** Sync mode, no updater, multi-precision off: key 5 is float32 and one
    push for it is pending. *)
Definition f32_pending_5 : Fields unit :=
  set_update_buf_
    {[ 5 := {| request := [push_meta 0]; merged := Some (dense_f32 bytes8);
               temp_array := None |} ]}
    (set_store_ {[ 5 := dense_f32 (replicate 8 Byte.x00) ]}
       (no_fields true false None)).

(** The same with key 7 holding float16 rows, one push pending for it. *)
Definition f16_pending_7 : Fields unit :=
  set_update_buf_
    {[ 7 := {| request := [push_meta 4]; merged := Some (rsp_f16 bytes4);
               temp_array := None |} ]}
    (set_store_ {[ 5 := dense_f32 (replicate 8 Byte.x00); 7 := rsp_f16 bytes4 ]}
       (no_fields true false None)).

End Toy.

(** * Facts about the serial executor *)

Section ExecutorFacts.
Context {W : Type}.
Import Executor.
Implicit Type e : Executor W.

(** Promises are made in order: every promise in the queue or already
    fulfilled was made before the next one. *)
Definition promises_fresh e : Prop :=
  (forall n, In n (fulfilled e) -> (n < next_promise e)%nat) /\
  (forall blk, In blk (queue_ e) -> (p blk < next_promise e)%nat).

Lemma promise_set_In n e : promise_set n e = true <-> In n (fulfilled e).
Proof.
  unfold promise_set. rewrite existsb_exists. split.
  - intros (x & Hx & Heq). apply Nat.eqb_eq in Heq. by subst.
  - intros H. exists n. split; [done | apply Nat.eqb_refl].
Qed.

Lemma Start_step_not_in_Start e (w : W) :
  in_Start e = false -> Start_step e w = None.
Proof. unfold Start_step. by intros ->. Qed.

Lemma Start_run_not_in_Start fuel e (w : W) :
  in_Start e = false -> Start_run fuel e w = Ok (e, w).
Proof.
  intros H. destruct fuel as [|n]; simpl; [done|].
  by rewrite Start_step_not_in_Start.
Qed.

(** The loop takes its turns on a queue that ends with the poison of
    promise [n]: when it has run, either the promise is not set, or the
    loop has left [Start] with the queue empty. *)
Lemma Start_run_to_poison (q : list (Block W)) :
  forall fuel e (w : W) n e2 w2,
    queue_ e = q ++ [ {| f := None; p := n |} ] ->
    (length (queue_ e) <= fuel)%nat ->
    ~ In n (fulfilled e) ->
    (forall blk, In blk q -> p blk <> n) ->
    Start_run fuel e w = Ok (e2, w2) ->
    In n (fulfilled e2) ->
    in_Start e2 = false /\ queue_ e2 = [] /\ next_promise e2 = next_promise e /\
    (forall k, In k (fulfilled e2) -> In k (fulfilled e) \/ k = n \/ exists blk, In blk q /\ p blk = k).
Proof.
  induction q as [|blk q IH]; intros fuel e w n e2 w2 Hq Hfuel Hn Hq' Hrun Hin.
  - destruct fuel as [|fuel]; [rewrite Hq in Hfuel; simpl in Hfuel; lia|].
    simpl in Hrun. unfold Start_step in Hrun.
    destruct (in_Start e) eqn:Hs.
    + rewrite Hq in Hrun. simpl in Hrun.
      rewrite Start_run_not_in_Start in Hrun by done.
      inversion Hrun; subst; clear Hrun. simpl.
      repeat split; try done.
      intros k [<-|Hk]; auto.
    + inversion Hrun; subst. contradiction.
  - destruct fuel as [|fuel]; [rewrite Hq in Hfuel; simpl in Hfuel; lia|].
    simpl in Hrun. unfold Start_step in Hrun.
    destruct (in_Start e) eqn:Hs.
    + rewrite Hq in Hrun. simpl in Hrun.
      destruct (f blk) as [g|] eqn:Hf.
      * destruct (g w) as [w'| c | |] eqn:Hg; try discriminate.
        -- eapply IH in Hrun; simpl; try done.
           ++ destruct Hrun as (H1 & H2 & H3 & H4). simpl in *.
              repeat split; try done.
              intros k Hk. destruct (H4 k Hk) as [[<-|?]|[?|(b & ? & ?)]]; eauto 6.
           ++ rewrite Hq in Hfuel. simpl in Hfuel. rewrite length_app in *. simpl in *. lia.
           ++ intros [Heq|?]; [|done]. eapply (Hq' blk); [by left|done].
           ++ intros b Hb. apply Hq'. by right.
        -- rewrite Start_run_not_in_Start in Hrun by done.
           inversion Hrun; subst; clear Hrun. simpl in Hin.
           destruct Hin as [Heq|?]; [|done].
           exfalso. eapply (Hq' blk); [by left|done].
      * rewrite Start_run_not_in_Start in Hrun by done.
        inversion Hrun; subst; clear Hrun. simpl in Hin.
        destruct Hin as [Heq|?]; [|done].
        exfalso. eapply (Hq' blk); [by left|done].
    + inversion Hrun; subst. contradiction.
Qed.

(** After a [Stop] that returned, no thread is in [Start], the queue is
    empty and promises are still fresh. *)
Lemma Stop_returned e (w : W) e1 w1 :
  promises_fresh e ->
  Stop e w = Ok (e1, w1) ->
  in_Start e1 = false /\ queue_ e1 = [] /\ promises_fresh e1.
Proof.
  intros [Hf Hq]. unfold Stop, Exec, Exec_push.
  match goal with |- context [Start_run ?n ?x w] =>
    destruct (Start_run n x w) as [[e2 w2]| | |] eqn:Hrun end; try discriminate.
  destruct (promise_set (next_promise e) e2) eqn:Hset; [|discriminate].
  intros Heq; inversion Heq; subst; clear Heq.
  apply promise_set_In in Hset.
  eapply Start_run_to_poison in Hrun; simpl; try done.
  - destruct Hrun as (H1 & H2 & H3 & H4). simpl in *.
    repeat split; try done.
    + intros n Hn. rewrite H3.
      destruct (H4 n Hn) as [Hc|[->|(b & Hb & <-)]].
      * specialize (Hf n Hc). lia.
      * lia.
      * specialize (Hq b Hb). lia.
    + rewrite H2. intros ? [].
  - intros H. specialize (Hf _ H). lia.
  - intros blk H Heq. specialize (Hq _ H). lia.
Qed.

(** C9 (as amended): [Stop] is not idempotent.  Once a [Stop] has
    returned, no thread is left in the loop of [Start]; a second [Stop]
    queues its poison block and waits forever: the loop takes no further
    turn, so the block stays in the queue and its promise is never set. *)
Theorem Stop_after_Stop_blocks e (w : W) e1 w1 :
  promises_fresh e ->
  Stop e w = Ok (e1, w1) ->
  in_Start e1 = false /\
  Stop e1 w1 = Blocked /\
  queue_ (fst (Exec_push None e1)) = [ {| f := None; p := next_promise e1 |} ] /\
  forall fuel, Start_run fuel (fst (Exec_push None e1)) w1
               = Ok (fst (Exec_push None e1), w1).
Proof.
  intros Hfresh Hstop.
  destruct (Stop_returned _ _ _ _ Hfresh Hstop) as (Hs & Hq & Hf1 & Hq1).
  assert (Hrun : forall fuel, Start_run fuel (fst (Exec_push None e1)) w1
                              = Ok (fst (Exec_push None e1), w1)).
  { intros fuel. by apply Start_run_not_in_Start. }
  repeat split; try done.
  - unfold Stop, Exec.
    destruct (Exec_push None e1) as [e2 n] eqn:Hpush.
    specialize (Hrun (length (queue_ e2))). simpl in Hrun. rewrite Hrun.
    destruct (promise_set n e2) eqn:Hset; [|done].
    apply promise_set_In in Hset.
    unfold Exec_push in Hpush. inversion Hpush; subst; clear Hpush. simpl in Hset.
    specialize (Hf1 _ Hset). lia.
  - simpl. by rewrite Hq.
Qed.

(** X7: On an idle executor (a thread waits in [Start], nothing is queued)
    [Stop] returns: the loop takes the poison, sets its promise and leaves
    [Start]; the memory is not touched. *)
Lemma Stop_idle_returns e (w : W) :
  idle e ->
  Stop e w = Ok ({| queue_ := []; fulfilled := next_promise e :: fulfilled e;
                    next_promise := S (next_promise e); in_Start := false |}, w).
Proof.
  intros [Hs Hq]. unfold Stop, Exec, Exec_push. rewrite Hq. simpl.
  unfold Start_step. simpl. rewrite Hs. simpl.
  unfold promise_set. simpl. by rewrite Nat.eqb_refl.
Qed.

(** On an idle executor [Exec(func)] runs [func] once on the memory and
    returns with the executor idle again. *)
Lemma Exec_idle_runs (func : Func W) e (w w' : W) :
  idle e ->
  func w = Ok w' ->
  Exec (Some func) e w
  = Ok ({| queue_ := []; fulfilled := next_promise e :: fulfilled e;
           next_promise := S (next_promise e); in_Start := true |}, w').
Proof.
  intros [Hs Hq] Hf. unfold Exec, Exec_push. rewrite Hq. simpl.
  unfold Start_step. simpl. rewrite Hs. simpl. rewrite Hf.
  unfold promise_set. simpl. by rewrite Nat.eqb_refl.
Qed.

(** X6: When no thread is in [Start], [Exec] never returns. *)
Lemma Exec_without_Start_blocks (func : option (Func W)) e (w : W) :
  promises_fresh e ->
  in_Start e = false ->
  Exec func e w = Blocked.
Proof.
  intros [Hf _] Hs. unfold Exec.
  destruct (Exec_push func e) as [e2 n] eqn:Hpush.
  unfold Exec_push in Hpush. inversion Hpush; subst; clear Hpush.
  rewrite Start_run_not_in_Start by done.
  destruct (promise_set _ _) eqn:Hset; [|done].
  apply promise_set_In in Hset. simpl in Hset.
  specialize (Hf _ Hset). lia.
Qed.

End ExecutorFacts.

(** C9, the claim as stated fails: on a new executor with a thread in
    [Start], the first [Stop] returns and the second one waits forever. *)
Lemma Stop_twice_counterexample :
  exists e1 : Executor.Executor unit,
    Executor.Stop (Executor.enter_Start Executor.new_Executor) tt = Ok (e1, tt) /\
    Executor.Stop e1 tt = Blocked.
Proof. eexists. split; reflexivity. Qed.

Lemma Stop_after_Stop_blocks_witness :
  promises_fresh (Executor.enter_Start (Executor.new_Executor (W := unit))) /\
  Executor.Stop (Executor.enter_Start Executor.new_Executor) tt
  = Ok (Executor.mkExecutor [] [0%nat] 1%nat false, tt) /\
  Executor.in_Start (Executor.mkExecutor (W := unit) [] [0%nat] 1%nat false) = false /\
  Executor.Stop (Executor.mkExecutor [] [0%nat] 1%nat false) tt = Blocked.
Proof.
  assert (Hfresh : promises_fresh (Executor.enter_Start (Executor.new_Executor (W := unit)))).
  { split; simpl; intros ? []. }
  split; [exact Hfresh|]. split; [reflexivity|].
  destruct (Stop_after_Stop_blocks
              (Executor.enter_Start Executor.new_Executor) tt
              (Executor.mkExecutor [] [0%nat] 1%nat false) tt Hfresh eq_refl)
    as (H1 & H2 & _).
  split; assumption.
Defined.

(** * Facts about doubles *)

Section DoubleFacts.

(** A double that is not above zero, and one that is not below zero and
    not the negative zero (NaN counts for both). *)
Definition le0 (x : double) : Prop :=
  match x with
  | S754_nan | S754_zero _ => True
  | S754_finite s _ _ | S754_infinity s => s = true
  end.

Definition ge0 (x : double) : Prop :=
  match x with
  | S754_nan => True
  | S754_zero s | S754_finite s _ _ | S754_infinity s => s = false
  end.

(** Rounding keeps the sign it is given. *)
Lemma binary_round_aux_sign sx mx ex lx :
  match binary_round_aux Double.prec Double.emax sx mx ex lx with
  | S754_nan => True
  | S754_zero s | S754_finite s _ _ | S754_infinity s => s = sx
  end.
Proof.
  unfold binary_round_aux.
  destruct (shr_fexp _ _ mx ex lx) as [mrs' e'].
  destruct (shr_fexp _ _ _ e' loc_Exact) as [mrs'' e''].
  destruct (shr_m mrs''); try done.
  by destruct (_ <=? _)%Z.
Qed.

Lemma of_Z_le0 z : z <= 0 -> le0 (Double.of_Z z).
Proof.
  intros Hz. unfold Double.of_Z, binary_normalize.
  destruct z as [|q|q]; try done; try lia.
  unfold binary_round. destruct (shl_align _ _ _) as [mz ez].
  pose proof (binary_round_aux_sign true (Zpos mz) ez loc_Exact) as H.
  unfold le0. by destruct (binary_round_aux _ _ _ _ _ _).
Qed.

Lemma of_Z_ge0 z : 0 <= z -> ge0 (Double.of_Z z).
Proof.
  intros Hz. unfold Double.of_Z, binary_normalize.
  destruct z as [|q|q]; try done; try lia.
  unfold binary_round. destruct (shl_align _ _ _) as [mz ez].
  pose proof (binary_round_aux_sign false (Zpos mz) ez loc_Exact) as H.
  unfold ge0. by destruct (binary_round_aux _ _ _ _ _ _).
Qed.

Lemma div_le0 x y : le0 x -> ge0 y -> le0 (Double.div x y).
Proof.
  unfold Double.div, SFdiv.
  destruct x as [sx|sx| |sx mx ex], y as [sy|sy| |sy my ey]; simpl;
    try done; try (by intros -> ->).
  intros -> ->. destruct (SFdiv_core_binary _ _ _ _ _ _) as [[mz ez] lz].
  pose proof (binary_round_aux_sign (xorb true false) mz ez lz) as H.
  by destruct (binary_round_aux _ _ _ _ _ _).
Qed.

Lemma mul_le0 x y : le0 x -> ge0 y -> le0 (Double.mul x y).
Proof.
  unfold Double.mul, SFmul.
  destruct x as [sx|sx| |sx mx ex], y as [sy|sy| |sy my ey]; simpl;
    try done; try (by intros -> ->).
  intros -> ->.
  pose proof (binary_round_aux_sign (xorb true false)
                (Zpos (mx * my)) (ex + ey) loc_Exact) as H.
  by destruct (binary_round_aux _ _ _ _ _ _).
Qed.

Lemma to_int_le0 x v : le0 x -> Double.to_int x = Ok v -> v <= 0.
Proof.
  unfold Double.to_int, Double.Ztrunc.
  destruct x as [s|s| |s m e]; simpl; try done.
  - intros _ H. vm_compute in H. inversion H. lia.
  - intros ->. destruct (in_int _); [|done]. intros H; inversion H; subst.
    simpl. pose proof (Z.shiftl_nonneg (Zpos m) e). lia.
Qed.

End DoubleFacts.

(** * Facts about the arithmetic of doubles *)

Section DoubleArith.

Lemma digits2_pos_size p : digits2_pos p = Pos.size p.
Proof. induction p; simpl; congruence. Qed.

Lemma digits2_bounds p :
  2 ^ (Zpos (digits2_pos p) - 1) <= Zpos p < 2 ^ Zpos (digits2_pos p).
Proof.
  rewrite digits2_pos_size. split.
  - pose proof (Pos.size_le p) as H.
    apply Pos2Z.pos_le_pos in H. rewrite Pos2Z.inj_pow in H.
    replace (Zpos (Pos.size p)) with (Z.succ (Zpos (Pos.size p) - 1)) in H by lia.
    rewrite Z.pow_succ_r in H by lia. lia.
  - pose proof (Pos.size_gt p) as H. apply Pos2Z.pos_lt_pos in H.
    by rewrite Pos2Z.inj_pow in H.
Qed.

(** The number of digits of [p] is the [d] with [2^(d-1) <= p < 2^d]. *)
Lemma digits2_unique p d :
  2 ^ (d - 1) <= Zpos p < 2 ^ d -> Zpos (digits2_pos p) = d.
Proof.
  intros [H1 H2]. pose proof (digits2_bounds p) as [H3 H4].
  assert (0 < d).
  { destruct (Z.lt_ge_cases 0 d) as [|Hd]; [done|].
    rewrite (Z.pow_neg_r 2 (d - 1)) in H1 by lia.
    destruct (Z.eq_dec d 0) as [->|]; [simpl in H2; lia|].
    rewrite Z.pow_neg_r in H2 by lia. lia. }
  assert (Zpos (digits2_pos p) - 1 < d) by (apply (Z.pow_lt_mono_r_iff 2); lia).
  assert (d - 1 < Zpos (digits2_pos p)) by (apply (Z.pow_lt_mono_r_iff 2); lia).
  lia.
Qed.

Lemma iter_xO p d : Zpos (Pos.iter xO p d) = Zpos p * 2 ^ Zpos d.
Proof.
  revert p. induction d using Pos.peano_ind; intros p.
  - simpl. lia.
  - rewrite Pos.iter_succ, Pos2Z.inj_xO, IHd, Pos2Z.inj_succ, Z.pow_succ_r by lia. lia.
Qed.

Lemma iter_pos_nat {A} (f : A -> A) p x :
  SpecFloat.iter_pos f p x = @Nat.iter (Pos.to_nat p) A f x.
Proof.
  revert x. induction p; intros x.
  - change (SpecFloat.iter_pos f p~1 x)
      with (SpecFloat.iter_pos f p (SpecFloat.iter_pos f p (f x))).
    rewrite !IHp, Pos2Nat.inj_xI.
    replace (S (2 * Pos.to_nat p)) with (Pos.to_nat p + (Pos.to_nat p + 1))%nat by lia.
    by rewrite !Nat.iter_add.
  - change (SpecFloat.iter_pos f p~0 x)
      with (SpecFloat.iter_pos f p (SpecFloat.iter_pos f p x)).
    rewrite !IHp, Pos2Nat.inj_xO.
    replace (2 * Pos.to_nat p)%nat with (Pos.to_nat p + Pos.to_nat p)%nat by lia.
    by rewrite Nat.iter_add.
  - reflexivity.
Qed.

(** One step of [shr_1] halves an even mantissa and records nothing. *)
Lemma iter_shr_1_exact (k : nat) : forall m : positive,
  @Nat.iter k _ shr_1 (Build_shr_record (Zpos m * 2 ^ Z.of_nat k) false false)
  = Build_shr_record (Zpos m) false false.
Proof.
  induction k as [|k IH]; intros m.
  - simpl. by rewrite Z.mul_1_r.
  - rewrite Nat.iter_succ_r.
    replace (Zpos m * 2 ^ Z.of_nat (S k)) with (Zpos (m~0) * 2 ^ Z.of_nat k).
    2:{ rewrite Nat2Z.inj_succ, Z.pow_succ_r by lia. lia. }
    rewrite <- (IH m). f_equal.
    assert (H : exists q, Zpos m~0 * 2 ^ Z.of_nat k = Zpos q~0 /\ Zpos m * 2 ^ Z.of_nat k = Zpos q).
    { assert (Hpos : 0 < Zpos m * 2 ^ Z.of_nat k) by (apply Z.mul_pos_pos; lia).
      destruct (Zpos m * 2 ^ Z.of_nat k) as [|q|q] eqn:Hq; try lia.
      exists q. split; [|done]. lia. }
    destruct H as (q & -> & ->). reflexivity.
Qed.

Lemma shr_exact (m : positive) p e :
  0 <= p ->
  shr (Build_shr_record (Zpos m * 2 ^ p) false false) e p
  = (Build_shr_record (Zpos m) false false, e + p).
Proof.
  intros Hp. unfold shr. destruct p as [|q|q]; try lia.
  - by rewrite Z.mul_1_r, Z.add_0_r.
  - rewrite iter_pos_nat. f_equal.
    rewrite <- (positive_nat_Z q). apply iter_shr_1_exact.
Qed.

Lemma Zdigits2_mul_pow2 (m : positive) p d :
  0 <= p -> Zpos (digits2_pos m) = d -> Zdigits2 (Zpos m * 2 ^ p) = d + p.
Proof.
  intros Hp Hd.
  assert (Hpos : 0 < Zpos m * 2 ^ p) by (apply Z.mul_pos_pos; lia).
  destruct (Zpos m * 2 ^ p) as [|q|q] eqn:Hq; try lia.
  simpl. apply digits2_unique. rewrite <- Hq.
  pose proof (digits2_bounds m) as [H1 H2]. rewrite Hd in H1, H2.
  assert (0 < d) by lia.
  replace (d + p - 1) with ((d - 1) + p) by lia.
  rewrite !Z.pow_add_r by lia. nia.
Qed.

(** Rounding a mantissa of 53 digits followed by [p] zero bits is exact. *)
Lemma binary_round_aux_exact sx (m : positive) p e :
  Zpos (digits2_pos m) = 53 ->
  0 <= p ->
  -1074 <= e + p <= 971 ->
  binary_round_aux Double.prec Double.emax sx (Zpos m * 2 ^ p) e loc_Exact
  = S754_finite sx m (e + p).
Proof.
  intros Hd Hp He. unfold binary_round_aux, shr_fexp in *.
  rewrite (Zdigits2_mul_pow2 m p 53) by done.
  assert (Hf : forall x, -1074 <= x - 53 ->
                 fexp Double.prec Double.emax x = x - 53).
  { intros x Hx. unfold fexp, SpecFloat.emin, Double.prec, Double.emax. lia. }
  rewrite Hf by lia. simpl shr_record_of_loc.
  replace (53 + p + e - 53 - e) with p by lia.
  rewrite shr_exact by done. simpl.
  rewrite Hd. rewrite Hf by lia.
  replace (53 + (e + p) - 53 - (e + p)) with 0 by lia. simpl.
  assert (Hle : (e + p <=? Double.emax - Double.prec) = true).
  { apply Z.leb_le. unfold Double.emax, Double.prec. lia. }
  by rewrite Hle.
Qed.

(** [binary_round] yields the float of 53 digits that has the value
    [mx * 2^ex], when there is one. *)
Lemma binary_round_canonical sx mx ex (m : positive) e :
  Zpos (digits2_pos m) = 53 ->
  -1074 <= e <= 971 ->
  (e <= ex /\ Zpos m = Zpos mx * 2 ^ (ex - e)) \/
  (ex <= e /\ Zpos mx = Zpos m * 2 ^ (e - ex)) ->
  binary_round Double.prec Double.emax sx mx ex = S754_finite sx m e.
Proof.
  intros Hd He H. unfold binary_round in *.
  assert (Hf : forall x, -1074 <= x - 53 ->
                 fexp Double.prec Double.emax x = x - 53).
  { intros x Hx. unfold fexp, SpecFloat.emin, Double.prec, Double.emax. lia. }
  pose proof (digits2_bounds m) as [H1 H2]. rewrite Hd in H1, H2.
  change (2 ^ (53 - 1)) with (2 ^ 52) in H1.
  destruct H as [[Hle Heq]|[Hle Heq]].
  - assert (Hg : ex - e < 53).
    { destruct (Z.lt_ge_cases (ex - e) 53) as [|Hge]; [done|].
      assert (2 ^ 53 <= 2 ^ (ex - e)) by (apply Z.pow_le_mono_r; lia). nia. }
    assert (Hdx : Zpos (digits2_pos mx) = 53 - (ex - e)).
    { apply digits2_unique.
      assert (E1 : 2 ^ 52 = 2 ^ (53 - (ex - e) - 1) * 2 ^ (ex - e)).
      { rewrite <- Z.pow_add_r by lia. f_equal. lia. }
      assert (E2 : 2 ^ 53 = 2 ^ (53 - (ex - e)) * 2 ^ (ex - e)).
      { rewrite <- Z.pow_add_r by lia. f_equal. lia. }
      assert (0 < 2 ^ (ex - e)) by (apply Z.pow_pos_nonneg; lia).
      nia. }
    rewrite Hdx, Hf by lia.
    replace (53 - (ex - e) + ex - 53) with e by lia.
    unfold shl_align. destruct (e - ex) as [|q|q] eqn:Hq; try lia.
    + replace (ex - e) with 0 in Heq by lia. rewrite Z.mul_1_r in Heq.
      inversion Heq; subst. replace ex with e by lia.
      rewrite <- (Z.mul_1_r (Zpos mx)). change 1 with (2 ^ 0).
      rewrite binary_round_aux_exact by (lia || done).
      by rewrite Z.add_0_r.
    + assert (Hm : Pos.iter xO mx q = m).
      { apply Pos2Z.inj. rewrite iter_xO, Heq. f_equal. f_equal. lia. }
      rewrite Hm. rewrite <- (Z.mul_1_r (Zpos m)). change 1 with (2 ^ 0).
      rewrite binary_round_aux_exact by (lia || done).
      by rewrite Z.add_0_r.
  - assert (Hdx : Zpos (digits2_pos mx) = 53 + (e - ex)).
    { apply digits2_unique. rewrite Heq.
      replace (53 + (e - ex) - 1) with (52 + (e - ex)) by lia.
      rewrite !Z.pow_add_r by lia.
      assert (0 < 2 ^ (e - ex)) by (apply Z.pow_pos_nonneg; lia). nia. }
    rewrite Hdx, Hf by lia.
    replace (53 + (e - ex) + ex - 53) with e by lia.
    unfold shl_align. destruct (e - ex) as [|q|q] eqn:Hq; try lia.
    + rewrite Heq. replace ex with e by lia.
      rewrite binary_round_aux_exact by (lia || done).
      by rewrite Z.add_0_r.
    + rewrite Heq. rewrite binary_round_aux_exact by (lia || done).
      f_equal. lia.
Qed.

(** The double of a positive integer below [2^53]: its value is the
    integer. *)
Lemma of_Z_canonical n :
  0 < n < 2 ^ 53 ->
  exists m e,
    Double.of_Z n = S754_finite false m e /\
    Zpos (digits2_pos m) = 53 /\ e = Z.log2 n - 52 /\
    Zpos m = n * 2 ^ (- e).
Proof.
  intros [Hn1 Hn2]. destruct n as [|mx|mx]; try lia.
  pose proof (Z.log2_spec (Zpos mx) Hn1) as [Hl1 Hl2].
  assert (Hl0 : 0 <= Z.log2 (Zpos mx)) by apply Z.log2_nonneg.
  assert (Hl : Z.log2 (Zpos mx) < 53).
  { apply Z.log2_lt_pow2; lia. }
  set (e := Z.log2 (Zpos mx) - 52).
  assert (Hpos : 0 < Zpos mx * 2 ^ (- e)).
  { apply Z.mul_pos_pos; [lia|]. apply Z.pow_pos_nonneg; lia. }
  destruct (Zpos mx * 2 ^ (- e)) as [|m|m] eqn:Hm; try lia.
  assert (Hd : Zpos (digits2_pos m) = 53).
  { apply digits2_unique. rewrite <- Hm.
    change (53 - 1) with 52.
    assert (E1 : 2 ^ 52 = 2 ^ Z.log2 (Zpos mx) * 2 ^ (- e)).
    { rewrite <- Z.pow_add_r by lia. f_equal. lia. }
    assert (E2 : 2 ^ 53 = 2 ^ Z.succ (Z.log2 (Zpos mx)) * 2 ^ (- e)).
    { rewrite <- Z.pow_add_r by lia. f_equal. lia. }
    assert (0 < 2 ^ (- e)) by (apply Z.pow_pos_nonneg; lia).
    nia. }
  exists m, e. repeat split; try done.
  unfold Double.of_Z, binary_normalize.
  apply binary_round_canonical; [done | lia |].
  left. split; [lia|]. rewrite <- Hm. by replace (0 - e) with (- e) by lia.
Qed.

(** Converting an [int] that is not negative to double and back gives the
    integer. *)
Lemma shiftl_neg a e : e <= 0 -> Z.shiftl a e = a / 2 ^ (- e).
Proof.
  intros He. rewrite <- (Z.opp_involutive e) at 1.
  rewrite Z.shiftl_opp_r. apply Z.shiftr_div_pow2. lia.
Qed.

(** Converting an [int] that is not negative to double and back gives the
    integer. *)
Lemma to_int_of_Z z : 0 <= z <= INT_MAX -> Double.to_int (Double.of_Z z) = Ok z.
Proof.
  intros Hz. destruct (Z.eq_dec z 0) as [->|Hne]; [reflexivity|].
  destruct (of_Z_canonical z) as (m & e & -> & Hd & He & Hm).
  { unfold INT_MAX in Hz. lia. }
  assert (Hl0 : 0 <= Z.log2 z) by apply Z.log2_nonneg.
  assert (Hl : Z.log2 z < 53).
  { apply Z.log2_lt_pow2; unfold INT_MAX in Hz; lia. }
  unfold Double.to_int, Double.Ztrunc. simpl cond_Zopp.
  rewrite shiftl_neg by lia. rewrite Hm.
  rewrite Z.div_mul by (apply Z.pow_nonzero; lia).
  unfold in_int, INT_MIN, INT_MAX in *.
  destruct (_ <=? z) eqn:H1; [|apply Z.leb_gt in H1; lia].
  destruct (z <=? _) eqn:H2; [|apply Z.leb_gt in H2; lia].
  reflexivity.
Qed.

(** [std::floor] of a double that is not negative. *)
Lemma floor_finite m e :
  Double.floor (S754_finite false m e) = Double.of_Z (Z.shiftl (Zpos m) e).
Proof. reflexivity. Qed.

(** Halving a double of 53 digits lowers its exponent by one. *)
Lemma div_two (m : positive) e :
  Zpos (digits2_pos m) = 53 ->
  -1072 <= e <= 971 ->
  Double.div (S754_finite false m e) (Double.of_Z 2) = S754_finite false m (e - 1).
Proof.
  intros Hd He.
  change (Double.of_Z 2) with (S754_finite false (2 ^ 52)%positive (-51)).
  unfold Double.div, SFdiv, SFdiv_core_binary.
  change (Zdigits2 (Zpos m)) with (Zpos (digits2_pos m)). rewrite Hd.
  change (Zdigits2 (Zpos (2 ^ 52)%positive)) with 53.
  assert (Hf : fexp Double.prec Double.emax (53 + e - (53 + -51)) = e - 2).
  { unfold fexp, SpecFloat.emin, Double.prec, Double.emax. lia. }
  rewrite Hf. replace (Z.min (e - 2) (e - -51)) with (e - 2) by lia.
  replace (e - -51 - (e - 2)) with 53 by lia.
  assert (Hq : Z.div_eucl (Z.shiftl (Zpos m) 53) (Zpos (2 ^ 52)%positive)
               = (Zpos m * 2 ^ 1, 0)).
  { rewrite Z.shiftl_mul_pow2 by lia.
    pose proof (Z.div_eucl_eq (Zpos m * 2 ^ 53) (Zpos (2 ^ 52)%positive) ltac:(lia)) as H.
    pose proof (Z.mod_pos_bound (Zpos m * 2 ^ 53) (Zpos (2 ^ 52)%positive) ltac:(lia)) as Hb.
    unfold Z.modulo in Hb.
    destruct (Z.div_eucl _ _) as [q r]. f_equal.
    - change (Zpos (2 ^ 52)%positive) with (2 ^ 52) in *. change (2 ^ 53) with (2 ^ 52 * 2) in H. nia.
    - change (Zpos (2 ^ 52)%positive) with (2 ^ 52) in *. change (2 ^ 53) with (2 ^ 52 * 2) in H. nia. }
  rewrite Hq. change (new_location (Zpos (2 ^ 52)%positive) 0) with loc_Exact.
  change (xorb false false) with false.
  rewrite binary_round_aux_exact by (lia || done).
  f_equal. lia.
Qed.

Lemma fexp_double x :
  -1074 <= x - 53 -> fexp Double.prec Double.emax x = x - 53.
Proof. intros Hx. unfold fexp, SpecFloat.emin, Double.prec, Double.emax. lia. Qed.

(** A mantissa of 53 digits whose discarded part is below one half is
    kept. *)
Lemma binary_round_aux_53 (q : positive) e l :
  Zpos (digits2_pos q) = 53 ->
  -1074 <= e <= 971 ->
  l = loc_Exact \/ l = loc_Inexact Lt ->
  binary_round_aux Double.prec Double.emax false (Zpos q) e l
  = S754_finite false q e.
Proof.
  intros Hd He Hl. unfold binary_round_aux, shr_fexp in *.
  change (Zdigits2 (Zpos q)) with (Zpos (digits2_pos q)).
  rewrite Hd, fexp_double by lia.
  replace (53 + e - 53 - e) with 0 by lia.
  assert (Hle : (e <=? Double.emax - Double.prec) = true).
  { apply Z.leb_le. unfold Double.emax, Double.prec. lia. }
  destruct Hl as [-> | ->]; simpl;
    rewrite Hd, fexp_double by lia;
    replace (53 + e - 53 - e) with 0 by lia; simpl; by rewrite Hle.
Qed.

(** A mantissa of 53 digits whose discarded part is above one half is
    raised by one. *)
Lemma binary_round_aux_53_up (q : positive) e :
  Zpos (digits2_pos q) = 53 ->
  Zpos q + 1 < 2 ^ 53 ->
  -1074 <= e <= 971 ->
  binary_round_aux Double.prec Double.emax false (Zpos q) e (loc_Inexact Gt)
  = S754_finite false (q + 1) e.
Proof.
  intros Hd Hq He. unfold binary_round_aux, shr_fexp in *.
  change (Zdigits2 (Zpos q)) with (Zpos (digits2_pos q)).
  rewrite Hd, fexp_double by lia.
  replace (53 + e - 53 - e) with 0 by lia.
  assert (Hle : (e <=? Double.emax - Double.prec) = true).
  { apply Z.leb_le. unfold Double.emax, Double.prec. lia. }
  assert (Hd' : Zpos (digits2_pos (q + 1)) = 53).
  { apply digits2_unique. pose proof (digits2_bounds q) as [H1 _].
    rewrite Hd in H1. lia. }
  simpl. rewrite Hd', fexp_double by lia.
  replace (53 + e - 53 - e) with 0 by lia. simpl. by rewrite Hle.
Qed.

(** [binary_round] of the value [d * 2^E] with [d < 2^53]: the mantissa is
    [d] moved up to 53 digits. *)
Lemma binary_round_value sx (mx d : positive) ex E :
  Zpos d < 2 ^ 53 ->
  ex <= E -> -1022 <= E <= 971 ->
  Zpos mx = Zpos d * 2 ^ (E - ex) ->
  exists m k,
    binary_round Double.prec Double.emax sx mx ex = S754_finite sx m (E - k) /\
    Zpos (digits2_pos m) = 53 /\ 0 <= k <= 52 /\ Zpos m = Zpos d * 2 ^ k.
Proof.
  intros Hd Hex HE Hmx.
  pose proof (Z.log2_spec (Zpos d) ltac:(lia)) as [Hl1 Hl2].
  assert (Hl0 : 0 <= Z.log2 (Zpos d)) by apply Z.log2_nonneg.
  assert (Hl : Z.log2 (Zpos d) < 53) by (apply Z.log2_lt_pow2; lia).
  set (k := 52 - Z.log2 (Zpos d)).
  assert (Hpos : 0 < Zpos d * 2 ^ k).
  { apply Z.mul_pos_pos; [lia|]. apply Z.pow_pos_nonneg; lia. }
  destruct (Zpos d * 2 ^ k) as [|m|m] eqn:Hm; try lia.
  assert (Hdm : Zpos (digits2_pos m) = 53).
  { apply digits2_unique. rewrite <- Hm. change (53 - 1) with 52.
    assert (E1 : 2 ^ 52 = 2 ^ Z.log2 (Zpos d) * 2 ^ k).
    { rewrite <- Z.pow_add_r by lia. f_equal. lia. }
    assert (E2 : 2 ^ 53 = 2 ^ Z.succ (Z.log2 (Zpos d)) * 2 ^ k).
    { rewrite <- Z.pow_add_r by lia. f_equal. lia. }
    assert (0 < 2 ^ k) by (apply Z.pow_pos_nonneg; lia).
    nia. }
  exists m, k. repeat split; try done; try lia.
  apply binary_round_canonical; [done | lia |].
  destruct (Z.le_ge_cases (E - k) ex) as [Hc|Hc].
  - left. split; [done|]. rewrite Hmx, <- Hm, <- Z.mul_assoc, <- Z.pow_add_r by lia.
    f_equal. f_equal. lia.
  - right. split; [done|]. rewrite Hmx, <- Hm, <- Z.mul_assoc, <- Z.pow_add_r by lia.
    f_equal. f_equal. lia.
Qed.

Lemma SFsqrt_core_binary_53 (m : positive) e :
  Zpos (digits2_pos m) = 53 ->
  -1000 <= e <= 900 ->
  SFsqrt_core_binary Double.prec Double.emax (Zpos m) e =
  let e' := Z.div2 e - 26 in
  let (q, r) := Z.sqrtrem (Zpos m * 2 ^ (e - 2 * e')) in
  (q, e', if r =? 0 then loc_Exact
          else loc_Inexact (if r <=? q then Lt else Gt)).
Proof.
  intros Hd He. unfold SFsqrt_core_binary.
  change (Zdigits2 (Zpos m)) with (Zpos (digits2_pos m)). rewrite Hd.
  assert (Hh : Z.div2 (53 + e + 1) = Z.div2 e + 27).
  { rewrite !Z.div2_div. Z.to_euclidean_division_equations. lia. }
  assert (Hb : -500 <= Z.div2 e <= 450).
  { rewrite !Z.div2_div. Z.to_euclidean_division_equations. lia. }
  assert (Hs : 52 <= e - 2 * (Z.div2 e - 26) <= 53).
  { rewrite !Z.div2_div. Z.to_euclidean_division_equations. lia. }
  rewrite Hh, fexp_double by lia.
  replace (Z.min (Z.div2 e + 27 - 53) (Z.div2 e)) with (Z.div2 e - 26) by lia.
  cbv zeta.
  destruct (e - 2 * (Z.div2 e - 26)) as [|p|p] eqn:Hp; try lia.
  by rewrite Z.shiftl_mul_pow2 by lia.
Qed.

(** When the square root of a multiple of [T^2] is rounded up, it stays
    below the next multiple of [T]. *)
Lemma sqrt_round_up_below T a n q r :
  0 < T -> 0 <= a <= T -> 0 <= n ->
  n < a * a ->
  n * (T * T) = q * q + r -> 0 <= q -> 0 <= r <= 2 * q -> q < r ->
  q + 1 < a * T.
Proof.
  intros HT Ha Hn Hna Hqr Hq Hr Hlt.
  assert (H1 : n + 1 <= a * a) by lia.
  assert (H2 : (n + 1) * (T * T) <= (a * T) * (a * T)) by nia.
  assert (H3 : a * T <= T * T) by nia.
  destruct (Z.lt_ge_cases (q + 1) (a * T)) as [|Hge]; [done|].
  assert (H4 : (a * T) * (a * T) <= (q + 1) * (q + 1)) by nia.
  nia.
Qed.

Lemma sq_lt a b : 0 <= b -> a * a < b * b -> a < b.
Proof. intros Hb H. nia. Qed.

Lemma sq_scale a T n : 0 <= T -> a * a <= n -> (a * T) * (a * T) <= n * (T * T).
Proof.
  intros HT H. replace (a * T * (a * T)) with ((a * a) * (T * T)) by ring.
  apply Z.mul_le_mono_nonneg_r; [nia|done].
Qed.

Lemma sq_scale_lt a T n : 0 < T -> n < a * a -> n * (T * T) < (a * T) * (a * T).
Proof.
  intros HT H. replace (a * T * (a * T)) with ((a * a) * (T * T)) by ring.
  apply Z.mul_lt_mono_pos_r; [nia|done].
Qed.

(** The double square root of an [int] [n] with
    [(2j+1)^2 <= n < (2j+3)^2] lies in [[2j+1, 2j+3)]: rounding does not
    reach the next odd number. *)
Lemma sqrt_of_Z n j :
  1 <= n < 2 ^ 31 -> 0 <= j ->
  (2 * j + 1) * (2 * j + 1) <= n < (2 * j + 3) * (2 * j + 3) ->
  exists Q e,
    Double.sqrt (Double.of_Z n) = S754_finite false Q e /\
    Zpos (digits2_pos Q) = 53 /\ -52 <= e <= -37 /\
    (2 * j + 1) * 2 ^ (- e) <= Zpos Q < (2 * j + 3) * 2 ^ (- e).
Proof.
  intros Hn Hj Hjn.
  destruct (of_Z_canonical n) as (m & e & -> & Hd & He & Hm); [lia|].
  assert (Hl0 : 0 <= Z.log2 n) by apply Z.log2_nonneg.
  assert (Hl : Z.log2 n < 31) by (apply Z.log2_lt_pow2; lia).
  unfold Double.sqrt, SFsqrt.
  rewrite SFsqrt_core_binary_53 by lia. cbv zeta.
  assert (Hh : -26 <= Z.div2 e <= -11 /\ 52 <= e - 2 * (Z.div2 e - 26) <= 53).
  { rewrite !Z.div2_div. Z.to_euclidean_division_equations. lia. }
  set (e' := Z.div2 e - 26) in *. destruct Hh as [Hh Hs].
  set (T := 2 ^ (- e')).
  assert (HT : 2 ^ 37 <= T).
  { unfold T. apply Z.pow_le_mono_r; lia. }
  assert (HT' : T <= 2 ^ 52).
  { unfold T. apply Z.pow_le_mono_r; lia. }
  assert (HT0 : 0 < T) by lia.
  assert (Hm' : Zpos m * 2 ^ (e - 2 * e') = n * (T * T)).
  { rewrite Hm. unfold T. rewrite <- Z.mul_assoc, <- !Z.pow_add_r by lia.
    f_equal. f_equal. lia. }
  pose proof (digits2_bounds m) as [Hm1 Hm2]. rewrite Hd in Hm1, Hm2.
  change (2 ^ (53 - 1)) with (2 ^ 52) in Hm1.
  assert (Hr1 : 2 ^ 52 * 2 ^ 52 <= Zpos m * 2 ^ (e - 2 * e') < 2 ^ 53 * 2 ^ 53).
  { assert (2 ^ 52 <= 2 ^ (e - 2 * e')) by (apply Z.pow_le_mono_r; lia).
    assert (2 ^ (e - 2 * e') <= 2 ^ 53) by (apply Z.pow_le_mono_r; lia).
    split.
    - apply Z.mul_le_mono_nonneg; lia.
    - apply Z.le_lt_trans with (Zpos m * 2 ^ 53);
        [apply Z.mul_le_mono_nonneg_l; lia | apply Z.mul_lt_mono_pos_r; lia]. }
  pose proof (Z.sqrtrem_spec (Zpos m * 2 ^ (e - 2 * e')) ltac:(lia)) as Hsp.
  rewrite Hm' in *.
  destruct (Z.sqrtrem (n * (T * T))) as [q r]. destruct Hsp as [Hqr Hr].
  assert (Hq0 : 0 <= q) by lia.
  assert (Hqq : q * q <= n * (T * T) < (q + 1) * (q + 1)) by lia.
  assert (Hq : 2 ^ 52 <= q < 2 ^ 53).
  { assert (2 ^ 52 < q + 1) by (apply sq_lt; lia).
    assert (q < 2 ^ 53) by (apply sq_lt; lia). lia. }
  destruct q as [|q|q]; try lia.
  assert (Hdq : Zpos (digits2_pos q) = 53) by (by apply digits2_unique).
  pose proof (sq_scale (2 * j + 1) T n ltac:(lia) ltac:(lia)) as Hs1.
  pose proof (sq_scale_lt (2 * j + 3) T n ltac:(lia) ltac:(lia)) as Hs2.
  assert (Hlo : (2 * j + 1) * T <= Zpos q).
  { assert ((2 * j + 1) * T < Zpos q + 1) by (apply sq_lt; lia). lia. }
  assert (Hhi : Zpos q < (2 * j + 3) * T).
  { apply sq_lt; [|lia]. apply Z.mul_nonneg_nonneg; lia. }
  assert (Hj3 : 2 * j + 3 <= T).
  { assert (2 * j + 1 < 2 ^ 16).
    { apply sq_lt; [lia|]. change (2 ^ 16 * 2 ^ 16) with (2 ^ 32).
      change (2 ^ 31) with 2147483648 in Hn. change (2 ^ 32) with 4294967296. lia. }
    change (2 ^ 16) with 65536 in *. change (2 ^ 37) with 137438953472 in HT. lia. }
  destruct (r =? 0) eqn:Hr0; [|destruct (r <=? Zpos q) eqn:Hrq].
  - exists q, e'. rewrite binary_round_aux_53 by (lia || auto).
    repeat split; [done|lia|lia|done|done].
  - exists q, e'. rewrite binary_round_aux_53 by (lia || auto).
    repeat split; [done|lia|lia|done|done].
  - apply Z.leb_gt in Hrq.
    assert (Hup : Zpos q + 1 < (2 * j + 3) * T).
    { apply (sqrt_round_up_below T (2 * j + 3) n (Zpos q) r); lia. }
    assert (Hup2 : Zpos q + 1 < 2 ^ 53).
    { assert (Hp : 2 ^ 53 = 2 ^ (53 + e') * T).
      { unfold T. rewrite <- Z.pow_add_r by lia. f_equal. lia. }
      assert (Hp1 : 2 ^ (53 + e') <= T).
      { unfold T. apply Z.pow_le_mono_r; lia. }
      assert (Hp0 : 0 < 2 ^ (53 + e')) by (apply Z.pow_pos_nonneg; lia).
      rewrite Hp. rewrite Hp in Hr1.
      set (a := 2 ^ (53 + e')) in *.
      apply (sqrt_round_up_below T a n (Zpos q) r); try lia.
      apply (Z.mul_lt_mono_pos_r (T * T)); [nia|].
      replace (a * a * (T * T)) with (a * T * (a * T)) by ring. lia. }
    exists (q + 1)%positive, e'.
    rewrite binary_round_aux_53_up by (lia || auto).
    repeat split; [apply digits2_unique; lia|lia|lia|lia|lia].
Qed.

Lemma shl_align_fst mx ex ex' :
  ex' <= ex -> Zpos (fst (shl_align mx ex ex')) = Zpos mx * 2 ^ (ex - ex').
Proof.
  intros H. unfold shl_align.
  destruct (ex' - ex) as [|d|d] eqn:Hd; try lia; simpl.
  - replace (ex - ex') with 0 by lia. lia.
  - rewrite iter_xO. f_equal. f_equal. lia.
Qed.

(** [std::floor((x - 1) / 2)] of a double [x] in [[2j+1, 2j+3)] is [j]. *)
Lemma floor_half_pred (Q : positive) e j :
  Zpos (digits2_pos Q) = 53 -> -52 <= e <= -37 -> 0 <= j ->
  (2 * j + 1) * 2 ^ (- e) <= Zpos Q < (2 * j + 3) * 2 ^ (- e) ->
  Double.floor
    (Double.div (Double.sub (S754_finite false Q e) (Double.of_Z 1))
                (Double.of_Z 2))
  = Double.of_Z j.
Proof.
  intros Hd He Hj HQ.
  change (Double.of_Z 1) with (S754_finite false (2 ^ 52)%positive (-52)).
  unfold Double.sub, SFsub.
  replace (Z.min e (-52)) with (-52) by lia.
  rewrite shl_align_fst by lia.
  change (Zpos (fst (shl_align (2 ^ 52) (-52) (-52)))) with (2 ^ 52).
  simpl cond_Zopp.
  set (T := 2 ^ (- e)) in *.
  assert (HT0 : 0 < T) by (apply Z.pow_pos_nonneg; lia).
  assert (HT : 2 ^ 52 = T * 2 ^ (e - -52)).
  { unfold T. rewrite <- Z.pow_add_r by lia. f_equal. lia. }
  assert (HP : 0 < 2 ^ (e - -52)) by (apply Z.pow_pos_nonneg; lia).
  assert (HD : Zpos Q * 2 ^ (e - -52) - 2 ^ 52 = (Zpos Q - T) * 2 ^ (e - -52)).
  { rewrite HT. ring. }
  rewrite HD.
  pose proof (digits2_bounds Q) as [_ HQ53]. rewrite Hd in HQ53.
  destruct (Zpos Q - T) as [|d|d] eqn:Hd0; [| |nia].
  - assert (j = 0) by nia. subst j. reflexivity.
  - assert (Hpos : 0 < Zpos d * 2 ^ (e - -52)) by nia.
    destruct (Zpos d * 2 ^ (e - -52)) as [|mx|mx] eqn:Hmx; try lia.
    unfold binary_normalize.
    destruct (binary_round_value false mx d (-52) e) as (m & k & -> & Hdm & Hk & Hm);
      [lia | lia | lia | done |].
    rewrite div_two by (lia || done).
    rewrite floor_finite. f_equal.
    rewrite shiftl_neg by lia. rewrite Hm.
    replace (2 ^ (- (e - k - 1))) with ((2 * T) * 2 ^ k).
    2:{ unfold T. replace (- (e - k - 1)) with (1 + - e + k) by lia.
        rewrite !Z.pow_add_r by lia. reflexivity. }
    assert (0 < 2 ^ k) by (apply Z.pow_pos_nonneg; lia).
    rewrite Z.div_mul_cancel_r by lia.
    symmetry. apply Z.div_unique with (r := Zpos d - 2 * T * j); nia.
Qed.

(** The root that [DepairDataHandleType] computes in doubles is the
    integer [j] with [(2j+1)^2 <= 8 cmd + 1 < (2j+3)^2], as long as
    [8 * cmd + 1] is an [int]. *)
Lemma Depair_root_exact cmd j :
  0 <= cmd -> 8 * cmd + 1 <= INT_MAX -> 0 <= j ->
  (2 * j + 1) * (2 * j + 1) <= 8 * cmd + 1 < (2 * j + 3) * (2 * j + 3) ->
  Double.to_int (Depair_root cmd) = Ok j.
Proof.
  intros Hc Hmax Hj Hjn. unfold Depair_root, int_add, int_mul.
  unfold INT_MAX in Hmax.
  rewrite (wrap_int_id (8 * cmd)) by (unfold INT_MIN, INT_MAX; lia).
  rewrite wrap_int_id by (unfold INT_MIN, INT_MAX; lia).
  destruct (sqrt_of_Z (8 * cmd + 1) j) as (Q & e & -> & Hd & He & HQ);
    [lia | done | done |].
  rewrite (floor_half_pred Q e j) by done.
  apply to_int_of_Z. unfold INT_MAX. nia.
Qed.

End DoubleArith.

(** * Facts about model distribution *)

Section ModelDistributionFacts.
Import ModelDistribution.

Variable UNKNOWN : Z.
Variable QUIT : Z.
Variable my_node_id : Z.
Variable clock_den : Z.

#[local] Abbreviation bandwidth := (bandwidth clock_den).
#[local] Abbreviation distribute := (distribute QUIT my_node_id clock_den).
#[local] Abbreviation ModelDistribution :=
  (ModelDistribution UNKNOWN QUIT my_node_id clock_den).
#[local] Abbreviation turns := (turns QUIT).

(** When the reply does not come before the send, the value is never
    above zero. *)
Lemma bandwidth_not_positive startTime endTime bw :
  0 < clock_den ->
  startTime <= endTime < startTime + 2 ^ 63 ->
  bandwidth startTime endTime = Ok bw ->
  bw <= 0.
Proof.
  intros Hden Hle. unfold ModelDistribution.bandwidth, diff_count.
  rewrite wrap_int64_id by lia.
  apply to_int_le0, mul_le0; [apply div_le0|].
  - apply of_Z_le0. lia.
  - apply of_Z_ge0. lia.
  - apply of_Z_ge0. lia.
Qed.

(** The calls of the loop to [GetModelReceiver]: the first one carries the
    values the loop starts with, and the call after a turn carries the
    bandwidth computed in that turn and the receiver of that turn. *)
Lemma distribute_oracle_calls reqMeta kvs it rounds :
  forall lastBandwidth lastReceiver l,
    distribute rounds reqMeta kvs it lastBandwidth lastReceiver = Ok l ->
    oracle_calls l !! 0%nat = Some (lastBandwidth, lastReceiver, it) /\
    forall i r, turns rounds !! i = Some r ->
      exists bw, bandwidth (startTime r) (endTime r) = Ok bw /\
                 oracle_calls l !! S i = Some (bw, receiver r, it).
Proof.
  induction rounds as [|r0 rest IH]; intros b0 r0' l Hl; simpl in Hl.
  - inversion Hl; subst. split; [done|]. intros i r Hi. by destruct i.
  - simpl. destruct (receiver r0 =? QUIT) eqn:Hq.
    + inversion Hl; subst. split; [done|]. intros i r Hi. by destruct i.
    + destruct (ModelDistribution.bandwidth clock_den (startTime r0) (endTime r0))
        as [bw| | |] eqn:Hbw; try done.
      destruct (ModelDistribution.distribute QUIT my_node_id clock_den rest reqMeta kvs it bw (receiver r0))
        as [more| | |] eqn:Hmore; try done.
      inversion Hl; subst; clear Hl. simpl.
      destruct (IH _ _ _ Hmore) as [H0 Hi].
      split; [done|]. intros [|i] r Hr; simpl in *.
      * inversion Hr; subst. eauto.
      * by apply Hi.
Qed.

(** C1 (as amended): after every send/reply round trip, the bandwidth
    passed to [GetModelReceiver] in the next turn is
    [int(diff.count() * 1000000)] for [diff = startTime - endTime] in
    seconds, together with that turn's receiver and the iteration; when the
    reply does not come before the send this value is never above zero (it
    is zero, not negative, when the product truncates to zero). *)
Theorem ModelDistribution_bandwidth reqMeta kvs rounds iteration_ it l :
  0 < clock_den ->
  ModelDistribution reqMeta kvs rounds iteration_ = Ok (it, l) ->
  it = int_add iteration_ 1 /\
  oracle_calls l !! 0%nat = Some (UNKNOWN, UNKNOWN, it) /\
  forall i r, turns rounds !! i = Some r ->
    exists bw,
      bandwidth (startTime r) (endTime r) = Ok bw /\
      oracle_calls l !! S i = Some (bw, receiver r, it) /\
      (startTime r <= endTime r < startTime r + 2 ^ 63 -> bw <= 0).
Proof.
  intros Hden. unfold ModelDistribution.ModelDistribution.
  destruct (ModelDistribution.distribute _ _ _ _ _ _ _ _ _) as [l'| | |] eqn:Hd; try done.
  intros H; inversion H; subst; clear H.
  destruct (distribute_oracle_calls _ _ _ _ _ _ _ Hd) as [H0 Hi].
  repeat split; try done.
  intros i r Hr. destruct (Hi i r Hr) as (bw & Hbw & Hcall).
  exists bw. repeat split; try done.
  intros Hle. by eapply bandwidth_not_positive.
Qed.

End ModelDistributionFacts.

(** C1, the claim as stated fails: with a nanosecond clock, a reply that
    arrives 500 ticks after the send gives the bandwidth 0, which is
    passed to the next call of [GetModelReceiver]; it is not negative. *)
Lemma ModelDistribution_bandwidth_counterexample :
  0 < 500 /\
  ModelDistribution.bandwidth 1000000000 0 500 = Ok 0 /\
  exists l,
    ModelDistribution.ModelDistribution (-1) (-2) 8 1000000000
      (mkKVMeta 0 true false 9 0 7 1 0 0) (mkKVPairs [7] [] [0])
      [ModelDistribution.mkRound 10 0 500] 0 = Ok (1, l) /\
    ModelDistribution.oracle_calls l !! 1%nat = Some (0, 10, 1).
Proof.
  split; [lia|]. split; [vm_compute; reflexivity|].
  eexists. split; vm_compute; reflexivity.
Qed.

Lemma ModelDistribution_bandwidth_witness :
  0 < 1000000000 /\
  ModelDistribution.ModelDistribution (-1) (-2) 8 1000000000
    (mkKVMeta 0 true false 9 0 7 1 0 0) (mkKVPairs [7] [] [0])
    [ModelDistribution.mkRound 10 0 1500; ModelDistribution.mkRound (-2) 0 0] 0
  = Ok (1, [ModelDistribution.GetModelReceiver (-1) (-1) 1;
            ModelDistribution.Send
              (ModelDistribution.mkMessage 8 0 7 1 10 (mkKVPairs [7] [] [0]));
            ModelDistribution.WaitForModelDistributionReply;
            ModelDistribution.GetModelReceiver (-1) 10 1]) /\
  ModelDistribution.oracle_calls
    [ModelDistribution.GetModelReceiver (-1) (-1) 1;
     ModelDistribution.Send
       (ModelDistribution.mkMessage 8 0 7 1 10 (mkKVPairs [7] [] [0]));
     ModelDistribution.WaitForModelDistributionReply;
     ModelDistribution.GetModelReceiver (-1) 10 1] !! 0%nat = Some (-1, -1, 1).
Proof.
  assert (Hden : 0 < 1000000000) by lia.
  split; [exact Hden|].
  assert (Hrun : ModelDistribution.ModelDistribution (-1) (-2) 8 1000000000
    (mkKVMeta 0 true false 9 0 7 1 0 0) (mkKVPairs [7] [] [0])
    [ModelDistribution.mkRound 10 0 1500; ModelDistribution.mkRound (-2) 0 0] 0
  = Ok (1, [ModelDistribution.GetModelReceiver (-1) (-1) 1;
            ModelDistribution.Send
              (ModelDistribution.mkMessage 8 0 7 1 10 (mkKVPairs [7] [] [0]));
            ModelDistribution.WaitForModelDistributionReply;
            ModelDistribution.GetModelReceiver (-1) 10 1])) by (vm_compute; reflexivity).
  split; [exact Hrun|].
  destruct (ModelDistribution_bandwidth (-1) (-2) 8 1000000000 _ _ _ _ _ _ Hden Hrun)
    as (_ & H0 & _).
  exact H0.
Defined.

(** * Facts about the handlers *)

Section MonadFacts.
Context {GC : Type}.
Implicit Type s : KVStoreDistServer GC.

Lemma bind_Ok {A B} (m : M GC A) (k : A -> M GC B) s r :
  bind m k s = Ok r <-> exists a s1, m s = Ok (a, s1) /\ k a s1 = Ok r.
Proof.
  unfold bind. split.
  - destruct (m s) as [[a s1]| | |]; try done. eauto.
  - intros (a & s1 & -> & H). done.
Qed.

Lemma bind_Fatal_l {A B} (m : M GC A) (k : A -> M GC B) s c :
  m s = Fatal c -> bind m k s = Fatal c.
Proof. unfold bind. by intros ->. Qed.

Lemma bind_Ok_l {A B} (m : M GC A) (k : A -> M GC B) s a s1 :
  m s = Ok (a, s1) -> bind m k s = k a s1.
Proof. unfold bind. by intros ->. Qed.

(** A computation that only adds calls: the executor and every field
    other than [calls] are as before, and [calls] has grown. *)
Definition only_calls s s' : Prop :=
  exec_ s' = exec_ s /\
  exists l, fields s' = set_calls (calls (fields s) ++ l) (fields s).

Lemma only_calls_refl s : only_calls s s.
Proof.
  split; [done|]. exists []. rewrite app_nil_r. by destruct s as [e []].
Qed.

Lemma only_calls_trans s1 s2 s3 :
  only_calls s1 s2 -> only_calls s2 s3 -> only_calls s1 s3.
Proof.
  intros [He1 [l1 H1]] [He2 [l2 H2]]. split; [congruence|].
  exists (l1 ++ l2). rewrite H2, H1. simpl. by rewrite app_assoc.
Qed.

Lemma emit_only_calls ev s : emit ev s = Ok (tt, mkServer (exec_ s) (set_calls (calls (fields s) ++ [ev]) (fields s))).
Proof. done. Qed.

Lemma for_each_only_calls {A} (l : list A) (body : A -> M GC unit) :
  (forall x s s', body x s = Ok (tt, s') -> only_calls s s') ->
  forall s s', for_each l body s = Ok (tt, s') -> only_calls s s'.
Proof.
  intros Hbody. induction l as [|x l IH]; intros s s' H; simpl in H.
  - inversion H. apply only_calls_refl.
  - apply bind_Ok in H as ([] & s1 & H1 & H2).
    eapply only_calls_trans; eauto.
Qed.

Lemma read_bytes_Ok (p : list Byte.byte) off len s r :
  read_bytes p off len s = Ok r ->
  0 <= off /\ 0 <= len /\ off + len <= Z.of_nat (length p) /\
  r = (take (Z.to_nat len) (drop (Z.to_nat off) p), s).
Proof.
  unfold read_bytes.
  destruct (0 <=? off) eqn:H1; [|done].
  destruct (0 <=? len) eqn:H2; [|done].
  destruct (off + len <=? _) eqn:H3; [|done]. simpl.
  intros H; inversion H. repeat split; lia.
Qed.

End MonadFacts.

(** Splits a hypothesis [H : (m ;; k) s = Ok r] along its binds. *)
Ltac inv_bind H :=
  let a := fresh "a" in
  let s1 := fresh "s" in
  let H1 := fresh "Hm" in
  apply bind_Ok in H as (a & s1 & H1 & H).

(** One step through a computation that returned: splits a bind, or
    resolves a primitive. *)
Ltac mstep :=
  match goal with
  | H : bind _ _ _ = Ok _ |- _ =>
      let Hm := fresh "Hm" in apply bind_Ok in H as (? & ? & Hm & H)
  | H : get _ = Ok _ |- _ => inversion H; subst; clear H
  | H : ret _ _ = Ok _ |- _ => inversion H; subst; clear H
  | H : modify _ _ = Ok _ |- _ => inversion H; subst; clear H
  | H : emit _ _ = Ok _ |- _ => inversion H; subst; clear H
  | x : unit |- _ => destruct x
  | H : fatal _ _ = Ok _ |- _ => discriminate H
  | H : undefined _ = Ok _ |- _ => discriminate H
  | H : CHECK ?b _ _ = Ok _ |- _ =>
      unfold CHECK in H; destruct b eqn:?; [inversion H; subst; clear H | discriminate H]
  | H : sizeof_ ?dt _ = Ok _ |- _ =>
      unfold sizeof_ in H; destruct (mshadow_sizeof dt) eqn:?;
      [inversion H; subst; clear H | discriminate H]
  | H : read_bytes _ _ _ _ = Ok _ |- _ =>
      let Heq := fresh "Heq" in
      apply read_bytes_Ok in H as (? & ? & ? & Heq); inversion Heq; subst; clear Heq
  | H : index ?l ?i _ = Ok _ |- _ =>
      unfold index in H; destruct (l !! i) eqn:?;
      [inversion H; subst; clear H | discriminate H]
  end.

(** Unfolds the field updates. *)
Ltac fsimpl :=
  unfold set_request, set_merged, set_temp_array, set_stored, update_buf_at,
    store_v_at, set_store_, set_store_realt_, set_update_buf_, set_store_v_,
    set_calls, set_sync_mode_, set_multi_precision_, set_num_aggregation_,
    set_gradient_compression_, set_decomp_buf_, set_updater_, set_controller_,
    stored_at in *;
  simpl in *.

Section ServerFacts.
Context {GC : Type} {env : Collaborators GC}.
Implicit Type s : KVStoreDistServer GC.
Implicit Type w : Fields GC.


Lemma request_set_request key l w :
  request (update_buf_at key (set_request key l w)) = l.
Proof. fsimpl. by rewrite lookup_insert_eq. Qed.

(** What [apply_update] does when the executor is idle: with an updater,
    one call of it on the update and the stored array; without one (sync
    mode only), the copy of [merged]. *)
Lemma apply_update_idle mp key s s' :
  Executor.idle (exec_ s) ->
  apply_update mp key s = Ok (tt, s') ->
  Executor.idle (exec_ s') /\
  let w := fields s in
  let update := if sync_mode_ w then merged (update_buf_at key w)
                else temp_array (update_buf_at key w) in
  match updater_ w with
  | Some u =>
      fields s' = set_stored mp key (u key update (stored_at mp key w))
                    (set_calls (calls w ++ [UpdaterCall key update (stored_at mp key w)]) w)
  | None =>
      sync_mode_ w = true /\
      fields s' = set_stored mp key
                    (CopyFromTo (merged (update_buf_at key w)) (stored_at mp key w)) w
  end.
Proof.
  intros Hidle H. unfold apply_update in H. repeat mstep.
  destruct (updater_ (fields _)) as [u|] eqn:Hu; simpl in H.
  - unfold exec_Exec in H.
    erewrite Exec_idle_runs in H; [| done |].
    2:{ unfold call_updater. rewrite Hu. reflexivity. }
    inversion H; subst; clear H. split; [by split|]. simpl. by rewrite Hu.
  - repeat mstep. simpl. by rewrite Hu.
Qed.

Lemma sizeof_Ok dt s r :
  sizeof_ dt s = Ok r -> exists n, mshadow_sizeof dt = Some n /\ r = (n, s).
Proof.
  unfold sizeof_. destruct (mshadow_sizeof dt) as [n|]; [|done].
  intros H; inversion H. eauto.
Qed.


Lemma DefaultStorageResponse_only_calls type key req_meta req_data s s' :
  DefaultStorageResponse type key req_meta req_data s = Ok (tt, s') ->
  only_calls s s'.
Proof.
  unfold DefaultStorageResponse. intros H. repeat mstep.
  destruct (store_ (fields _) !! key) as [stored|]; [|done].
  repeat mstep. split; [done|]. eauto.
Qed.

Lemma DefaultAutoPull_only_calls type key version req_meta req_data s s' :
  DefaultAutoPull type key version req_meta req_data s = Ok (tt, s') ->
  only_calls s s'.
Proof.
  unfold DefaultAutoPull. intros H. repeat mstep.
  destruct (store_ (fields _) !! key) as [stored|]; [|done].
  repeat mstep. split; [done|]. eauto.
Qed.

Lemma copy_down_Ok mp key s r :
  copy_down mp key s = Ok r ->
  r = (tt, mkServer (exec_ s)
             (if mp
              then set_store_ (assign key (CopyFromTo (store_realt_ (fields s) !! key)
                                                      (store_ (fields s) !! key))
                                      (store_ (fields s))) (fields s)
              else fields s)).
Proof.
  unfold copy_down. destruct mp; simpl; intros H; inversion H; [done|].
  by destruct s.
Qed.

(** [ApplyUpdates] leaves the pending list of its key empty once it has
    applied the update. *)
Lemma ApplyUpdates_clears_request type key req_data s s' :
  ApplyUpdates type key req_data s = Ok (tt, s') ->
  negb (sync_mode_ (fields s))
  || (Z.of_nat (length (request (update_buf_at key (fields s)))) =? wrap_size_t NumWorkers)
  = true ->
  request (update_buf_at key (fields s')) = [].
Proof.
  intros H Hc. unfold ApplyUpdates in H. repeat mstep. rewrite Hc in H.
  mstep. destruct (existsb pull _).
  - repeat mstep. simpl. apply request_set_request.
  - repeat mstep. apply copy_down_Ok in H. inversion H; subst; clear H. simpl.
    destruct (has_multi_precision_copy _ _); simpl; apply request_set_request.
Qed.

Lemma ApplyUpdatesDefault_clears_request type key req_meta req_data s s' :
  ApplyUpdatesDefault type key req_meta req_data s = Ok (tt, s') ->
  negb (sync_mode_ (fields s))
  || (Z.of_nat (length (request (update_buf_at key (fields s)))) =? wrap_size_t NumWorkers)
  = true ->
  request (update_buf_at key (fields s')) = [].
Proof.
  intros H Hc. unfold ApplyUpdatesDefault in H. repeat mstep. rewrite Hc in H.
  repeat mstep.
  apply DefaultAutoPull_only_calls in H as [_ [l Hl]].
  match goal with Hc : copy_down _ _ _ = Ok _ |- _ =>
    apply copy_down_Ok in Hc; inversion Hc; subst; clear Hc end.
  rewrite Hl. simpl.
  destruct (has_multi_precision_copy _ _); simpl; apply request_set_request.
Qed.

(** C2: in sync mode the dispatchers ([ApplyUpdates], and
    [ApplyUpdatesDefault] under TSEngine) consume [merged] only when the
    pending list of the key holds exactly [NumWorkers] requests: with any
    other size they change nothing (no updater call, no copy, no
    response); and after they have applied the update the pending list is
    empty. *)
Theorem sync_barrier_at_NumWorkers type key req_meta req_data s s' :
  0 <= NumWorkers < 2 ^ 64 ->
  sync_mode_ (fields s) = true ->
  ApplyUpdates type key req_data s = Ok (tt, s') \/
  ApplyUpdatesDefault type key req_meta req_data s = Ok (tt, s') ->
  (Z.of_nat (length (request (update_buf_at key (fields s)))) <> NumWorkers -> s' = s) /\
  (Z.of_nat (length (request (update_buf_at key (fields s)))) = NumWorkers ->
   request (update_buf_at key (fields s')) = []).
Proof.
  intros HN Hsync H. split.
  - intros Hne.
    assert (Hc : negb (sync_mode_ (fields s))
                 || (Z.of_nat (length (request (update_buf_at key (fields s))))
                     =? wrap_size_t NumWorkers) = false).
    { rewrite Hsync, wrap_size_t_id by done. simpl. by apply Z.eqb_neq. }
    destruct H as [H|H].
    + unfold ApplyUpdates in H. repeat mstep. rewrite Hc in H. by inversion H.
    + unfold ApplyUpdatesDefault in H. repeat mstep. rewrite Hc in H. by inversion H.
  - intros Heq.
    assert (Hc : negb (sync_mode_ (fields s))
                 || (Z.of_nat (length (request (update_buf_at key (fields s))))
                     =? wrap_size_t NumWorkers) = true).
    { rewrite wrap_size_t_id by done. apply orb_true_iff. right. by apply Z.eqb_eq. }
    destruct H as [H|H].
    + by eapply ApplyUpdates_clears_request.
    + by eapply ApplyUpdatesDefault_clears_request.
Qed.

Lemma apply_update_keeps_versions mp key s s' :
  Executor.idle (exec_ s) ->
  apply_update mp key s = Ok (tt, s') ->
  Executor.idle (exec_ s') /\ store_v_ (fields s') = store_v_ (fields s) /\
  update_buf_ (fields s') = update_buf_ (fields s) /\
  sync_mode_ (fields s') = sync_mode_ (fields s) /\
  multi_precision_ (fields s') = multi_precision_ (fields s).
Proof.
  intros Hidle H. apply apply_update_idle in H as [Hi H]; [|done].
  split; [done|]. simpl in H.
  destruct (updater_ (fields s)); [|destruct H as [_ H]];
    rewrite H; by destruct mp.
Qed.

Lemma for_each_DefaultStorageResponse_only_calls type key req_data l s s' :
  for_each l (fun req => if pull req
                         then DefaultStorageResponse type key req req_data
                         else ret tt) s = Ok (tt, s') ->
  only_calls s s'.
Proof.
  apply for_each_only_calls. intros req s1 s2 H.
  destruct (pull req).
  - by eapply DefaultStorageResponse_only_calls.
  - inversion H. apply only_calls_refl.
Qed.

Lemma for_each_Response_only_calls (l : list KVMeta) s s' :
  for_each l (fun req => emit (Response req)) s = Ok (tt, s') ->
  only_calls s s'.
Proof.
  apply for_each_only_calls. intros req s1 s2 H. inversion H.
  split; [done|]. eauto.
Qed.

(** [ApplyUpdates] never touches a version counter. *)
Lemma ApplyUpdates_keeps_versions type key req_data s s' :
  Executor.idle (exec_ s) ->
  ApplyUpdates type key req_data s = Ok (tt, s') ->
  store_v_ (fields s') = store_v_ (fields s).
Proof.
  intros Hidle H. unfold ApplyUpdates in H. repeat mstep.
  destruct (negb _ || _); [|by inversion H].
  repeat mstep.
  apply apply_update_keeps_versions in Hm as (_ & Hv & _); [|done].
  rewrite <- Hv. clear Hv Hidle.
  destruct (existsb pull _); repeat mstep.
  - apply for_each_DefaultStorageResponse_only_calls in Hm0 as [_ [l ->]].
    match goal with Hc : copy_down _ _ _ = Ok _ |- _ =>
      apply copy_down_Ok in Hc; inversion Hc; subst; clear Hc end.
    simpl. by destruct (has_multi_precision_copy _ _).
  - apply copy_down_Ok in H. inversion H; subst; clear H.
    apply for_each_Response_only_calls in Hm as [_ [l Hl]].
    simpl. destruct (has_multi_precision_copy _ _); simpl; by rewrite Hl.
Qed.

(** [ApplyUpdatesDefault] adds one to the version counter of its key, and
    to no other, when it applies the update. *)
Lemma ApplyUpdatesDefault_increments_version type key req_meta req_data s s' :
  Executor.idle (exec_ s) ->
  negb (sync_mode_ (fields s))
  || (Z.of_nat (length (request (update_buf_at key (fields s)))) =? wrap_size_t NumWorkers)
  = true ->
  ApplyUpdatesDefault type key req_meta req_data s = Ok (tt, s') ->
  store_v_ (fields s') = <[key := int_add (store_v_at key (fields s)) 1]> (store_v_ (fields s)).
Proof.
  intros Hidle Hc H. unfold ApplyUpdatesDefault in H. repeat mstep.
  rewrite Hc in H. repeat mstep.
  apply apply_update_keeps_versions in Hm as (_ & Hv & _); [|done].
  apply DefaultAutoPull_only_calls in H as [_ [l Hl]].
  match goal with Hc : copy_down _ _ _ = Ok _ |- _ =>
    apply copy_down_Ok in Hc; inversion Hc; subst; clear Hc end.
  rewrite Hl. simpl.
  destruct (has_multi_precision_copy _ _); simpl; unfold store_v_at; simpl;
    by rewrite Hv.
Qed.

(** C3 (as amended): the version counter [store_v_] is kept by
    [ApplyUpdatesDefault], the dispatcher of dense pushes under
    ENABLE_TSENGINE: an invocation that applies the update (a complete
    cohort in sync mode, any push in async mode) adds exactly one to the
    counter of its key and leaves the other counters alone.  [ApplyUpdates],
    the dispatcher of every other push, never changes a version counter. *)
Theorem version_incremented_by_ApplyUpdatesDefault type key req_meta req_data s :
  Executor.idle (exec_ s) ->
  negb (sync_mode_ (fields s))
  || (Z.of_nat (length (request (update_buf_at key (fields s)))) =? wrap_size_t NumWorkers)
  = true ->
  (forall s', ApplyUpdatesDefault type key req_meta req_data s = Ok (tt, s') ->
     store_v_at key (fields s') = int_add (store_v_at key (fields s)) 1 /\
     (INT_MIN <= store_v_at key (fields s) < INT_MAX ->
      store_v_at key (fields s') = store_v_at key (fields s) + 1) /\
     forall k, k <> key -> store_v_at k (fields s') = store_v_at k (fields s)) /\
  (forall s', ApplyUpdates type key req_data s = Ok (tt, s') ->
     store_v_ (fields s') = store_v_ (fields s)).
Proof.
  intros Hidle Hc. split.
  - intros s' H.
    apply ApplyUpdatesDefault_increments_version in H; [|done..].
    assert (Hv : store_v_at key (fields s') = int_add (store_v_at key (fields s)) 1).
    { unfold store_v_at at 1. by rewrite H, lookup_insert_eq. }
    repeat split; [done| |].
    + intros Hlt. rewrite Hv. unfold int_add. apply wrap_int_id.
      unfold INT_MIN, INT_MAX in *. lia.
    + intros k Hk. unfold store_v_at. by rewrite H, lookup_insert_ne.
  - intros s' H. by eapply ApplyUpdates_keeps_versions.
Qed.

End ServerFacts.

(** C3, the claim as stated fails: in async mode, without TSEngine, a dense
    update of key 5 goes through [ApplyUpdates]; the updater is applied and
    the push acknowledged, and the version counter of key 5 is what it was. *)
Lemma version_not_incremented_counterexample :
  exists s',
    ApplyUpdates (env := Toy.collaborators false false)
      {| requestType := kDefaultPushPull; dtype := 0 |} 5
      (mkKVPairs [5] Toy.bytes8 [8]) (Toy.server Toy.async_pending_5)
    = Ok (tt, s') /\
    calls (fields s')
    = [UpdaterCall 5 (Some (Toy.dense_f32 Toy.bytes8))
         (Some (Toy.dense_f32 (replicate 8 Byte.x00)));
       Response (Toy.push_meta 0)] /\
    store_ (fields s') !! 5 = Some (Toy.dense_f32 Toy.bytes8) /\
    store_v_at 5 (fields s') = store_v_at 5 Toy.async_pending_5.
Proof. eexists. split; [vm_compute; reflexivity|]. repeat split. Qed.

Lemma version_incremented_by_ApplyUpdatesDefault_witness :
  Executor.idle (exec_ (Toy.server Toy.async_pending_5)) /\
  negb (sync_mode_ Toy.async_pending_5) = true /\
  exists s',
    ApplyUpdatesDefault (env := Toy.collaborators false true)
      {| requestType := kDefaultPushPull; dtype := 0 |} 5 (Toy.push_meta 0)
      (mkKVPairs [5] Toy.bytes8 [8]) (Toy.server Toy.async_pending_5)
    = Ok (tt, s') /\
    store_v_at 5 (fields s') = 1.
Proof.
  assert (Hidle : Executor.idle (exec_ (Toy.server Toy.async_pending_5))) by (by split).
  split; [exact Hidle|]. split; [reflexivity|].
  eexists. split; [vm_compute; reflexivity|].
  destruct (version_incremented_by_ApplyUpdatesDefault
              (env := Toy.collaborators false true)
              {| requestType := kDefaultPushPull; dtype := 0 |} 5 (Toy.push_meta 0)
              (mkKVPairs [5] Toy.bytes8 [8]) (Toy.server Toy.async_pending_5)
              Hidle eq_refl) as [H _].
  match goal with |- store_v_at 5 (fields ?s1) = 1 =>
    destruct (H s1 ltac:(vm_compute; reflexivity)) as [Hv _] end.
  rewrite Hv. reflexivity.
Defined.

Lemma sync_barrier_at_NumWorkers_witness :
  0 <= NumWorkers (Collaborators := Toy.collaborators false false) < 2 ^ 64 /\
  sync_mode_ (fields (Toy.server Toy.sync_complete_5)) = true /\
  exists s',
    ApplyUpdates (env := Toy.collaborators false false)
      {| requestType := kDefaultPushPull; dtype := 0 |} 5
      (mkKVPairs [5] Toy.bytes8 [8]) (Toy.server Toy.sync_complete_5)
    = Ok (tt, s') /\
    request (update_buf_at 5 (fields s')) = [].
Proof.
  assert (HN : 0 <= NumWorkers (Collaborators := Toy.collaborators false false) < 2 ^ 64)
    by (simpl; lia).
  split; [exact HN|]. split; [reflexivity|].
  eexists. split; [vm_compute; reflexivity|].
  match goal with |- request (update_buf_at 5 (fields ?s1)) = [] =>
    refine (proj2 (sync_barrier_at_NumWorkers
                     (env := Toy.collaborators false false)
                     {| requestType := kDefaultPushPull; dtype := 0 |} 5 (Toy.push_meta 0)
                     (mkKVPairs [5] Toy.bytes8 [8]) (Toy.server Toy.sync_complete_5) s1
                     HN eq_refl (or_introl _)) _) end.
  - vm_compute. reflexivity.
  - reflexivity.
Defined.

(** * Facts about the command plane *)

Section CommandFacts.
Context {GC : Type} {env : Collaborators GC}.
Implicit Type s : KVStoreDistServer GC.

(** A turn of [CreateMultiPrecisionCopies] trips its [CHECK] on a key that
    is not float32 and has a pending request. *)
Lemma CreateMultiPrecisionCopy_pending key stored s :
  (nd_dtype stored =? kFloat32) = false ->
  request (update_buf_at key (fields s)) <> [] ->
  CreateMultiPrecisionCopy (key, stored) s = Fatal Check_multi_precision_pushes_underway.
Proof.
  intros Hd Hr. unfold CreateMultiPrecisionCopy. rewrite Hd. simpl.
  unfold bind, modify, get, CHECK. fsimpl.
  destruct (merged (default new_UpdateBuf (update_buf_ (fields s) !! key)));
    simpl; [rewrite lookup_insert_eq; simpl|];
    by destruct (request (default new_UpdateBuf (update_buf_ (fields s) !! key))).
Qed.

(** A turn either returns, with every pending list as it was, or trips
    that [CHECK]. *)
Lemma CreateMultiPrecisionCopy_cases entry s :
  (exists s', CreateMultiPrecisionCopy entry s = Ok (tt, s') /\
              exec_ s' = exec_ s /\
              forall k, request (update_buf_at k (fields s'))
                        = request (update_buf_at k (fields s))) \/
  CreateMultiPrecisionCopy entry s = Fatal Check_multi_precision_pushes_underway.
Proof.
  destruct entry as [key stored]. unfold CreateMultiPrecisionCopy.
  destruct (nd_dtype stored =? kFloat32); simpl.
  - left. exists s. by destruct s.
  - unfold bind, modify, get, CHECK. fsimpl.
    destruct (merged (default new_UpdateBuf (update_buf_ (fields s) !! key))) eqn:Hm;
      simpl.
    + rewrite lookup_insert_eq. simpl.
      destruct (request (default new_UpdateBuf (update_buf_ (fields s) !! key))) eqn:Hr;
        simpl; [|by right].
      left. eexists. split; [reflexivity|]. split; [done|]. intros k. simpl.
      destruct (decide (k = key)) as [->|Hne].
      * by rewrite !lookup_insert_eq.
      * by rewrite !lookup_insert_ne.
    + destruct (request (default new_UpdateBuf (update_buf_ (fields s) !! key))) eqn:Hr;
        simpl; [|by right].
      left. eexists. split; [reflexivity|]. split; [done|]. intros k. by simpl.
Qed.

Lemma CreateMultiPrecisionCopies_pending (l : list (Z * NDArrayRep)) :
  forall s key stored,
    In (key, stored) l ->
    (nd_dtype stored =? kFloat32) = false ->
    request (update_buf_at key (fields s)) <> [] ->
    for_each l CreateMultiPrecisionCopy s = Fatal Check_multi_precision_pushes_underway.
Proof.
  induction l as [|entry l IH]; intros s key stored Hin Hd Hr; [done|].
  simpl. destruct (CreateMultiPrecisionCopy_cases entry s)
    as [(s' & Hok & _ & Hreq)|Hf].
  - rewrite (bind_Ok_l _ _ _ _ _ Hok).
    destruct Hin as [->|Hin].
    + rewrite CreateMultiPrecisionCopy_pending in Hok; done.
    + eapply IH; eauto. by rewrite Hreq.
  - by apply bind_Fatal_l.
Qed.

(** C4 (as amended): the first [SetMultiPrecision] command fails with the
    "Multiprecision mode can not be set while pushes are underway" check
    whenever a key whose stored dtype is not float32 has a pending
    request.  (Keys stored as float32 get no master copy and are not
    looked at.) *)
Theorem SetMultiPrecision_with_pending_push_fails recved s key stored :
  head recved = 1 ->
  multi_precision_ (fields s) = false ->
  store_ (fields s) !! key = Some stored ->
  nd_dtype stored <> kFloat32 ->
  request (update_buf_at key (fields s)) <> [] ->
  CommandHandle recved s = Fatal Check_multi_precision_pushes_underway.
Proof.
  intros Hh Hmp Hs Hd Hr. unfold CommandHandle. rewrite Hh. simpl.
  apply bind_Fatal_l. unfold bind at 1. simpl. rewrite Hmp. simpl.
  unfold bind at 1. simpl. unfold CreateMultiPrecisionCopies.
  unfold bind at 1. simpl.
  eapply CreateMultiPrecisionCopies_pending; simpl; eauto.
  - apply list_elem_of_In, elem_of_map_to_list. done.
  - by apply Z.eqb_neq.
Qed.

End CommandFacts.

(** C4, the claim as stated fails: with a request pending on the float32
    key 5, [SetMultiPrecision] is acknowledged and multi-precision is on. *)
Lemma SetMultiPrecision_counterexample :
  request (update_buf_at 5 Toy.f32_pending_5) = [Toy.push_meta 0] /\
  exists s',
    CommandHandle (env := Toy.collaborators false false)
      {| head := 1; body := EmptyString |} (Toy.server Toy.f32_pending_5)
    = Ok (tt, s') /\
    multi_precision_ (fields s') = true /\
    calls (fields s') = [AppResponse {| head := 1; body := EmptyString |}].
Proof.
  split; [reflexivity|]. eexists. split; [vm_compute; reflexivity|]. by split.
Qed.

Lemma SetMultiPrecision_with_pending_push_fails_witness :
  multi_precision_ (fields (Toy.server Toy.f16_pending_7)) = false /\
  store_ (fields (Toy.server Toy.f16_pending_7)) !! 7 = Some (Toy.rsp_f16 Toy.bytes4) /\
  nd_dtype (Toy.rsp_f16 Toy.bytes4) <> kFloat32 (Collaborators := Toy.collaborators false false) /\
  request (update_buf_at 7 (fields (Toy.server Toy.f16_pending_7))) <> [] /\
  CommandHandle (env := Toy.collaborators false false)
    {| head := 1; body := EmptyString |} (Toy.server Toy.f16_pending_7)
  = Fatal Check_multi_precision_pushes_underway.
Proof.
  assert (H1 : store_ (fields (Toy.server Toy.f16_pending_7)) !! 7
               = Some (Toy.rsp_f16 Toy.bytes4)) by reflexivity.
  assert (H2 : nd_dtype (Toy.rsp_f16 Toy.bytes4)
               <> kFloat32 (Collaborators := Toy.collaborators false false)) by (simpl; lia).
  assert (H3 : request (update_buf_at 7 (fields (Toy.server Toy.f16_pending_7))) <> [])
    by (vm_compute; discriminate).
  split; [reflexivity|]. split; [exact H1|]. split; [exact H2|]. split; [exact H3|].
  exact (SetMultiPrecision_with_pending_push_fails
           (env := Toy.collaborators false false)
           {| head := 1; body := EmptyString |} (Toy.server Toy.f16_pending_7)
           7 (Toy.rsp_f16 Toy.bytes4) eq_refl eq_refl H1 H2 H3).
Defined.

(** * Facts about the data plane *)

Section DataFacts.
Context {GC : Type} {env : Collaborators GC}.
Implicit Type s : KVStoreDistServer GC.
Implicit Type w : Fields GC.

(** C6: with ENABLE_LEMETHOD set, a data request whose type is not
    [kDefaultPushPull] (row-sparse, compressed, or no enumerator at all)
    trips the "LeMethod only support DefaultPushPull." check; a request that
    [DataHandleEx] accepts is a dense one. *)
Theorem LeMethod_accepts_only_dense req_meta req_data s type :
  ENABLE_LEMETHOD = true ->
  DepairDataHandleType (cmd req_meta) = Ok type ->
  (requestType type <> kDefaultPushPull ->
   DataHandleEx req_meta req_data s = Fatal Check_LeMethod_only_DefaultPushPull) /\
  (forall r, DataHandleEx req_meta req_data s = Ok r ->
             requestType type = kDefaultPushPull).
Proof.
  intros Hle Hty. unfold DataHandleEx. rewrite Hty.
  rewrite (bind_Ok_l _ _ s type s) by reflexivity. rewrite Hle. split.
  - intros Hne. apply bind_Fatal_l. cbv [CHECK fatal ret].
    by destruct (requestType type).
  - intros r H. apply bind_Ok in H as (a & s1 & Hc & _).
    revert Hc. cbv [CHECK fatal ret]. by destruct (requestType type).
Qed.

(** C7: a pull for a key whose [store_] entry is none trips the
    "init <key> first" check, in [DefaultStorageResponse] and, for at least
    one requested row, in [RowSparsePullResponse]; so do the dense and the
    row-sparse handler on a pull request for such a key. *)
Theorem pull_before_push_fails type key req_meta req_data s :
  store_ (fields s) !! key = None ->
  DefaultStorageResponse type key req_meta req_data s = Fatal Check_init_first /\
  (forall num_rows, num_rows <> 0 ->
     RowSparsePullResponse type key num_rows req_meta req_data s
     = Fatal Check_init_first) /\
  (forall k, push req_meta = false -> keys req_data = [k] -> DecodeKey k = key ->
     DataHandleDefault type req_meta req_data s = Fatal Check_init_first) /\
  (forall k row_keys, push req_meta = false -> keys req_data = k :: row_keys ->
     row_keys <> [] -> Z.of_nat (length row_keys) < 2 ^ 64 -> DecodeKey k = key ->
     DataHandleRowSparse type req_meta req_data s = Fatal Check_init_first).
Proof.
  intros Hnone.
  assert (H1 : forall m d, DefaultStorageResponse type key m d s = Fatal Check_init_first).
  { intros m d. unfold DefaultStorageResponse, bind, get. simpl. by rewrite Hnone. }
  assert (H2 : forall num_rows m d, num_rows <> 0 ->
            RowSparsePullResponse type key num_rows m d s = Fatal Check_init_first).
  { intros n m d Hn. unfold RowSparsePullResponse.
    apply Z.eqb_neq in Hn. rewrite Hn. unfold bind, get. simpl. by rewrite Hnone. }
  repeat split; auto.
  - intros k Hp Hk <-. unfold DataHandleDefault. rewrite Hp, Hk. simpl.
    unfold bind, CHECK, index, get, ret. simpl. apply H1.
  - intros k rows Hp Hk Hrows Hlen <-. unfold DataHandleRowSparse.
    rewrite Hp, Hk. simpl. unfold bind, index, get, ret. simpl.
    apply H2. rewrite wrap_size_t_id by lia. destruct rows; [done|]. simpl. lia.
Qed.

(** The rows gathered by [RowSparsePullResponse] when every requested row
    lies inside the stored bytes. *)
Lemma gather_rows_in_range (data : list Byte.byte) unit_size master_key ks s :
  0 <= unit_size ->
  (forall k, In k ks ->
     0 <= int_sub (DecodeKey k) master_key /\
     (int_sub (DecodeKey k) master_key + 1) * unit_size <= Z.of_nat (length data)) ->
  gather_rows data unit_size master_key ks s
  = Ok (concat (map (fun k =>
                       take (Z.to_nat unit_size)
                            (drop (Z.to_nat (int_sub (DecodeKey k) master_key * unit_size))
                                  data)) ks), s).
Proof.
  intros Hu. induction ks as [|k ks IH]; intros Hin; [done|].
  simpl. destruct (Hin k (or_introl eq_refl)) as [H0 H1].
  unfold bind at 1. unfold read_bytes.
  assert (Hc : (0 <=? int_sub (DecodeKey k) master_key * unit_size)
               && (0 <=? unit_size)
               && (int_sub (DecodeKey k) master_key * unit_size + unit_size
                   <=? Z.of_nat (length data)) = true).
  { repeat (apply andb_true_iff; split); apply Z.leb_le; nia. }
  rewrite Hc. simpl. unfold bind at 1.
  rewrite IH by (intros k' Hk'; apply Hin; by right). done.
Qed.

(** The read of the row of key [k], [unit_size] bytes at
    [data + row_id * unit_size], stays inside [data]. *)
Definition row_inside (data : list Byte.byte) (unit_size master_key k : Z) : bool :=
  let row_id := int_sub (DecodeKey k) master_key in
  (0 <=? row_id * unit_size) && (0 <=? unit_size)
  && (row_id * unit_size + unit_size <=? Z.of_nat (length data)).

(** The bytes of that row. *)
Definition row_bytes (data : list Byte.byte) (unit_size master_key k : Z)
    : list Byte.byte :=
  take (Z.to_nat unit_size)
       (drop (Z.to_nat (int_sub (DecodeKey k) master_key * unit_size)) data).

Lemma gather_rows_inside (data : list Byte.byte) unit_size master_key ks s :
  gather_rows data unit_size master_key ks s
  = if forallb (row_inside data unit_size master_key) ks
    then Ok (concat (map (row_bytes data unit_size master_key) ks), s)
    else Undefined.
Proof.
  induction ks as [|k ks IH]; [done|].
  simpl. unfold bind at 1. unfold read_bytes. fold (row_inside data unit_size master_key k).
  destruct (row_inside data unit_size master_key k); [|done].
  simpl. unfold bind at 1. rewrite IH.
  by destruct (forallb _ ks).
Qed.

(** C8 (as amended): a row-sparse pull is answered by
    [RowSparsePullResponse] with [R = keys.size() - 1].  With no row
    ([R == 0]) the response has no bytes and its lengths are all zero,
    whether the key is initialized or not.  With [R > 0] rows on an
    initialized key, [unit_size] being [unit_len * sizeof(dtype)] as an
    [int]: when every requested row lies inside the stored bytes, the
    response concatenates, in the order of the requested row keys, the
    [unit_size] bytes at byte offset [row_id * unit_size], and its lengths
    are [0, unit_len, ..., unit_len]; when some requested row does not, the
    loop reads outside the stored bytes (it does not check the row id) and
    no response is defined. *)
Theorem RowSparsePullResponse_rows type req_meta req_data s k0 row_keys :
  push req_meta = false ->
  keys req_data = k0 :: row_keys ->
  Z.of_nat (length row_keys) < 2 ^ 64 ->
  let master_key := DecodeKey k0 in
  let R := Z.of_nat (length row_keys) in
  DataHandleRowSparse type req_meta req_data s
  = RowSparsePullResponse type master_key R req_meta req_data s /\
  (row_keys = [] ->
   RowSparsePullResponse type master_key R req_meta req_data s
   = Ok (tt, mkServer (exec_ s)
               (set_calls
                  (calls (fields s) ++
                   [ResponseData req_meta {| keys := [k0]; vals := []; lens := [0] |}])
                  (fields s)))) /\
  (row_keys <> [] ->
   forall stored num_bytes,
     store_ (fields s) !! master_key = Some stored ->
     mshadow_sizeof (dtype type) = Some num_bytes ->
     let unit_len := ProdShape1 (shape stored) in
     let unit_size := wrap_int (unit_len * num_bytes) in
     RowSparsePullResponse type master_key R req_meta req_data s
     = if forallb (row_inside (dptr stored) unit_size master_key) row_keys
       then Ok (tt, mkServer (exec_ s)
                      (set_calls
                         (calls (fields s) ++
                          [ResponseData req_meta
                             {| keys := k0 :: row_keys;
                                vals := concat (map (row_bytes (dptr stored) unit_size
                                                               master_key) row_keys);
                                lens := 0 :: replicate (length row_keys)
                                                       (wrap_int unit_len) |}])
                         (fields s)))
       else Undefined).
Proof.
  intros Hp Hk Hlen master_key R. split; [|split].
  - unfold DataHandleRowSparse. rewrite Hp, Hk. simpl.
    unfold bind, index, get, ret. simpl.
    rewrite wrap_size_t_id by lia. unfold R. repeat f_equal. lia.
  - intros ->. unfold RowSparsePullResponse. simpl. by rewrite Hk.
  - intros Hrows stored num_bytes Hs Hsz unit_len unit_size.
    unfold RowSparsePullResponse.
    assert (Hn : (R =? 0) = false).
    { apply Z.eqb_neq. unfold R. destruct row_keys; [done|]. simpl. lia. }
    rewrite Hn. unfold bind at 1. unfold get. simpl. fold master_key. rewrite Hs.
    unfold bind at 1. unfold sizeof_. rewrite Hsz. simpl.
    rewrite Hk.
    assert (Hl : (Z.of_nat (length (k0 :: row_keys)) <=? R) = false).
    { apply Z.leb_gt. unfold R. simpl. lia. }
    rewrite Hl. unfold bind at 1. simpl.
    unfold R. rewrite Nat2Z.id, drop_0, firstn_all.
    unfold bind at 1. rewrite gather_rows_inside.
    fold unit_len. fold unit_size.
    by destruct (forallb _ row_keys).
Qed.

(** The zero-row push of [DataHandleRowSparse] on an initialized key: what
    reaches [ApplyUpdates] in sync mode, and the whole effect in async
    mode. *)
Lemma DataHandleRowSparse_zero_rows type req_meta req_data s k0 l stored :
  push req_meta = true ->
  keys req_data = [k0] ->
  lens req_data = 0 :: l ->
  store_ (fields s) !! DecodeKey k0 = Some stored ->
  let w := fields s in
  let key := DecodeKey k0 in
  let mp := has_multi_precision_copy type w in
  let zeros := NDArray_rsp (shape stored) (if mp then kFloat32 else dtype type) in
  let w1 := if sync_mode_ w && is_none (merged (update_buf_at key w))
            then set_merged key zeros w else w in
  let w2 := if mp && is_none (temp_array (update_buf_at key w))
            then set_temp_array key (NDArray_rsp (shape stored) kFloat32) w1 else w1 in
  DataHandleRowSparse type req_meta req_data s
  = if sync_mode_ w then
      let w3 := if bool_decide (request (update_buf_at key w) = [])
                then set_merged key zeros w2 else w2 in
      ApplyUpdates type key req_data
        (mkServer (exec_ s)
           (set_request key (request (update_buf_at key w3) ++ [req_meta]) w3))
    else
      Ok (tt, mkServer (exec_ s) (set_calls (calls w2 ++ [Response req_meta]) w2)).
Proof.
  intros Hp Hk Hl Hs. simpl.
  unfold DataHandleRowSparse. rewrite Hp, Hk, Hl. simpl.
  unfold bind at 1. simpl. unfold bind at 1. simpl.
  unfold bind at 1. simpl. unfold bind at 1. simpl.
  unfold bind at 1. simpl. rewrite Hs.
  destruct (sync_mode_ (fields s)) eqn:Hsync; simpl.
  - destruct (is_none (merged (update_buf_at (DecodeKey k0) (fields s)))) eqn:Hm;
      destruct (has_multi_precision_copy type (fields s)
                && is_none (temp_array (update_buf_at (DecodeKey k0) (fields s)))) eqn:Ht;
      destruct (bool_decide (request (update_buf_at (DecodeKey k0) (fields s)) = [])) eqn:Hr;
      reflexivity.
  - destruct (has_multi_precision_copy type (fields s)
              && is_none (temp_array (update_buf_at (DecodeKey k0) (fields s)))) eqn:Ht;
      reflexivity.
Qed.

(** C5 (as amended): a row-sparse push with no row on an initialized key.
    In sync mode the request is appended to the pending list of the key
    before the dispatcher runs, and [merged] is reset to an array without
    rows exactly when the request is the first of its cohort (otherwise it
    is kept as it is); the stored tensors and the calls are untouched up to
    the dispatcher.  In async mode the request is acknowledged at once and
    the stored tensors, the version counters, the pending lists and the
    merged buffers are unchanged; the only change is that the float32
    staging array [temp_array] of the key is allocated when the key has a
    multi-precision copy and the array does not exist yet. *)
Theorem zero_row_push type req_meta req_data s k0 l stored :
  push req_meta = true ->
  keys req_data = [k0] ->
  lens req_data = 0 :: l ->
  store_ (fields s) !! DecodeKey k0 = Some stored ->
  let w := fields s in
  let key := DecodeKey k0 in
  let mp := has_multi_precision_copy type w in
  let zeros := NDArray_rsp (shape stored) (if mp then kFloat32 else dtype type) in
  (sync_mode_ w = true ->
   exists w',
     DataHandleRowSparse type req_meta req_data s
     = ApplyUpdates type key req_data (mkServer (exec_ s) w') /\
     request (update_buf_at key w') = request (update_buf_at key w) ++ [req_meta] /\
     (request (update_buf_at key w) = [] -> merged (update_buf_at key w') = zeros) /\
     (request (update_buf_at key w) <> [] -> merged (update_buf_at key w) <> None ->
      merged (update_buf_at key w') = merged (update_buf_at key w)) /\
     store_ w' = store_ w /\ store_realt_ w' = store_realt_ w /\
     store_v_ w' = store_v_ w /\ calls w' = calls w) /\
  (sync_mode_ w = false ->
   exists w',
     DataHandleRowSparse type req_meta req_data s = Ok (tt, mkServer (exec_ s) w') /\
     calls w' = calls w ++ [Response req_meta] /\
     store_ w' = store_ w /\ store_realt_ w' = store_realt_ w /\
     store_v_ w' = store_v_ w /\
     (forall k, request (update_buf_at k w') = request (update_buf_at k w) /\
                merged (update_buf_at k w') = merged (update_buf_at k w)) /\
     (forall k, temp_array (update_buf_at k w') = temp_array (update_buf_at k w) \/
                (k = key /\ mp = true /\ temp_array (update_buf_at k w) = None /\
                 temp_array (update_buf_at k w') = NDArray_rsp (shape stored) kFloat32))).
Proof.
  intros Hp Hk Hl Hs w key mp zeros.
  pose proof (DataHandleRowSparse_zero_rows type req_meta req_data s k0 l stored
                Hp Hk Hl Hs) as H. simpl in H.
  fold w key mp zeros in H. split; intros Hsync; rewrite Hsync in H; simpl in H.
  - eexists. split; [exact H|].
    destruct (is_none (merged (update_buf_at key w))) eqn:Hm;
      destruct (mp && is_none (temp_array (update_buf_at key w))) eqn:Ht;
      destruct (bool_decide (request (update_buf_at key w) = [])) eqn:Hr;
      try apply bool_decide_eq_true in Hr; try apply bool_decide_eq_false in Hr;
      fsimpl; rewrite ?lookup_insert_eq; simpl; rewrite ?lookup_insert_eq; simpl;
      repeat split; try done; try congruence;
      try (intros _ Hnone; by destruct (merged _)).
  - eexists. split; [exact H|].
    destruct (mp && is_none (temp_array (update_buf_at key w))) eqn:Ht.
    + apply andb_true_iff in Ht as [Hmp Ht].
      repeat split; try done.
      * fsimpl. destruct (decide (k = key)) as [->|Hne];
          [by rewrite lookup_insert_eq | by rewrite lookup_insert_ne].
      * fsimpl. destruct (decide (k = key)) as [->|Hne];
          [by rewrite lookup_insert_eq | by rewrite lookup_insert_ne].
      * intros k. destruct (decide (k = key)) as [->|Hne].
        -- right. repeat split; try done.
           ++ by destruct (temp_array (update_buf_at key w)).
           ++ fsimpl. by rewrite lookup_insert_eq.
        -- left. fsimpl. by rewrite lookup_insert_ne.
    + repeat split; try done. intros k. by left.
Qed.

End DataFacts.

(** C5, the claim as stated fails: in async mode with multi-precision on,
    the first zero-row push on the float16 key 7 is acknowledged, and the
    update buffer of the key has changed: its [temp_array] was none and is
    now a float32 array. *)
Lemma zero_row_push_counterexample :
  temp_array (update_buf_at 7 (set_store_ {[ 7 := Toy.rsp_f16 Toy.bytes4 ]}
                                 (Toy.no_fields false true (Some Toy.updater)))) = None /\
  exists s',
    DataHandleRowSparse (env := Toy.collaborators false false)
      {| requestType := kRowSparsePushPull; dtype := 2 |} (Toy.push_meta 5)
      {| keys := [7]; vals := []; lens := [0] |}
      (Toy.server (set_store_ {[ 7 := Toy.rsp_f16 Toy.bytes4 ]}
                     (Toy.no_fields false true (Some Toy.updater))))
    = Ok (tt, s') /\
    calls (fields s') = [Response (Toy.push_meta 5)] /\
    temp_array (update_buf_at 7 (fields s'))
    = Some {| storage_type := kRowSparseStorage; shape := [2; 1]; nd_dtype := 0;
              aux_idx := []; dptr := [] |}.
Proof.
  split; [reflexivity|]. eexists. split; [vm_compute; reflexivity|]. by split.
Qed.

Lemma zero_row_push_witness :
  store_ (fields (Toy.server Toy.f16_pending_7))
    !! DecodeKey (env := Toy.collaborators false false) 7
  = Some (Toy.rsp_f16 Toy.bytes4) /\
  exists w',
    DataHandleRowSparse (env := Toy.collaborators false false)
      {| requestType := kRowSparsePushPull; dtype := 2 |} (Toy.push_meta 5)
      {| keys := [7]; vals := []; lens := [0] |} (Toy.server Toy.f16_pending_7)
    = ApplyUpdates (env := Toy.collaborators false false)
        {| requestType := kRowSparsePushPull; dtype := 2 |} 7
        {| keys := [7]; vals := []; lens := [0] |}
        (mkServer (exec_ (Toy.server Toy.f16_pending_7)) w') /\
    request (update_buf_at 7 w') = [Toy.push_meta 4; Toy.push_meta 5].
Proof.
  assert (Hs : store_ (fields (Toy.server Toy.f16_pending_7))
                 !! DecodeKey (env := Toy.collaborators false false) 7
               = Some (Toy.rsp_f16 Toy.bytes4)) by reflexivity.
  split; [exact Hs|].
  destruct (zero_row_push (env := Toy.collaborators false false)
              {| requestType := kRowSparsePushPull; dtype := 2 |} (Toy.push_meta 5)
              {| keys := [7]; vals := []; lens := [0] |} (Toy.server Toy.f16_pending_7)
              7 [] (Toy.rsp_f16 Toy.bytes4) eq_refl eq_refl eq_refl Hs) as [Hsync _].
  destruct (Hsync eq_refl) as (w' & H1 & H2 & _).
  exists w'. split; [exact H1|]. exact H2.
Defined.

Lemma LeMethod_accepts_only_dense_witness :
  ENABLE_LEMETHOD (Collaborators := Toy.collaborators true false) = true /\
  DepairDataHandleType (cmd (Toy.push_meta 1))
  = Ok {| requestType := kRowSparsePushPull; dtype := 0 |} /\
  DataHandleEx (env := Toy.collaborators true false) (Toy.push_meta 1)
    {| keys := [7]; vals := []; lens := [0] |} (Toy.server Toy.f16_pending_7)
  = Fatal Check_LeMethod_only_DefaultPushPull.
Proof.
  assert (Hd : DepairDataHandleType (cmd (Toy.push_meta 1))
               = Ok {| requestType := kRowSparsePushPull; dtype := 0 |})
    by (vm_compute; reflexivity).
  split; [reflexivity|]. split; [exact Hd|].
  apply (proj1 (LeMethod_accepts_only_dense (env := Toy.collaborators true false)
                  (Toy.push_meta 1) {| keys := [7]; vals := []; lens := [0] |}
                  (Toy.server Toy.f16_pending_7) _ eq_refl Hd)).
  discriminate.
Defined.

Lemma pull_before_push_fails_witness :
  store_ (fields (Toy.server (Toy.no_fields true false None))) !! 5 = None /\
  DefaultStorageResponse (env := Toy.collaborators false false)
    {| requestType := kDefaultPushPull; dtype := 0 |} 5 (Toy.pull_meta 0)
    {| keys := [5]; vals := []; lens := [] |}
    (Toy.server (Toy.no_fields true false None))
  = Fatal Check_init_first /\
  DataHandleRowSparse (env := Toy.collaborators false false)
    {| requestType := kRowSparsePushPull; dtype := 0 |} (Toy.pull_meta 1)
    {| keys := [5; 6]; vals := []; lens := [] |}
    (Toy.server (Toy.no_fields true false None))
  = Fatal Check_init_first.
Proof.
  assert (Hs : store_ (fields (Toy.server (Toy.no_fields true false None))) !! 5 = None)
    by reflexivity.
  split; [exact Hs|].
  destruct (pull_before_push_fails (env := Toy.collaborators false false)
              {| requestType := kDefaultPushPull; dtype := 0 |} 5 (Toy.pull_meta 0)
              {| keys := [5]; vals := []; lens := [] |}
              (Toy.server (Toy.no_fields true false None)) Hs) as (H1 & _).
  split; [exact H1|].
  destruct (pull_before_push_fails (env := Toy.collaborators false false)
              {| requestType := kRowSparsePushPull; dtype := 0 |} 5 (Toy.pull_meta 1)
              {| keys := [5; 6]; vals := []; lens := [] |}
              (Toy.server (Toy.no_fields true false None)) Hs) as (_ & _ & _ & H4).
  apply (H4 5 [6]); [reflexivity | reflexivity | discriminate | simpl; lia | reflexivity].
Defined.

Lemma RowSparsePullResponse_rows_witness :
  push (Toy.pull_meta 5) = false /\
  store_ (fields (Toy.server Toy.f16_pending_7)) !! 7 = Some (Toy.rsp_f16 Toy.bytes4) /\
  DataHandleRowSparse (env := Toy.collaborators false false)
    {| requestType := kRowSparsePushPull; dtype := 2 |} (Toy.pull_meta 5)
    {| keys := [7; 8; 7]; vals := []; lens := [] |} (Toy.server Toy.f16_pending_7)
  = Ok (tt, mkServer (exec_ (Toy.server Toy.f16_pending_7))
              (set_calls
                 [ResponseData (Toy.pull_meta 5)
                    {| keys := [7; 8; 7];
                       vals := [Byte.x0c; Byte.x0d; Byte.x0a; Byte.x0b];
                       lens := [0; 1; 1] |}]
                 Toy.f16_pending_7)) /\
  DataHandleRowSparse (env := Toy.collaborators false false)
    {| requestType := kRowSparsePushPull; dtype := 2 |} (Toy.pull_meta 5)
    {| keys := [7; 9]; vals := []; lens := [] |} (Toy.server Toy.f16_pending_7)
  = Undefined.
Proof.
  assert (Hp : push (Toy.pull_meta 5) = false) by reflexivity.
  assert (Hs : store_ (fields (Toy.server Toy.f16_pending_7)) !! 7
               = Some (Toy.rsp_f16 Toy.bytes4)) by reflexivity.
  split; [exact Hp|]. split; [exact Hs|]. split.
  - destruct (RowSparsePullResponse_rows (env := Toy.collaborators false false)
                {| requestType := kRowSparsePushPull; dtype := 2 |} (Toy.pull_meta 5)
                {| keys := [7; 8; 7]; vals := []; lens := [] |}
                (Toy.server Toy.f16_pending_7) 7 [8; 7] Hp eq_refl)
      as (H1 & _ & H3); [simpl; lia|].
    rewrite H1.
    assert (Hne : [8; 7] <> []) by discriminate.
    rewrite (H3 Hne (Toy.rsp_f16 Toy.bytes4) 2 Hs eq_refl). reflexivity.
  - destruct (RowSparsePullResponse_rows (env := Toy.collaborators false false)
                {| requestType := kRowSparsePushPull; dtype := 2 |} (Toy.pull_meta 5)
                {| keys := [7; 9]; vals := []; lens := [] |}
                (Toy.server Toy.f16_pending_7) 7 [9] Hp eq_refl)
      as (H1 & _ & H3); [simpl; lia|].
    rewrite H1.
    assert (Hne : [9] <> []) by discriminate.
    rewrite (H3 Hne (Toy.rsp_f16 Toy.bytes4) 2 Hs eq_refl). reflexivity.
Defined.

(** C8, the claim as stated fails: key 7 holds two rows of two bytes; a
    pull that asks for the row of key 12 (row id 5) reads two bytes at
    offset 10 of the four stored bytes.  The loop does not check the row
    id, and the run has no defined response. *)
Lemma RowSparsePullResponse_out_of_bounds_counterexample :
  store_ (fields (Toy.server Toy.f16_pending_7)) !! 7 = Some (Toy.rsp_f16 Toy.bytes4) /\
  length (dptr (Toy.rsp_f16 Toy.bytes4)) = 4%nat /\
  int_sub (DecodeKey (env := Toy.collaborators false false) 12) 7 * 2 = 10 /\
  DataHandleRowSparse (env := Toy.collaborators false false)
    {| requestType := kRowSparsePushPull; dtype := 2 |} (Toy.pull_meta 5)
    {| keys := [7; 12]; vals := []; lens := [] |} (Toy.server Toy.f16_pending_7)
  = Undefined.
Proof. repeat split; vm_compute; reflexivity. Qed.

(** * Pairing and depairing of the command number *)

Section PairingFacts.

Lemma triangle_double s : 2 * (s * (s + 1) / 2) = s * (s + 1).
Proof.
  symmetry. apply Z.div_exact; [lia|].
  destruct (Z.Even_or_Odd s) as [[k ->]|[k ->]].
  - replace (2 * k * (2 * k + 1)) with ((k * (2 * k + 1)) * 2) by ring.
    apply Z.mod_mul. lia.
  - replace ((2 * k + 1) * (2 * k + 1 + 1)) with (((2 * k + 1) * (k + 1)) * 2) by ring.
    apply Z.mod_mul. lia.
Qed.

Lemma int_id z : 0 <= z <= INT_MAX -> wrap_int z = z.
Proof. intros H. apply wrap_int_id. unfold INT_MIN, INT_MAX in *. lia. Qed.

(** C10: for each of the three request types [r] and every [d >= 0] for
    which [8 * cmd + 1] is still an [int], where [cmd] is the Cantor value
    [(m + d) * (m + d + 1) / 2 + d] of [r]'s number [m] and [d],
    [DepairDataHandleType (GetCommandType r d)] returns request type [r] and
    dtype [d]. *)
Theorem Depair_GetCommandType r d :
  r = kDefaultPushPull \/ r = kRowSparsePushPull \/ r = kCompressedPushPull ->
  0 <= d ->
  8 * ((RequestType_to_int r + d) * (RequestType_to_int r + d + 1) / 2 + d) + 1
    <= INT_MAX ->
  DepairDataHandleType (GetCommandType r d)
  = Ok {| requestType := r; dtype := d |}.
Proof.
  intros Hr Hd Hmax.
  set (m := RequestType_to_int r) in *.
  assert (Hm : 0 <= m <= 2 /\ RequestType_of_int m = r).
  { destruct Hr as [-> | [-> | ->]]; vm_compute; repeat split; congruence. }
  destruct Hm as [Hm Hof].
  set (s := m + d) in *.
  pose proof (triangle_double s) as Htri.
  set (tri := s * (s + 1) / 2) in *.
  assert (Hs : 0 <= s) by lia.
  assert (Htri0 : 0 <= tri) by nia.
  assert (Hcmd : GetCommandType r d = tri + d).
  { unfold GetCommandType, int_add, int_mul, int_div. fold m. fold s.
    rewrite (int_id s) by nia.
    rewrite (int_id (s + 1)) by nia.
    rewrite (int_id (s * (s + 1))) by nia.
    rewrite Z.quot_div_nonneg by nia. fold tri.
    rewrite (int_id tri) by lia. apply int_id. lia. }
  unfold DepairDataHandleType. rewrite Hcmd.
  rewrite (Depair_root_exact (tri + d) s) by nia.
  unfold int_add, int_mul, int_div, int_sub.
  rewrite (int_id (s * s)) by nia.
  rewrite (int_id (s * s + s)) by nia.
  rewrite Z.quot_div_nonneg by nia.
  replace (s * s + s) with (s * (s + 1)) by ring. fold tri.
  rewrite (int_id tri) by lia.
  replace (tri + d - tri) with d by lia.
  rewrite (int_id d) by lia.
  replace (s - d) with m by lia.
  rewrite (int_id m) by (unfold INT_MAX; lia).
  destruct (0 <=? m) eqn:H1; [|apply Z.leb_gt in H1; lia].
  destruct (0 <=? d) eqn:H2; [|apply Z.leb_gt in H2; lia].
  simpl. by rewrite Hof.
Qed.

End PairingFacts.

(** C10, as the claim bounds it: dtype 32768 pairs with request type 0 to
    536920064, which is an [int] (and so is every intermediate value of the
    pairing), but [8 * cmd + 1] wraps around to 393217 and the depairing
    trips [CHECK_GE(x, 0)]. *)
Lemma Depair_overflow_counterexample :
  0 <= 32768 /\
  (0 + 32768) * (0 + 32768 + 1) <= INT_MAX /\
  GetCommandType kDefaultPushPull 32768 = 536920064 /\
  536920064 <= INT_MAX /\
  int_add (int_mul 8 536920064) 1 = 393217 /\
  DepairDataHandleType (GetCommandType kDefaultPushPull 32768)
  = Fatal Check_Depair_x_ge_0.
Proof. vm_compute. repeat split; congruence. Qed.

Lemma Depair_GetCommandType_witness :
  DepairDataHandleType (GetCommandType kCompressedPushPull 16000)
  = Ok {| requestType := kCompressedPushPull; dtype := 16000 |}.
Proof.
  apply (Depair_GetCommandType kCompressedPushPull 16000).
  - right. right. reflexivity.
  - lia.
  - vm_compute. congruence.
Defined.

(** * The order in which the executor runs what it is given *)

Section ExecutorOrder.
Context {W : Type}.
Import Executor.
Implicit Type e : Executor W.

(** The functions [gs] run one after the other. *)
Fixpoint run_all (gs : list (Func W)) (w : W) : result W :=
  match gs with
  | [] => Ok w
  | g :: rest =>
      match g w with
      | Ok w' => run_all rest w'
      | Fatal c => Fatal c
      | Blocked => Blocked
      | Undefined => Undefined
      end
  end.

(** The loop of [Start] on a queue of functions that all return: they run
    in the order of the queue and each promise is set. *)
Lemma Start_run_queue (q : list (Block W)) :
  forall (gs : list (Func W)) fuel e w w',
    in_Start e = true ->
    queue_ e = q ->
    map f q = map Some gs ->
    (length q <= fuel)%nat ->
    run_all gs w = Ok w' ->
    Start_run fuel e w
    = Ok ({| queue_ := []; fulfilled := rev (map p q) ++ fulfilled e;
             next_promise := next_promise e; in_Start := true |}, w').
Proof.
  induction q as [|blk q IH]; intros gs fuel e w w' Hs Hq Hf Hfuel Hrun.
  - destruct gs; [|done]. simpl in Hrun. inversion Hrun; subst.
    destruct fuel; simpl.
    + destruct e; simpl in *. by subst.
    + unfold Start_step. rewrite Hs, Hq. destruct e; simpl in *. by subst.
  - destruct gs as [|g gs]; [done|]. simpl in Hf. inversion Hf as [[Hg Hrest]].
    destruct fuel as [|fuel]; [simpl in Hfuel; lia|].
    simpl in Hrun. destruct (g w) as [w1| | |] eqn:Hgw; try done.
    simpl. unfold Start_step. rewrite Hs, Hq, Hg, Hgw.
    erewrite (IH gs fuel _ w1 w'); simpl; try done; [|simpl in Hfuel; lia].
    simpl. by rewrite <- app_assoc.
Qed.

(** X5: [Exec] is served in turn: when a thread is in [Start] and the queue
    holds functions that were handed in before, these run first, in the
    order they were queued, then the function of this call; when [Exec]
    returns, the queue is empty and every promise is set. *)
Theorem Exec_runs_in_order (gs : list (Func W)) (func : Func W) e w w1 w2 :
  in_Start e = true ->
  map f (queue_ e) = map Some gs ->
  run_all gs w = Ok w1 ->
  func w1 = Ok w2 ->
  Exec (Some func) e w
  = Ok ({| queue_ := [];
           fulfilled := next_promise e :: rev (map p (queue_ e)) ++ fulfilled e;
           next_promise := S (next_promise e);
           in_Start := true |}, w2).
Proof.
  intros Hs Hf Hrun Hfunc. unfold Exec, Exec_push.
  erewrite (Start_run_queue _ (gs ++ [func])); simpl; try done.
  - unfold promise_set. simpl.
    rewrite map_app, rev_app_distr. simpl. by rewrite Nat.eqb_refl.
  - rewrite !map_app, Hf. reflexivity.
  - clear Hf. revert w Hrun. induction gs as [|g gs IH]; intros w Hrun; simpl in *.
    + inversion Hrun; subst. by rewrite Hfunc.
    + destruct (g w); try done. by apply IH.
Qed.

End ExecutorOrder.

Lemma Exec_runs_in_order_witness :
  Executor.Exec (Some (fun n : nat => Ok (n * 2)%nat))
    {| Executor.queue_ := [ {| Executor.f := Some (fun n => Ok (n + 1)%nat); Executor.p := 0 |} ];
       Executor.fulfilled := []; Executor.next_promise := 1;
       Executor.in_Start := true |} 5%nat
  = Ok ({| Executor.queue_ := []; Executor.fulfilled := [1; 0]%nat;
           Executor.next_promise := 2; Executor.in_Start := true |}, 12%nat).
Proof.
  exact (Exec_runs_in_order [fun n => Ok (n + 1)%nat] (fun n => Ok (n * 2)%nat)
           {| Executor.queue_ := [ {| Executor.f := Some (fun n => Ok (n + 1)%nat);
                                      Executor.p := 0%nat |} ];
              Executor.fulfilled := []; Executor.next_promise := 1;
              Executor.in_Start := true |}
           5%nat 6%nat 12%nat eq_refl eq_refl eq_refl eq_refl).
Defined.

Lemma Exec_without_Start_blocks_witness :
  Executor.Exec (Some (fun n : nat => Ok n)) Executor.new_Executor 0%nat = Blocked.
Proof.
  apply (Exec_without_Start_blocks (Some (fun n : nat => Ok n)) Executor.new_Executor 0%nat).
  - split; simpl; intros ? [].
  - reflexivity.
Defined.

Lemma Stop_idle_returns_witness :
  Executor.Stop (Executor.enter_Start Executor.new_Executor) 7%nat
  = Ok ({| Executor.queue_ := []; Executor.fulfilled := [0%nat];
           Executor.next_promise := 1; Executor.in_Start := false |}, 7%nat).
Proof.
  apply (Stop_idle_returns (Executor.enter_Start Executor.new_Executor) 7%nat).
  split; reflexivity.
Defined.

(** * Facts about the worker pool *)

Arguments ThreadPool.Returns {A} a.
Arguments ThreadPool.Throws {A} e.

Section ThreadPoolFacts.
Context {Task : Type}.
Import ThreadPool.
Implicit Type pool : MyThreadPool Task.

Lemma join_all_Returns (ws ws' : list Worker) :
  join_all ws = Returns ws' ->
  Forall (fun wk => joinable wk = true) ws /\
  ws' = map (fun _ => {| running := false; joinable := false |}) ws.
Proof.
  revert ws'. induction ws as [|wk ws IH]; intros ws' H; simpl in H.
  - inversion H. by split.
  - destruct (joinable wk) eqn:Hj; [|done].
    destruct (join_all ws) as [r|]; [|done].
    inversion H; subst. destruct (IH r eq_refl) as [H1 ->].
    split; [by constructor | done].
Qed.

Lemma join_all_joinable (ws : list Worker) :
  Forall (fun wk => joinable wk = true) ws ->
  join_all ws = Returns (map (fun _ => {| running := false; joinable := false |}) ws).
Proof.
  induction 1 as [|wk ws Hj _ IH]; simpl; [done|]. by rewrite Hj, IH.
Qed.

Lemma Stop_Returns_inv pool pool' :
  Stop pool = Returns pool' ->
  stop pool' = true /\
  workers pool'
  = map (fun _ => {| running := false; joinable := false |}) (workers pool) /\
  taken pool' ++ tasks pool' = taken pool ++ tasks pool /\
  (existsb running (workers pool) = true ->
   tasks pool' = [] /\ taken pool' = taken pool ++ tasks pool).
Proof.
  unfold Stop. intros H.
  destruct (join_all _) as [ws|] eqn:Hj; [|done].
  inversion H; subst; clear H. simpl.
  apply join_all_Returns in Hj as [_ ->].
  split; [done|]. unfold workers_drain. simpl.
  destruct (existsb running (workers pool)); simpl.
  - rewrite map_map, app_nil_r. done.
  - done.
Qed.

Lemma Stop_joinable pool :
  Forall (fun wk => joinable wk = true) (workers pool) ->
  exists pool', Stop pool = Returns pool'.
Proof.
  intros Hj. unfold Stop.
  rewrite join_all_joinable; [eauto|].
  apply List.Forall_forall. intros wk Hwk.
  unfold workers_drain in Hwk. simpl in Hwk.
  rewrite List.Forall_forall in Hj.
  destruct (existsb running (workers pool)); simpl in Hwk; [|by apply Hj].
  apply in_map_iff in Hwk as (wk0 & <- & Hin). simpl. by apply Hj.
Qed.

(** X8: What a [Stop] that returns leaves behind: [stop] is set, every worker
    has been joined, and no task is lost; when a worker was running, the
    queue has been emptied, its tasks taken in the order they were
    queued. *)
Theorem Stop_drains_the_queue pool pool' :
  Stop pool = Returns pool' ->
  stop pool' = true /\
  Forall (fun wk => running wk = false /\ joinable wk = false) (workers pool') /\
  length (workers pool') = length (workers pool) /\
  taken pool' ++ tasks pool' = taken pool ++ tasks pool /\
  (existsb running (workers pool) = true ->
   tasks pool' = [] /\ taken pool' = taken pool ++ tasks pool).
Proof.
  intros H. apply Stop_Returns_inv in H as (H1 & H2 & H3 & H4).
  split; [done|]. rewrite H2. split.
  { apply List.Forall_forall. intros wk Hwk. apply in_map_iff in Hwk as (? & <- & _). done. }
  split; [apply length_map|]. by split.
Qed.

(** X9: A pool with at least one worker can be stopped once only.  After a
    [Stop] that returned, [enqueue] throws
    ["enqueue on stopped MyThreadPool"]; and since [Stop] leaves the
    joined threads in [workers], a second [Stop] (the destructor calls it)
    and [set_max_thread_num] (which starts with [Stop]) join a thread that
    is not joinable, and throw: the pool cannot be started again. *)
Theorem Stop_twice_throws pool pool' (task : Task) (maxThreadNum : nat) :
  workers pool <> [] ->
  Stop pool = Returns pool' ->
  enqueue task pool' = Throws runtime_error_enqueue_on_stopped /\
  Stop pool' = Throws system_error_join /\
  set_max_thread_num maxThreadNum pool' = Throws system_error_join.
Proof.
  intros Hne H. apply Stop_Returns_inv in H as (H1 & H2 & _).
  assert (Hs : Stop pool' = Throws system_error_join).
  { unfold Stop, workers_drain. simpl. rewrite H2.
    destruct (workers pool) as [|wk0 ws0]; [done|]. simpl.
    by destruct (existsb _ _). }
  split; [unfold enqueue; by rewrite H1|].
  split; [done|]. unfold set_max_thread_num. by rewrite Hs.
Qed.

(** X10: [set_max_thread_num] on a pool whose threads are all joinable
    returns: the pool has [maxThreadNum] new workers and takes tasks
    again, and no task that was queued is lost. *)
Theorem set_max_thread_num_restarts pool (maxThreadNum : nat) :
  Forall (fun wk => joinable wk = true) (workers pool) ->
  exists pool',
    set_max_thread_num maxThreadNum pool = Returns pool' /\
    workers pool' = replicate maxThreadNum {| running := true; joinable := true |} /\
    stop pool' = false /\
    taken pool' ++ tasks pool' = taken pool ++ tasks pool /\
    forall task, enqueue task pool'
                 = Returns {| workers := workers pool'; tasks := tasks pool' ++ [task];
                              stop := false; taken := taken pool' |}.
Proof.
  intros Hj. unfold set_max_thread_num.
  destruct (Stop_joinable pool Hj) as [pool1 Hs]. rewrite Hs.
  apply Stop_Returns_inv in Hs as (_ & _ & Hk & _).
  eexists. split; [done|]. simpl. repeat split; done.
Qed.

(** X11: The pool of the server: constructed with one thread, and given one
    thread again by the constructor of [KVStoreDistServer] under LeMethod;
    neither call throws, and a task that is enqueued then is taken by the
    worker. *)
Theorem new_pool_takes_tasks (threads maxThreadNum : nat) (task : Task) :
  (0 < maxThreadNum)%nat ->
  exists pool0 pool1 pool2 pool3,
    new_MyThreadPool threads = Returns pool0 /\
    set_max_thread_num maxThreadNum pool0 = Returns pool1 /\
    enqueue task pool1 = Returns pool2 /\
    worker_step pool2 = Some pool3 /\
    tasks pool3 = [] /\ taken pool3 = [task].
Proof.
  intros Hn. destruct maxThreadNum as [|n]; [lia|].
  unfold new_MyThreadPool, set_max_thread_num at 2. simpl.
  set (pool0 := {| workers := replicate threads {| running := true; joinable := true |};
                   tasks := []; stop := false; taken := @nil Task |}).
  assert (Hj : Forall (fun wk => joinable wk = true) (workers pool0)).
  { apply Forall_forall. intros wk Hwk.
    apply elem_of_replicate in Hwk as [-> _]. done. }
  destruct (Stop_joinable pool0 Hj) as [pool0' Hs].
  pose proof (Stop_Returns_inv _ _ Hs) as (_ & _ & Hk & _).
  simpl in Hk. apply app_eq_nil in Hk as [Ht Hq].
  eexists pool0, _, _, _. split; [done|].
  unfold set_max_thread_num. rewrite Hs, Ht, Hq.
  split; [done|]. split; [done|]. simpl. done.
Qed.

End ThreadPoolFacts.

Lemma Stop_drains_the_queue_witness :
  let pool := {| ThreadPool.workers := [ {| ThreadPool.running := true; ThreadPool.joinable := true |} ];
                 ThreadPool.tasks := [1; 2; 3]%nat; ThreadPool.stop := false;
                 ThreadPool.taken := [0%nat] |} in
  let pool' := {| ThreadPool.workers := [ {| ThreadPool.running := false; ThreadPool.joinable := false |} ];
                  ThreadPool.tasks := []; ThreadPool.stop := true;
                  ThreadPool.taken := [0; 1; 2; 3]%nat |} in
  ThreadPool.stop pool' = true /\
  Forall (fun wk => ThreadPool.running wk = false /\ ThreadPool.joinable wk = false)
         (ThreadPool.workers pool') /\
  length (ThreadPool.workers pool') = length (ThreadPool.workers pool) /\
  ThreadPool.taken pool' ++ ThreadPool.tasks pool'
    = ThreadPool.taken pool ++ ThreadPool.tasks pool /\
  (existsb ThreadPool.running (ThreadPool.workers pool) = true ->
   ThreadPool.tasks pool' = [] /\
   ThreadPool.taken pool' = ThreadPool.taken pool ++ ThreadPool.tasks pool).
Proof.
  intros pool pool'. apply (Stop_drains_the_queue pool pool'). reflexivity.
Defined.

Lemma Stop_twice_throws_witness :
  let pool' := {| ThreadPool.workers := [ {| ThreadPool.running := false; ThreadPool.joinable := false |} ];
                  ThreadPool.tasks := []; ThreadPool.stop := true;
                  ThreadPool.taken := [1%nat] |} in
  ThreadPool.enqueue 4%nat pool'
  = ThreadPool.Throws ThreadPool.runtime_error_enqueue_on_stopped /\
  ThreadPool.Stop pool' = ThreadPool.Throws ThreadPool.system_error_join /\
  ThreadPool.set_max_thread_num 1 pool' = ThreadPool.Throws ThreadPool.system_error_join.
Proof.
  intros pool'.
  apply (Stop_twice_throws
           {| ThreadPool.workers := [ {| ThreadPool.running := true; ThreadPool.joinable := true |} ];
              ThreadPool.tasks := [1%nat]; ThreadPool.stop := false; ThreadPool.taken := [] |}
           pool' 4%nat 1).
  - discriminate.
  - reflexivity.
Defined.

Lemma set_max_thread_num_restarts_witness :
  exists pool' : ThreadPool.MyThreadPool nat,
    ThreadPool.set_max_thread_num 2
      {| ThreadPool.workers := [ {| ThreadPool.running := true; ThreadPool.joinable := true |} ];
         ThreadPool.tasks := [1%nat]; ThreadPool.stop := false; ThreadPool.taken := [] |}
    = ThreadPool.Returns pool' /\
    ThreadPool.workers pool'
    = replicate 2 {| ThreadPool.running := true; ThreadPool.joinable := true |} /\
    ThreadPool.stop pool' = false /\
    ThreadPool.taken pool' ++ ThreadPool.tasks pool' = [] ++ [1%nat] /\
    forall task, ThreadPool.enqueue task pool'
                 = ThreadPool.Returns
                     {| ThreadPool.workers := ThreadPool.workers pool';
                        ThreadPool.tasks := ThreadPool.tasks pool' ++ [task];
                        ThreadPool.stop := false; ThreadPool.taken := ThreadPool.taken pool' |}.
Proof.
  apply (set_max_thread_num_restarts
           {| ThreadPool.workers := [ {| ThreadPool.running := true; ThreadPool.joinable := true |} ];
              ThreadPool.tasks := [1%nat]; ThreadPool.stop := false; ThreadPool.taken := [] |} 2).
  repeat constructor.
Defined.

Lemma new_pool_takes_tasks_witness :
  exists pool0 pool1 pool2 pool3 : ThreadPool.MyThreadPool nat,
    ThreadPool.new_MyThreadPool 1 = ThreadPool.Returns pool0 /\
    ThreadPool.set_max_thread_num 1 pool0 = ThreadPool.Returns pool1 /\
    ThreadPool.enqueue 8%nat pool1 = ThreadPool.Returns pool2 /\
    ThreadPool.worker_step pool2 = Some pool3 /\
    ThreadPool.tasks pool3 = [] /\ ThreadPool.taken pool3 = [8%nat].
Proof.
  apply (new_pool_takes_tasks 1 1 8%nat). lia.
Defined.

(** * The messages of model distribution *)

Section ModelDistributionMessages.
Variables UNKNOWN QUIT my_node_id clock_den : Z.
Import ModelDistribution.

#[local] Abbreviation distribute := (distribute QUIT my_node_id clock_den).
#[local] Abbreviation ModelDistribution :=
  (ModelDistribution UNKNOWN QUIT my_node_id clock_den).
#[local] Abbreviation turns := (turns QUIT).

(** The message of the turn with receiver [r]. *)
Definition message_to (reqMeta : KVMeta) (kvs : KVPairs) (version : Z) (r : Round)
    : Message :=
  {| msg_sender := my_node_id; msg_timestamp := timestamp reqMeta;
     msg_key := meta_key reqMeta; msg_version := version;
     msg_recver := receiver r; msg_data := kvs |}.

Fixpoint replies (l : list VanCall) : nat :=
  match l with
  | [] => O
  | WaitForModelDistributionReply :: rest => S (replies rest)
  | _ :: rest => replies rest
  end.

Lemma distribute_sent reqMeta kvs it rounds :
  forall lastBandwidth lastReceiver l,
    distribute rounds reqMeta kvs it lastBandwidth lastReceiver = Ok l ->
    sent l = map (message_to reqMeta kvs it) (turns rounds) /\
    replies l = length (turns rounds) /\
    length (oracle_calls l) = S (length (turns rounds)).
Proof.
  induction rounds as [|r0 rest IH]; intros b0 r0' l Hl; simpl in Hl.
  - by inversion Hl.
  - simpl. destruct (receiver r0 =? QUIT) eqn:Hq.
    + by inversion Hl.
    + destruct (bandwidth clock_den (startTime r0) (endTime r0))
        as [bw| | |] eqn:Hbw; try done.
      destruct (distribute rest reqMeta kvs it bw (receiver r0))
        as [more| | |] eqn:Hmore; try done.
      inversion Hl; subst; clear Hl. simpl.
      destruct (IH _ _ _ Hmore) as (H1 & H2 & H3).
      by rewrite H1, H2, H3.
Qed.

(** X12: When [ModelDistribution] returns, it has sent one message per turn
    before the van answered [QUIT], in the order of the turns: each goes
    to the receiver of its turn and carries the data [kvs], the key and
    timestamp of the request and, as version, the iteration counter after
    its increment; every send is followed by one wait for the reply, and
    the van is asked for a receiver once more than there are turns. *)
Theorem ModelDistribution_messages reqMeta kvs rounds iteration_ it l :
  ModelDistribution reqMeta kvs rounds iteration_ = Ok (it, l) ->
  it = int_add iteration_ 1 /\
  sent l = map (message_to reqMeta kvs it) (turns rounds) /\
  replies l = length (turns rounds) /\
  length (oracle_calls l) = S (length (turns rounds)).
Proof.
  unfold ModelDistribution.ModelDistribution.
  destruct (distribute _ _ _ _ _ _) as [l'| | |] eqn:Hd; try done.
  intros H; inversion H; subst; clear H.
  split; [done|]. by eapply distribute_sent.
Qed.

End ModelDistributionMessages.

Lemma ModelDistribution_messages_witness :
  1 = int_add 0 1 /\
  ModelDistribution.sent
    [ModelDistribution.GetModelReceiver (-1) (-1) 1;
     ModelDistribution.Send
       (ModelDistribution.mkMessage 8 0 7 1 10 (mkKVPairs [7] [] [0]));
     ModelDistribution.WaitForModelDistributionReply;
     ModelDistribution.GetModelReceiver (-1) 10 1]
  = [ModelDistribution.mkMessage 8 0 7 1 10 (mkKVPairs [7] [] [0])] /\
  replies
    [ModelDistribution.GetModelReceiver (-1) (-1) 1;
     ModelDistribution.Send
       (ModelDistribution.mkMessage 8 0 7 1 10 (mkKVPairs [7] [] [0]));
     ModelDistribution.WaitForModelDistributionReply;
     ModelDistribution.GetModelReceiver (-1) 10 1] = 1%nat /\
  length (ModelDistribution.oracle_calls
    [ModelDistribution.GetModelReceiver (-1) (-1) 1;
     ModelDistribution.Send
       (ModelDistribution.mkMessage 8 0 7 1 10 (mkKVPairs [7] [] [0]));
     ModelDistribution.WaitForModelDistributionReply;
     ModelDistribution.GetModelReceiver (-1) 10 1]) = 2%nat.
Proof.
  apply (ModelDistribution_messages (-1) (-2) 8 1000000000
           (mkKVMeta 0 true false 9 0 7 1 0 0) (mkKVPairs [7] [] [0])
           [ModelDistribution.mkRound 10 0 1500; ModelDistribution.mkRound (-2) 0 0] 0).
  vm_compute. reflexivity.
Defined.

(** * More about pairing and depairing *)

Section DepairFacts.

(** The integer [j = (sqrt n - 1) / 2] is the one with
    [(2j+1)^2 <= n < (2j+3)^2]. *)
Lemma odd_root_bounds n :
  1 <= n ->
  0 <= (Z.sqrt n - 1) / 2 /\
  (2 * ((Z.sqrt n - 1) / 2) + 1) * (2 * ((Z.sqrt n - 1) / 2) + 1) <= n
    < (2 * ((Z.sqrt n - 1) / 2) + 3) * (2 * ((Z.sqrt n - 1) / 2) + 3).
Proof.
  intros Hn. pose proof (Z.sqrt_spec n ltac:(lia)) as Hs. cbv zeta in Hs.
  set (s := Z.sqrt n) in *.
  assert (Hs1 : 1 <= s).
  { destruct (Z.lt_ge_cases s 1); [|done]. assert (s <= 0) by lia.
    pose proof (Z.sqrt_nonneg n). fold s in H1. assert (s = 0) by lia. subst s. lia. }
  pose proof (Z.div_mod (s - 1) 2 ltac:(lia)) as Hd.
  pose proof (Z.mod_pos_bound (s - 1) 2 ltac:(lia)) as Hb.
  set (j := (s - 1) / 2) in *.
  assert (Hj : 0 <= j) by lia.
  split; [done|]. split; nia.
Qed.

Lemma RequestType_to_of_int x : RequestType_to_int (RequestType_of_int x) = x.
Proof.
  unfold RequestType_of_int.
  destruct (x =? 0) eqn:H0; [apply Z.eqb_eq in H0; by subst|].
  destruct (x =? 1) eqn:H1; [apply Z.eqb_eq in H1; by subst|].
  destruct (x =? 2) eqn:H2; [apply Z.eqb_eq in H2; by subst|].
  reflexivity.
Qed.

(** What [DepairDataHandleType] returns once the root is known. *)
Lemma Depair_with_root cmd w :
  0 <= cmd -> 8 * cmd + 1 <= INT_MAX -> 0 <= w ->
  (2 * w + 1) * (2 * w + 1) <= 8 * cmd + 1 < (2 * w + 3) * (2 * w + 3) ->
  let y := cmd - w * (w + 1) / 2 in
  0 <= y <= w /\
  DepairDataHandleType cmd
  = Ok {| requestType := RequestType_of_int (w - y); dtype := y |}.
Proof.
  intros Hc Hmax Hw Hb y.
  pose proof (triangle_double w) as Htri.
  set (tri := w * (w + 1) / 2) in *.
  assert (Hy : 0 <= y <= w) by (unfold y; nia).
  split; [done|].
  unfold DepairDataHandleType.
  rewrite (Depair_root_exact cmd w) by done.
  unfold INT_MAX in Hmax.
  unfold int_add, int_mul, int_div, int_sub.
  rewrite (int_id (w * w)) by (unfold INT_MAX; nia).
  rewrite (int_id (w * w + w)) by (unfold INT_MAX; nia).
  rewrite Z.quot_div_nonneg by nia.
  replace (w * w + w) with (w * (w + 1)) by ring. fold tri.
  rewrite (int_id tri) by (unfold INT_MAX; nia).
  fold y. rewrite (int_id y) by (unfold INT_MAX; nia).
  rewrite (int_id (w - y)) by (unfold INT_MAX; nia).
  destruct (0 <=? w - y) eqn:H1; [|apply Z.leb_gt in H1; lia].
  destruct (0 <=? y) eqn:H2; [|apply Z.leb_gt in H2; lia].
  reflexivity.
Qed.

(** X1: The root [std::floor((std::sqrt(8 * cmd + 1) - 1) / 2)], computed in
    doubles and converted to [int], is the integer
    [(isqrt (8 * cmd + 1) - 1) / 2] for every [cmd >= 0] whose
    [8 * cmd + 1] is an [int]: the rounding of the square root never
    reaches the next integer. *)
Theorem Depair_root_is_integer_root cmd :
  0 <= cmd -> 8 * cmd + 1 <= INT_MAX ->
  Double.to_int (Depair_root cmd) = Ok ((Z.sqrt (8 * cmd + 1) - 1) / 2).
Proof.
  intros Hc Hmax.
  destruct (odd_root_bounds (8 * cmd + 1)) as [Hj Hb]; [lia|].
  by apply Depair_root_exact.
Qed.

(** X2: Pairing is a right inverse of depairing: every [cmd >= 0] whose
    [8 * cmd + 1] is an [int] depairs without tripping a [CHECK], to a
    request number [x >= 0] and a dtype [y >= 0], and
    [GetCommandType] on these gives [cmd] back. *)
Theorem GetCommandType_Depair cmd :
  0 <= cmd -> 8 * cmd + 1 <= INT_MAX ->
  exists x y,
    DepairDataHandleType cmd
    = Ok {| requestType := RequestType_of_int x; dtype := y |} /\
    0 <= x /\ 0 <= y /\
    GetCommandType (RequestType_of_int x) y = cmd.
Proof.
  intros Hc Hmax.
  destruct (odd_root_bounds (8 * cmd + 1)) as [Hj Hb]; [lia|].
  set (w := (Z.sqrt (8 * cmd + 1) - 1) / 2) in *.
  destruct (Depair_with_root cmd w Hc Hmax Hj Hb) as [Hy Hd].
  pose proof (triangle_double w) as Htri.
  set (tri := w * (w + 1) / 2) in *.
  set (y := cmd - tri) in *.
  exists (w - y), y. repeat split; [done | lia | lia |].
  unfold GetCommandType. rewrite RequestType_to_of_int.
  unfold INT_MAX in Hmax.
  assert (Htri0 : 0 <= tri) by nia.
  unfold int_add, int_mul, int_div.
  replace (w - y + y) with w by lia.
  rewrite (int_id w) by (unfold INT_MAX; nia).
  rewrite (int_id (w + 1)) by (unfold INT_MAX; nia).
  rewrite (int_id (w * (w + 1))) by (unfold INT_MAX; nia).
  rewrite Z.quot_div_nonneg by nia. fold tri.
  rewrite (int_id tri) by (unfold INT_MAX; nia).
  rewrite int_id by (unfold INT_MAX; lia). unfold y. lia.
Qed.

(** A negative integer below [2^53] in absolute value converts to a
    negative finite double. *)
Lemma of_Z_negative (p : positive) :
  Zpos p < 2 ^ 53 ->
  exists m e, Double.of_Z (Zneg p) = S754_finite true m e.
Proof.
  intros Hp. unfold Double.of_Z, binary_normalize.
  destruct (binary_round_value true p p 0 0) as (m & k & H & _);
    [done | lia | lia | simpl; lia |].
  eauto.
Qed.

(** X3: A negative command number has no depairing: [8 * cmd + 1] is
    negative, its square root is NaN, and so is the [double] that is
    converted to [int w]; the C++ semantics gives that conversion no
    meaning, and no [CHECK] comes before it. *)
Theorem Depair_negative_cmd cmd :
  INT_MIN <= 8 * cmd + 1 -> cmd < 0 ->
  Depair_root cmd = S754_nan /\ DepairDataHandleType cmd = Undefined.
Proof.
  intros Hmin Hneg.
  assert (Hr : Depair_root cmd = S754_nan).
  { unfold Depair_root, int_add, int_mul. unfold INT_MIN in Hmin.
    rewrite (wrap_int_id (8 * cmd)) by (unfold INT_MIN, INT_MAX; lia).
    rewrite wrap_int_id by (unfold INT_MIN, INT_MAX; lia).
    destruct (8 * cmd + 1) as [|p|p] eqn:Hp; try lia.
    destruct (of_Z_negative p) as (m & e & ->); [lia|]. reflexivity. }
  split; [done|]. unfold DepairDataHandleType. by rewrite Hr.
Qed.

End DepairFacts.

Section UnknownRequestType.
Context {GC : Type} {env : Collaborators GC}.

(** X4: A data request whose command number pairs a request type other than
    0, 1 and 2 with some dtype is dropped without a word (LeMethod off):
    [DataHandleEx] runs no handler for it, trips no [CHECK], changes
    nothing and makes no call, so the sender gets no response. *)
Theorem unknown_request_type_is_dropped req_meta req_data
    (s : KVStoreDistServer GC) x d :
  ENABLE_LEMETHOD = false ->
  3 <= x -> 0 <= d ->
  8 * ((x + d) * (x + d + 1) / 2 + d) + 1 <= INT_MAX ->
  cmd req_meta = (x + d) * (x + d + 1) / 2 + d ->
  DepairDataHandleType (cmd req_meta)
  = Ok {| requestType := kNoEnumerator x; dtype := d |} /\
  DataHandleEx req_meta req_data s = Ok (tt, s).
Proof.
  intros Hle Hx Hd Hmax Hcmd.
  pose proof (triangle_double (x + d)) as Htri.
  set (tri := (x + d) * (x + d + 1) / 2) in *.
  assert (Htri0 : 0 <= tri) by nia.
  destruct (Depair_with_root (tri + d) (x + d)) as [_ Hdep];
    [lia | done | lia | nia |].
  fold tri in Hdep.
  replace (tri + d - tri) with d in Hdep by lia.
  replace (x + d - d) with x in Hdep by lia.
  assert (Hof : RequestType_of_int x = kNoEnumerator x).
  { unfold RequestType_of_int.
    destruct (x =? 0) eqn:H0; [apply Z.eqb_eq in H0; lia|].
    destruct (x =? 1) eqn:H1; [apply Z.eqb_eq in H1; lia|].
    destruct (x =? 2) eqn:H2; [apply Z.eqb_eq in H2; lia|]. done. }
  rewrite Hof in Hdep. rewrite Hcmd. split; [done|].
  unfold DataHandleEx. rewrite Hcmd, Hdep, Hle. reflexivity.
Qed.

End UnknownRequestType.

Lemma Depair_root_is_integer_root_witness :
  Double.to_int (Depair_root 268435455) = Ok 23169.
Proof.
  apply (Depair_root_is_integer_root 268435455); vm_compute; congruence.
Defined.

Lemma GetCommandType_Depair_witness :
  exists x y,
    DepairDataHandleType 7
    = Ok {| requestType := RequestType_of_int x; dtype := y |} /\
    0 <= x /\ 0 <= y /\
    GetCommandType (RequestType_of_int x) y = 7.
Proof.
  apply (GetCommandType_Depair 7); vm_compute; congruence.
Defined.

Lemma Depair_negative_cmd_witness :
  Depair_root (-1) = S754_nan /\ DepairDataHandleType (-1) = Undefined.
Proof.
  apply (Depair_negative_cmd (-1)); vm_compute; congruence.
Defined.

Lemma unknown_request_type_is_dropped_witness :
  DepairDataHandleType (cmd (Toy.push_meta 6))
  = Ok {| requestType := kNoEnumerator 3; dtype := 0 |} /\
  DataHandleEx (env := Toy.collaborators false false) (Toy.push_meta 6)
    {| keys := [5]; vals := Toy.bytes8; lens := [8] |}
    (Toy.server (Toy.no_fields false false None))
  = Ok (tt, Toy.server (Toy.no_fields false false None)).
Proof.
  apply (unknown_request_type_is_dropped (env := Toy.collaborators false false)
           (Toy.push_meta 6) {| keys := [5]; vals := Toy.bytes8; lens := [8] |}
           (Toy.server (Toy.no_fields false false None)) 3 0).
  - reflexivity.
  - lia.
  - lia.
  - vm_compute. congruence.
  - reflexivity.
Defined.

(** * What the handlers leave as it is *)

Section Settled.
Context {W : Type}.
Import Executor.
Implicit Type e : Executor W.

(** The executor between two requests: nothing is queued. *)
Definition settled e : Prop := queue_ e = [] /\ promises_fresh e.

Lemma Exec_settled (func : Func W) e w e' w' :
  settled e ->
  Exec (Some func) e w = Ok (e', w') ->
  settled e' /\ in_Start e = true /\
  ((func w = Ok w' /\ in_Start e' = true) \/
   ((exists c, func w = Fatal c) /\ w' = w /\ in_Start e' = false)).
Proof.
  intros [Hq Hf] H.
  destruct (in_Start e) eqn:Hs.
  2:{ by rewrite Exec_without_Start_blocks in H. }
  unfold Exec, Exec_push in H. rewrite Hq in H. simpl in H.
  unfold Start_step in H. simpl in H. rewrite Hs in H. simpl in H.
  assert (Hfresh : forall i, settled {| queue_ := []; fulfilled := next_promise e :: fulfilled e;
                                        next_promise := S (next_promise e); in_Start := i |}).
  { intros i. split; [done|]. split; simpl.
    - intros n [<-|Hn]; [lia|]. destruct Hf as [Hf _]. specialize (Hf n Hn). lia.
    - intros blk []. }
  destruct (func w) as [w1| c | |] eqn:Hfw; try done.
  - unfold promise_set in H. simpl in H. rewrite Nat.eqb_refl in H. simpl in H.
    inversion H; subst; clear H.
    split; [apply Hfresh|]. split; [done|]. left. done.
  - unfold Start_step in H. simpl in H.
    unfold promise_set in H. simpl in H. rewrite Nat.eqb_refl in H. simpl in H.
    inversion H; subst; clear H.
    split; [apply Hfresh|]. split; [done|]. right. split; [by exists c|done].
Qed.

Lemma Stop_settled e w e' w' :
  settled e ->
  Stop e w = Ok (e', w') ->
  w' = w /\ settled e' /\ in_Start e = true /\ in_Start e' = false.
Proof.
  intros [Hq Hf] H.
  destruct (in_Start e) eqn:Hs.
  2:{ unfold Stop in H. by rewrite Exec_without_Start_blocks in H. }
  unfold Stop, Exec, Exec_push in H. rewrite Hq in H. simpl in H.
  unfold Start_step in H. simpl in H. rewrite Hs in H. simpl in H.
  unfold promise_set in H. simpl in H. rewrite Nat.eqb_refl in H. simpl in H.
  inversion H; subst; clear H.
  split; [done|]. split; [|done]. split; [done|]. split; simpl.
  - intros n [<-|Hn]; [lia|]. destruct Hf as [Hf _]. specialize (Hf n Hn). lia.
  - intros blk [].
Qed.

End Settled.

Section Keeps.
Context {GC : Type} {env : Collaborators GC}.
Implicit Type s : KVStoreDistServer GC.
Implicit Type w : Fields GC.

(** The configuration of the server, and the calls made so far, are kept:
    the mode flags, the controller and the updater, the gradient codec and
    the decompression buffers are as before, the handler has not written
    the iteration counter (which belongs to the tasks of the pool), and the
    list of calls has only grown. *)
Definition config_kept w w' : Prop :=
  sync_mode_ w' = sync_mode_ w /\
  multi_precision_ w' = multi_precision_ w /\
  controller_ w' = controller_ w /\
  updater_ w' = updater_ w /\
  gradient_compression_ w' = gradient_compression_ w /\
  decomp_buf_ w' = decomp_buf_ w /\
  iteration_ w' = iteration_ w /\
  exists l, calls w' = calls w ++ l.

(** A computation that, started with nothing queued in the executor and
    no decompression buffer, leaves the executor so, brings no thread into
    [Start], and keeps the configuration. *)
Definition keeps {A} (m : M GC A) : Prop :=
  forall s a s',
    settled (exec_ s) -> decomp_buf_ (fields s) = ∅ ->
    m s = Ok (a, s') ->
    settled (exec_ s') /\
    (Executor.in_Start (exec_ s') = true -> Executor.in_Start (exec_ s) = true) /\
    config_kept (fields s) (fields s').

Lemma config_kept_refl w : config_kept w w.
Proof. repeat split; try done. exists []. by rewrite app_nil_r. Qed.

Lemma config_kept_trans w1 w2 w3 :
  config_kept w1 w2 -> config_kept w2 w3 -> config_kept w1 w3.
Proof.
  intros (A1 & A2 & A3 & A4 & A5 & A6 & A7 & l1 & A8)
         (B1 & B2 & B3 & B4 & B5 & B6 & B7 & l2 & B8).
  repeat split; try congruence.
  exists (l1 ++ l2). rewrite B8, A8. by rewrite app_assoc.
Qed.

Lemma keeps_pure {A} (m : M GC A) :
  (forall s a s', m s = Ok (a, s') -> s' = s) -> keeps m.
Proof.
  intros H s a s' Hs Hd Hm. apply H in Hm. subst.
  split; [done|]. split; [done|]. apply config_kept_refl.
Qed.

Lemma keeps_ret {A} (a : A) : keeps (ret a).
Proof. apply keeps_pure. intros s b s' H. by inversion H. Qed.

Lemma keeps_fatal {A} c : keeps (@fatal GC A c).
Proof. by apply keeps_pure. Qed.

Lemma keeps_undefined {A} : keeps (@undefined GC A).
Proof. by apply keeps_pure. Qed.

Lemma keeps_CHECK b c : keeps (@CHECK GC b c).
Proof. destruct b; [apply keeps_ret | apply keeps_fatal]. Qed.

Lemma keeps_lift {A} (r : result A) : keeps (@lift GC A r).
Proof. apply keeps_pure. intros s a s' H. destruct r; try done. by inversion H. Qed.

Lemma keeps_index {A} (l : list A) i : keeps (@index GC A l i).
Proof. unfold index. destruct (l !! i); [apply keeps_ret | apply keeps_undefined]. Qed.

Lemma keeps_sizeof_ dt : keeps (sizeof_ dt).
Proof. unfold sizeof_. destruct (mshadow_sizeof dt); [apply keeps_ret | apply keeps_fatal]. Qed.

Lemma keeps_read_bytes p off len : keeps (@read_bytes GC p off len).
Proof. unfold read_bytes. destruct (_ && _); [apply keeps_ret | apply keeps_undefined]. Qed.

Lemma keeps_bind {A B} (m : M GC A) (k : A -> M GC B) :
  keeps m -> (forall a, keeps (k a)) -> keeps (bind m k).
Proof.
  intros Hm Hk s b s' Hs Hd H.
  apply bind_Ok in H as (a & s1 & H1 & H2).
  destruct (Hm _ _ _ Hs Hd H1) as (Hs1 & Hi1 & Hc1).
  assert (Hd1 : decomp_buf_ (fields s1) = ∅).
  { destruct Hc1 as (_ & _ & _ & _ & _ & -> & _). done. }
  destruct (Hk a _ _ _ Hs1 Hd1 H2) as (Hs2 & Hi2 & Hc2).
  split; [done|]. split; [tauto|]. by eapply config_kept_trans.
Qed.

Lemma keeps_get_bind {B} (k : Fields GC -> M GC B) :
  (forall w, decomp_buf_ w = ∅ -> keeps (k w)) -> keeps (bind get k).
Proof.
  intros Hk s b s' Hs Hd H. unfold bind, get in H.
  by apply (Hk (fields s) Hd s b s').
Qed.

Lemma keeps_modify (g : Fields GC -> Fields GC) :
  (forall w, config_kept w (g w)) -> keeps (modify g).
Proof.
  intros Hg s a s' Hs Hd H. inversion H; subst; clear H. simpl.
  split; [done|]. split; [done|]. apply Hg.
Qed.

Lemma keeps_emit ev : keeps (@emit GC ev).
Proof.
  apply keeps_modify. intros w. repeat split; try done. by exists [ev].
Qed.

Lemma keeps_for_each {A} (l : list A) (body : A -> M GC unit) :
  (forall x, keeps (body x)) -> keeps (for_each l body).
Proof.
  intros Hb. induction l as [|x l IH]; simpl.
  - apply keeps_ret.
  - apply keeps_bind; [apply Hb | intros _; apply IH].
Qed.

Lemma keeps_exec_Exec (func : Executor.Func (Fields GC)) :
  (forall w w', func w = Ok w' -> config_kept w w') -> keeps (exec_Exec func).
Proof.
  intros Hf s a s' Hs Hd H. unfold exec_Exec in H.
  destruct (Executor.Exec _ _ _) as [[e w]| | |] eqn:He; try done.
  inversion H; subst; clear H. simpl.
  apply Exec_settled in He; [|done].
  destruct He as (Hs' & Hi & [[Hfw _]|[_ [-> _]]]).
  - split; [done|]. split; [done|]. by apply Hf.
  - split; [done|]. split; [done|]. apply config_kept_refl.
Qed.

End Keeps.

(** Settles [config_kept w (g w)] for a [g] made of field updates. *)
Ltac config_tac :=
  intros; fsimpl;
  repeat match goal with
         | |- context [if ?b then _ else _] => destruct b
         | |- context [match ?x with _ => _ end] => destruct x
         end;
  first [ apply config_kept_refl
        | repeat split; simpl; try done;
          first [ by eexists [] ; rewrite app_nil_r | by eexists [_] ] ].

(** One step through a computation, for [keeps]. *)
Ltac keeps_step :=
  lazymatch goal with
  | |- keeps (bind get _) => apply keeps_get_bind; intros ? ?
  | |- keeps (bind _ _) => apply keeps_bind; [|intros ?]
  | |- keeps (ret _) => apply keeps_ret
  | |- keeps (fatal _) => apply keeps_fatal
  | |- keeps undefined => apply keeps_undefined
  | |- keeps (CHECK _ _) => apply keeps_CHECK
  | |- keeps (lift _) => apply keeps_lift
  | |- keeps (index _ _) => apply keeps_index
  | |- keeps (sizeof_ _) => apply keeps_sizeof_
  | |- keeps (read_bytes _ _ _) => apply keeps_read_bytes
  | |- keeps (emit _) => apply keeps_emit
  | |- keeps (modify _) => apply keeps_modify; config_tac
  | |- keeps (for_each _ _) => apply keeps_for_each; intros ?
  | |- keeps (if ?b then _ else _) => destruct b
  | |- keeps (match ?x with _ => _ end) => destruct x
  end.

Section HandlersKeep.
Context {GC : Type} {env : Collaborators GC}.
Implicit Type s : KVStoreDistServer GC.
Implicit Type w : Fields GC.

Lemma keeps_DefaultStorageResponse type key req_meta req_data :
  keeps (DefaultStorageResponse type key req_meta req_data).
Proof. unfold DefaultStorageResponse. repeat keeps_step. Qed.

Lemma keeps_DefaultAutoPull type key version req_meta req_data :
  keeps (DefaultAutoPull type key version req_meta req_data).
Proof. unfold DefaultAutoPull. repeat keeps_step. Qed.

Lemma call_updater_config mp sync key w w' :
  call_updater mp sync key w = Ok w' -> config_kept w w'.
Proof.
  unfold call_updater. destruct (updater_ w); [|done].
  intros H; inversion H; subst; clear H.
  fsimpl. destruct mp; repeat split; simpl; try done; by eexists [_].
Qed.

Lemma keeps_apply_update mp key : keeps (apply_update mp key).
Proof.
  unfold apply_update. repeat keeps_step.
  apply keeps_exec_Exec. intros ? ?. apply call_updater_config.
Qed.

Lemma keeps_copy_down mp key : keeps (copy_down mp key).
Proof. unfold copy_down. repeat keeps_step. Qed.

Lemma keeps_ApplyUpdates type key req_data : keeps (ApplyUpdates type key req_data).
Proof.
  unfold ApplyUpdates.
  repeat first [ apply keeps_apply_update | apply keeps_copy_down
               | apply keeps_DefaultStorageResponse | keeps_step ].
Qed.

Lemma keeps_ApplyUpdatesDefault type key req_meta req_data :
  keeps (ApplyUpdatesDefault type key req_meta req_data).
Proof.
  unfold ApplyUpdatesDefault.
  repeat first [ apply keeps_apply_update | apply keeps_copy_down
               | apply keeps_DefaultAutoPull | keeps_step ].
Qed.

Lemma keeps_AccumulateRowSparseGrads type key recved :
  keeps (AccumulateRowSparseGrads type key recved).
Proof. unfold AccumulateRowSparseGrads. repeat keeps_step. Qed.

Lemma keeps_gather_rows data unit_size master_key ks :
  keeps (gather_rows data unit_size master_key ks).
Proof.
  induction ks as [|k ks IH]; simpl; [apply keeps_ret|].
  repeat first [ apply IH | keeps_step ].
Qed.

Lemma keeps_RowSparsePullResponse type master_key num_rows req_meta req_data :
  keeps (RowSparsePullResponse type master_key num_rows req_meta req_data).
Proof.
  unfold RowSparsePullResponse.
  repeat first [ apply keeps_gather_rows | keeps_step ].
Qed.

Lemma keeps_InitRowSparseStored type master_key num_rows req_meta req_data :
  keeps (InitRowSparseStored type master_key num_rows req_meta req_data).
Proof. unfold InitRowSparseStored. repeat keeps_step. Qed.

Lemma keeps_DecodeRowIds ks master_key num_rows :
  keeps (DecodeRowIds ks master_key num_rows).
Proof. unfold DecodeRowIds. repeat keeps_step. Qed.

Lemma keeps_DataHandleRowSparse type req_meta req_data :
  keeps (DataHandleRowSparse type req_meta req_data).
Proof.
  unfold DataHandleRowSparse.
  repeat first [ apply keeps_InitRowSparseStored | apply keeps_ApplyUpdates
               | apply keeps_AccumulateRowSparseGrads | apply keeps_DecodeRowIds
               | apply keeps_RowSparsePullResponse | keeps_step ].
Qed.

Lemma keeps_DataHandleDefault type req_meta req_data :
  keeps (DataHandleDefault type req_meta req_data).
Proof.
  unfold DataHandleDefault.
  repeat first [ apply keeps_ApplyUpdates | apply keeps_ApplyUpdatesDefault
               | apply keeps_DefaultAutoPull | apply keeps_DefaultStorageResponse
               | keeps_step ].
Qed.

Lemma keeps_DataHandleCompressed type req_meta req_data :
  keeps (DataHandleCompressed type req_meta req_data).
Proof.
  unfold DataHandleCompressed.
  repeat first
    [ apply keeps_ApplyUpdates | apply keeps_DefaultStorageResponse
    | match goal with
      | |- keeps (bind get _) =>
          apply keeps_get_bind; intros ? Hw; cbv zeta; rewrite ?Hw, ?lookup_empty; simpl is_none
      | |- keeps (exec_Exec _) =>
          apply keeps_exec_Exec; intros w0 w1 Hu;
          destruct (updater_ w0); [|done]; inversion Hu; subst; config_tac
      end
    | keeps_step ].
Qed.

Lemma keeps_LocalAggregation reqMeta reqData : keeps (LocalAggregation reqMeta reqData).
Proof. unfold LocalAggregation. repeat keeps_step. Qed.

Lemma keeps_DataHandleEx req_meta req_data : keeps (DataHandleEx req_meta req_data).
Proof.
  unfold DataHandleEx.
  repeat first [ apply keeps_LocalAggregation | apply keeps_DataHandleDefault
               | apply keeps_DataHandleRowSparse | apply keeps_DataHandleCompressed
               | keeps_step ].
Qed.

Lemma keeps_CreateMultiPrecisionCopy entry : keeps (CreateMultiPrecisionCopy entry).
Proof. unfold CreateMultiPrecisionCopy. destruct entry. repeat keeps_step. Qed.

Lemma keeps_CreateMultiPrecisionCopies : keeps CreateMultiPrecisionCopies.
Proof.
  unfold CreateMultiPrecisionCopies.
  repeat first [ apply keeps_CreateMultiPrecisionCopy | keeps_step ].
Qed.

End HandlersKeep.

(** * The tasks of the pool *)

Section PoolTasks.
Context {GC : Type} {env : Collaborators GC}.
Implicit Type w : Fields GC.
Variables UNKNOWN QUIT my_node_id clock_den : Z.

(** A task of the pool that returns has incremented [iteration_], and has
    touched no other field of the server. *)
Lemma ModelDistribution_task_iteration rounds task w w' l :
  ModelDistribution_task UNKNOWN QUIT my_node_id clock_den rounds task w = Ok (w', l) ->
  w' = set_iteration_ (int_add (iteration_ w) 1) w.
Proof.
  unfold ModelDistribution_task, ModelDistribution.ModelDistribution.
  destruct (ModelDistribution.distribute _ _ _ _ _ _ _ _ _); try done.
  intros H. by inversion H.
Qed.

(** The tasks of the pool change [iteration_] only. *)
Lemma pool_run_iteration tasks :
  forall answers w w' l,
    pool_run UNKNOWN QUIT my_node_id clock_den tasks answers w = Ok (w', l) ->
    exists n, w' = set_iteration_ n w.
Proof.
  induction tasks as [|task tasks IH]; intros answers w w' l H; simpl in H.
  - inversion H; subst. exists (iteration_ w'). by destruct w'.
  - destruct answers as [|rounds answers].
    { inversion H; subst. exists (iteration_ w'). by destruct w'. }
    destruct (ModelDistribution_task _ _ _ _ _ _ _) as [[w1 l1]| | |] eqn:H1; try done.
    destruct (pool_run _ _ _ _ _ _ _) as [[w2 l2]| | |] eqn:H2; try done.
    inversion H; subst; clear H.
    apply ModelDistribution_task_iteration in H1. apply IH in H2 as [n ->].
    subst w1. by exists n.
Qed.

End PoolTasks.

(** * Any sequence of requests *)

(** A request to the server: a command for [CommandHandle], or a data
    request for [DataHandleEx]. *)
Inductive Request : Type :=
| Command (recved : SimpleData)
| Data (req_meta : KVMeta) (req_data : KVPairs).

Section Requests.
Context {GC : Type} {env : Collaborators GC}.
Implicit Type s : KVStoreDistServer GC.
Implicit Type w : Fields GC.

Definition handle (r : Request) : M GC unit :=
  match r with
  | Command recved => CommandHandle recved
  | Data req_meta req_data => DataHandleEx req_meta req_data
  end.

(** What no request undoes: the modes that are on stay on, the controller
    and the updater stay, no decompression buffer appears, and the list of
    calls only grows. *)
Definition evolves w w' : Prop :=
  (sync_mode_ w = true -> sync_mode_ w' = true) /\
  (multi_precision_ w = true -> multi_precision_ w' = true) /\
  controller_ w' = controller_ w /\
  updater_ w' = updater_ w /\
  decomp_buf_ w' = decomp_buf_ w /\
  exists l, calls w' = calls w ++ l.

Lemma config_kept_evolves w w' : config_kept w w' -> evolves w w'.
Proof.
  intros (A1 & A2 & A3 & A4 & A5 & A6 & A7 & A8).
  repeat split; try done; congruence.
Qed.

Lemma evolves_trans w1 w2 w3 : evolves w1 w2 -> evolves w2 w3 -> evolves w1 w3.
Proof.
  intros (A1 & A2 & A3 & A4 & A5 & l1 & A6) (B1 & B2 & B3 & B4 & B5 & l2 & B6).
  repeat split; try congruence; try tauto.
  exists (l1 ++ l2). by rewrite B6, A6, app_assoc.
Qed.

Lemma CreateMultiPrecisionCopy_calls entry s s' :
  CreateMultiPrecisionCopy entry s = Ok (tt, s') ->
  calls (fields s') = calls (fields s).
Proof.
  destruct entry as [key stored]. unfold CreateMultiPrecisionCopy.
  destruct (negb _); intros H; repeat mstep; [|done].
  fsimpl. by destruct (merged _).
Qed.

Lemma for_each_CreateMultiPrecisionCopy_calls (l : list (Z * NDArrayRep)) :
  forall s s',
    for_each l CreateMultiPrecisionCopy s = Ok (tt, s') ->
    calls (fields s') = calls (fields s).
Proof.
  induction l as [|x l IH]; intros s s' H; simpl in H.
  - by inversion H.
  - apply bind_Ok in H as ([] & s1 & H1 & H2).
    apply CreateMultiPrecisionCopy_calls in H1. apply IH in H2. congruence.
Qed.

Lemma CreateMultiPrecisionCopies_calls s s' :
  CreateMultiPrecisionCopies s = Ok (tt, s') ->
  calls (fields s') = calls (fields s).
Proof.
  unfold CreateMultiPrecisionCopies, bind, get. simpl.
  apply for_each_CreateMultiPrecisionCopy_calls.
Qed.

(** The calls to the profiler. *)
Definition profiler_call (ev : Event) : bool :=
  match ev with
  | MXSetProfilerConfig _ _ | MXSetProfilerState _ | MXProfilePause _
  | MXDumpProfile _ => true
  | _ => false
  end.

(** The calls a command adds. *)
Definition command_calls (recved : SimpleData) (l : list Event) : Prop :=
  l = [AppResponse recved] \/
  l = [ControllerCall (head recved) (body recved); AppResponse recved] \/
  exists ev, profiler_call ev = true /\ l = [ev; AppResponse recved].

Lemma profiler_params_pure (elems : list string) :
  forall s kv s', profiler_params elems s = Ok (kv, s') -> s' = s.
Proof.
  induction elems as [|elem rest IH]; intros s kv s' H; simpl in H.
  - by inversion H.
  - repeat mstep.
    match goal with H : profiler_params rest _ = Ok _ |- _ => apply IH in H end.
    by subst.
Qed.

Lemma ProcessServerProfilerCommands_calls type body s s' :
  ProcessServerProfilerCommands type body s = Ok (tt, s') ->
  exec_ s' = exec_ s /\
  (fields s' = fields s \/
   exists ev, profiler_call ev = true /\
              fields s' = set_calls (calls (fields s) ++ [ev]) (fields s)).
Proof.
  intros H. destruct type; simpl in H.
  - unfold SetProfilerConfig in H.
    apply bind_Ok in H as (kv & s1 & H1 & H2).
    apply profiler_params_pure in H1. subst s1.
    repeat mstep. split; [done|]. right. eexists. split; [|reflexivity]. reflexivity.
  - destruct (first_char_minus_0 body); [|done]. repeat mstep.
    split; [done|]. right. eexists. split; [|reflexivity]. reflexivity.
  - destruct (first_char_minus_0 body); [|done]. repeat mstep.
    split; [done|]. right. eexists. split; [|reflexivity]. reflexivity.
  - destruct (first_char_minus_0 body); [|done]. repeat mstep.
    split; [done|]. right. eexists. split; [|reflexivity]. reflexivity.
  - repeat mstep. split; [done|]. by left.
Qed.

Lemma CommandHandle_evolves recved s s' :
  settled (exec_ s) -> decomp_buf_ (fields s) = ∅ ->
  CommandHandle recved s = Ok (tt, s') ->
  settled (exec_ s') /\ evolves (fields s) (fields s') /\
  exists l, calls (fields s') = calls (fields s) ++ l /\ command_calls recved l.
Proof.
  intros Hs Hd H. unfold CommandHandle in H.
  apply bind_Ok in H as ([] & s1 & H1 & H2).
  inversion H2; subst; clear H2. simpl.
  assert (Hgoal : settled (exec_ s1) /\ evolves (fields s) (fields s1) /\
                  (calls (fields s1) = calls (fields s) \/
                   calls (fields s1) = calls (fields s) ++ [ControllerCall (head recved) (body recved)] \/
                   exists ev, profiler_call ev = true /\
                              calls (fields s1) = calls (fields s) ++ [ev])).
  { destruct (CommandType_of_int (head recved)).
    - unfold exec_Exec in H1.
      destruct (Executor.Exec _ _ _) as [[e w]| | |] eqn:He; try done.
      inversion H1; subst; clear H1. simpl.
      apply Exec_settled in He; [|done].
      destruct He as (Hs' & _ & [[Hfw _]|[_ [-> _]]]).
      + unfold call_controller in Hfw.
        destruct (controller_ (fields s)) eqn:Hc; [|done].
        inversion Hfw; subst; clear Hfw. split; [done|]. split.
        * repeat split; simpl; try done. by eexists [_].
        * right. left. done.
      + split; [done|]. split; [|by left].
        apply config_kept_evolves, config_kept_refl.
    - repeat mstep. destruct (negb _) eqn:Hmp.
      + repeat mstep.
        pose proof (CreateMultiPrecisionCopies_calls _ _ H1) as Hcalls.
        apply keeps_CreateMultiPrecisionCopies in H1 as (Hs' & _ & Hk); [|done|done].
        split; [done|]. split; [|by left].
        destruct Hk as (A1 & A2 & A3 & A4 & A5 & A6 & A7 & A8). simpl in *.
        repeat split; try done; try congruence.
      + repeat mstep. split; [done|]. split; [|by left].
        apply config_kept_evolves, config_kept_refl.
    - unfold exec_Stop in H1.
      destruct (Executor.Stop _ _) as [[e w]| | |] eqn:He; try done.
      inversion H1; subst; clear H1. simpl.
      apply Stop_settled in He as (-> & Hs' & _); [|done].
      split; [done|]. split; [|by left].
      apply config_kept_evolves, config_kept_refl.
    - repeat mstep. split; [done|]. split; [|by left].
      repeat split; simpl; try done. exists []. by rewrite app_nil_r.
    - repeat mstep. split; [done|]. split; [|by left].
      repeat split; simpl; try done. exists []. by rewrite app_nil_r.
    - destruct (last_char_minus_0 (body recved)) as [t|]; [|done].
      apply ProcessServerProfilerCommands_calls in H1 as [He [Hf|(ev & Hev & Hf)]];
        rewrite He, Hf.
      + split; [done|]. split; [|by left].
        apply config_kept_evolves, config_kept_refl.
      + split; [done|]. split; [|right; right; by exists ev].
        repeat split; simpl; try done. by eexists [_].
    - repeat mstep. split; [done|]. split; [|by left].
      apply config_kept_evolves, config_kept_refl. }
  destruct Hgoal as (Hs1 & Hev & Hcalls). split; [done|]. split.
  - eapply evolves_trans; [exact Hev|].
    repeat split; simpl; try done. by eexists [_].
  - destruct Hcalls as [Hc|[Hc|(ev & Hev' & Hc)]]; rewrite Hc.
    + exists [AppResponse recved]. split; [done|]. by left.
    + eexists. rewrite <- app_assoc. split; [done|]. right. by left.
    + eexists. rewrite <- app_assoc. split; [done|]. right. right. by exists ev.
Qed.

Lemma handle_evolves r s s' :
  settled (exec_ s) -> decomp_buf_ (fields s) = ∅ ->
  handle r s = Ok (tt, s') ->
  settled (exec_ s') /\ evolves (fields s) (fields s').
Proof.
  intros Hs Hd H. destruct r as [recved|req_meta req_data]; simpl in H.
  - apply CommandHandle_evolves in H as (? & ? & _); done.
  - apply keeps_DataHandleEx in H as (? & _ & ?); [|done|done].
    split; [done|]. by apply config_kept_evolves.
Qed.

Lemma for_each_handle_evolves (rs : list Request) :
  forall s s',
    settled (exec_ s) -> decomp_buf_ (fields s) = ∅ ->
    for_each rs handle s = Ok (tt, s') ->
    settled (exec_ s') /\ evolves (fields s) (fields s').
Proof.
  induction rs as [|r rs IH]; intros s s' Hs Hd H; simpl in H.
  - repeat mstep. split; [done|]. apply config_kept_evolves, config_kept_refl.
  - apply bind_Ok in H as ([] & s1 & H1 & H2).
    apply handle_evolves in H1 as [Hs1 He1]; [|done|done].
    assert (Hd1 : decomp_buf_ (fields s1) = ∅).
    { destruct He1 as (_ & _ & _ & _ & -> & _). done. }
    destruct (IH _ _ Hs1 Hd1 H2) as [Hs2 He2].
    split; [done|]. by eapply evolves_trans.
Qed.

(** X13: A data request changes nothing of the server's configuration: on a
    server with nothing queued in the executor and no decompression buffer,
    when [DataHandleEx] returns, sync mode, multi-precision mode, the
    updater, the controller and the gradient codec are as before; nothing
    is left in the executor's queue, and the calls made before are still
    there, in front of the new ones.  (The iteration counter is not the
    handler's: the task it queues on the pool writes it, see
    [ModelDistribution_task].) *)
Theorem DataHandleEx_keeps_configuration req_meta req_data s s' :
  settled (exec_ s) -> decomp_buf_ (fields s) = ∅ ->
  DataHandleEx req_meta req_data s = Ok (tt, s') ->
  sync_mode_ (fields s') = sync_mode_ (fields s) /\
  multi_precision_ (fields s') = multi_precision_ (fields s) /\
  controller_ (fields s') = controller_ (fields s) /\
  updater_ (fields s') = updater_ (fields s) /\
  gradient_compression_ (fields s') = gradient_compression_ (fields s) /\
  Executor.queue_ (exec_ s') = [] /\
  exists l, calls (fields s') = calls (fields s) ++ l.
Proof.
  intros Hs Hd H.
  apply keeps_DataHandleEx in H as ([Hq _] & _ & Hk); [|done|done].
  destruct Hk as (A1 & A2 & A3 & A4 & A5 & A6 & A7 & A8).
  repeat split; done.
Qed.

(** X14: The decompression buffers are never kept: [DataHandleCompressed]
    works on a copy of the handle [decomp_buf_[key]], so the array it
    allocates never reaches the map; whatever requests the server has
    handled, [decomp_buf_] holds no array. *)
Theorem decomp_buf_never_filled (rs : list Request) s s' :
  settled (exec_ s) -> decomp_buf_ (fields s) = ∅ ->
  for_each rs handle s = Ok (tt, s') ->
  decomp_buf_ (fields s') = ∅.
Proof.
  intros Hs Hd H.
  apply for_each_handle_evolves in H as [_ (_ & _ & _ & _ & -> & _)]; done.
Qed.

(** X15: Sync mode and multi-precision mode are latches, and handlers do not
    touch the updater or the controller: whatever requests the server
    handles, a mode that is on stays on, and the calls made so far stay in
    the list of calls. *)
Theorem modes_are_latches (rs : list Request) s s' :
  settled (exec_ s) -> decomp_buf_ (fields s) = ∅ ->
  for_each rs handle s = Ok (tt, s') ->
  (sync_mode_ (fields s) = true -> sync_mode_ (fields s') = true) /\
  (multi_precision_ (fields s) = true -> multi_precision_ (fields s') = true) /\
  controller_ (fields s') = controller_ (fields s) /\
  updater_ (fields s') = updater_ (fields s) /\
  exists l, calls (fields s') = calls (fields s) ++ l.
Proof.
  intros Hs Hd H.
  apply for_each_handle_evolves in H as [_ (A1 & A2 & A3 & A4 & A5 & A6)]; done.
Qed.

(** X16: On a server with nothing queued in the executor, a command that
    [CommandHandle] handles to the end is acknowledged once, after its
    effect: [app->Response(recved)] is the last call, after at most one call
    to the controller or to the profiler ([MXSetProfilerConfig],
    [MXSetProfilerState], [MXProfilePause] or [MXDumpProfile]).  For
    [kController] with a thread in [Start] the handler does return: with a
    controller set, the controller is called and then the command is
    acknowledged; without one, [CHECK(controller_)] trips in the thread of
    [Start], which leaves its loop by the exception, while the handler
    goes on and acknowledges the command without any call to the
    controller. *)
Theorem CommandHandle_acknowledges recved s :
  settled (exec_ s) ->
  (forall s', CommandHandle recved s = Ok (tt, s') ->
     exists l, calls (fields s') = calls (fields s) ++ l /\ command_calls recved l) /\
  (head recved = 0 -> Executor.in_Start (exec_ s) = true ->
   exists e',
     CommandHandle recved s
     = Ok (tt, mkServer e'
                 (set_calls
                    (calls (fields s) ++
                     (if controller_ (fields s)
                      then [ControllerCall (head recved) (body recved)] else []) ++
                     [AppResponse recved])
                    (fields s))) /\
     Executor.in_Start e' = controller_ (fields s) /\
     Executor.queue_ e' = [] /\
     Executor.Start_throws
       (fst (Executor.Exec_push (Some (call_controller recved)) (exec_ s))) (fields s)
     = if controller_ (fields s) then None else Some Check_controller).
Proof.
  intros Hs. split.
  - intros s' H. unfold CommandHandle in H.
    apply bind_Ok in H as ([] & s1 & H1 & H2).
    inversion H2; subst; clear H2. simpl.
    assert (Hcalls : calls (fields s1) = calls (fields s) \/
                     calls (fields s1)
                     = calls (fields s) ++ [ControllerCall (head recved) (body recved)] \/
                     exists ev, profiler_call ev = true /\
                                calls (fields s1) = calls (fields s) ++ [ev]).
    { destruct (CommandType_of_int (head recved)).
      - unfold exec_Exec in H1.
        destruct (Executor.Exec _ _ _) as [[e w]| | |] eqn:He; try done.
        inversion H1; subst; clear H1. simpl.
        apply Exec_settled in He; [|done].
        destruct He as (_ & _ & [[Hfw _]|[_ [-> _]]]); [|by left].
        unfold call_controller in Hfw.
        destruct (controller_ (fields s)); [|done].
        inversion Hfw; subst; clear Hfw. right. by left.
      - repeat mstep. destruct (negb _).
        + repeat mstep. apply CreateMultiPrecisionCopies_calls in H1. by left.
        + repeat mstep. by left.
      - unfold exec_Stop in H1.
        destruct (Executor.Stop _ _) as [[e w]| | |] eqn:He; try done.
        inversion H1; subst; clear H1. simpl.
        apply Stop_settled in He as (-> & _); [|done]. by left.
      - repeat mstep. by left.
      - repeat mstep. by left.
      - destruct (last_char_minus_0 (body recved)) as [t|]; [|done].
        apply ProcessServerProfilerCommands_calls in H1 as [_ [Hf|(ev & Hev & Hf)]];
          rewrite Hf; [by left|].
        right. right. by exists ev.
      - repeat mstep. by left. }
    destruct Hcalls as [Hc|[Hc|(ev & Hev & Hc)]]; rewrite Hc.
    + exists [AppResponse recved]. split; [done|]. by left.
    + eexists. rewrite <- app_assoc. split; [done|]. right. by left.
    + eexists. rewrite <- app_assoc. split; [done|]. right. right. by exists ev.
  - intros Hh Hi. destruct Hs as [Hq Hf].
    unfold CommandHandle, call_controller. rewrite Hh. simpl.
    unfold bind, exec_Exec, Executor.Exec, Executor.Exec_push, Executor.Start_throws.
    rewrite Hq. simpl. unfold Executor.Start_step. simpl. rewrite Hi. simpl.
    destruct (controller_ (fields s)) eqn:Hc; simpl;
      unfold Executor.Start_step; simpl;
      unfold Executor.promise_set; simpl; rewrite Nat.eqb_refl; simpl;
      (eexists; split;
         [unfold emit, modify, set_calls; simpl; rewrite <- ?app_assoc; reflexivity|]);
      done.
Qed.

(** X17: After [kStopServer] the executor serves nothing: the command is
    acknowledged, the thread in [Start] has left its loop, and a later
    [kController] or [kStopServer] command waits forever and is never
    acknowledged. *)
Theorem after_StopServer_commands_block recved recved' s s' :
  settled (exec_ s) ->
  head recved = 2 ->
  head recved' = 0 \/ head recved' = 2 ->
  CommandHandle recved s = Ok (tt, s') ->
  fields s' = set_calls (calls (fields s) ++ [AppResponse recved]) (fields s) /\
  Executor.in_Start (exec_ s') = false /\
  CommandHandle recved' s' = Blocked.
Proof.
  intros Hs Hh Hh' H. unfold CommandHandle in H. rewrite Hh in H. simpl in H.
  apply bind_Ok in H as ([] & s1 & H1 & H2).
  inversion H2; subst; clear H2. simpl.
  unfold exec_Stop in H1.
  destruct (Executor.Stop _ _) as [[e w]| | |] eqn:He; try done.
  inversion H1; subst; clear H1. simpl.
  apply Stop_settled in He as (-> & [Hq Hf] & _ & Hi); [|done].
  split; [done|]. split; [done|].
  unfold CommandHandle.
  destruct Hh' as [-> | ->]; simpl; unfold bind, exec_Exec, exec_Stop, Executor.Stop; simpl;
    by rewrite Exec_without_Start_blocks.
Qed.

End Requests.

(** * Handlers and pool together *)

Section ServerAndPool.
Context {GC : Type} {env : Collaborators GC}.
Implicit Type s : KVStoreDistServer GC.
Variables UNKNOWN QUIT my_node_id clock_den : Z.

(** The server as its threads drive it: a handler takes a request, or the
    thread of the pool takes the next task of the queue and runs it.  The
    number counts the tasks the pool has taken so far.  (A handler neither
    reads nor writes [iteration_], and a task touches nothing else of the
    server, so nothing is lost by letting each of them run in one step.) *)
Inductive step : KVStoreDistServer GC * nat -> KVStoreDistServer GC * nat -> Prop :=
| step_handle r s s' n :
    handle r s = Ok (tt, s') ->
    step (s, n) (s', n)
| step_task s n task rounds w' l :
    enqueued (calls (fields s)) !! n = Some task ->
    ModelDistribution_task UNKNOWN QUIT my_node_id clock_den rounds task (fields s)
    = Ok (w', l) ->
    step (s, n) (mkServer (exec_ s) w', S n).

Lemma CommandHandle_iteration recved s s' :
  settled (exec_ s) -> decomp_buf_ (fields s) = ∅ ->
  CommandHandle recved s = Ok (tt, s') ->
  iteration_ (fields s') = iteration_ (fields s).
Proof.
  intros Hs Hd H. unfold CommandHandle in H.
  apply bind_Ok in H as ([] & s1 & H1 & H2).
  inversion H2; subst; clear H2. simpl.
  destruct (CommandType_of_int (head recved)).
  - unfold exec_Exec in H1.
    destruct (Executor.Exec _ _ _) as [[e w]| | |] eqn:He; try done.
    inversion H1; subst; clear H1. simpl.
    apply Exec_settled in He; [|done].
    destruct He as (_ & _ & [[Hfw _]|[_ [-> _]]]); [|done].
    unfold call_controller in Hfw.
    destruct (controller_ (fields s)); [|done].
    by inversion Hfw.
  - repeat mstep. destruct (negb _).
    + repeat mstep.
      apply keeps_CreateMultiPrecisionCopies in H1 as (_ & _ & Hk); [|done|done].
      by destruct Hk as (_ & _ & _ & _ & _ & _ & -> & _).
    + by repeat mstep.
  - unfold exec_Stop in H1.
    destruct (Executor.Stop _ _) as [[e w]| | |] eqn:He; try done.
    inversion H1; subst; clear H1. simpl.
    by apply Stop_settled in He as (-> & _).
  - by repeat mstep.
  - by repeat mstep.
  - destruct (last_char_minus_0 (body recved)) as [t|]; [|done].
    by apply ProcessServerProfilerCommands_calls in H1 as [_ [->|(ev & _ & ->)]].
  - by repeat mstep.
Qed.

(** Whatever the handlers and the pool do, [iteration_] counts the tasks
    the pool has run: every task increments it once (with the wrap-around
    of [int]) and nothing else writes it; the handlers leave the executor
    settled and [decomp_buf_] empty. *)
Lemma step_iteration s n s' n' :
  settled (exec_ s) -> decomp_buf_ (fields s) = ∅ ->
  step (s, n) (s', n') ->
  settled (exec_ s') /\ decomp_buf_ (fields s') = ∅ /\
  (n <= n')%nat /\
  iteration_ (fields s')
  = Nat.iter (n' - n) (fun i => int_add i 1) (iteration_ (fields s)).
Proof.
  intros Hs Hd H. inversion H; subst; clear H.
  - rewrite Nat.sub_diag. simpl.
    match goal with H : handle _ _ = _ |- _ => rename H into Hh end.
    pose proof (handle_evolves _ _ _ Hs Hd Hh) as [Hs' He].
    split; [done|]. split.
    { destruct He as (_ & _ & _ & _ & -> & _). done. }
    split; [done|].
    destruct r as [recved|req_meta req_data]; simpl in Hh.
    + by eapply CommandHandle_iteration.
    + apply keeps_DataHandleEx in Hh as (_ & _ & Hk); [|done|done].
      by destruct Hk as (_ & _ & _ & _ & _ & _ & -> & _).
  - match goal with H : ModelDistribution_task _ _ _ _ _ _ _ = _ |- _ =>
      apply ModelDistribution_task_iteration in H; subst w' end.
    simpl. split; [done|]. split; [done|]. split; [lia|].
    replace (S n - n)%nat with 1%nat by lia. done.
Qed.

Lemma steps_iteration x y :
  rtc step x y ->
  settled (exec_ x.1) -> decomp_buf_ (fields x.1) = ∅ ->
  settled (exec_ y.1) /\ decomp_buf_ (fields y.1) = ∅ /\
  (x.2 <= y.2)%nat /\
  iteration_ (fields y.1)
  = Nat.iter (y.2 - x.2) (fun i => int_add i 1) (iteration_ (fields x.1)).
Proof.
  induction 1 as [[s n]|[s n] [s1 n1] [s2 n2] H1 H2 IH]; intros Hs Hd; simpl in *.
  - rewrite Nat.sub_diag. done.
  - destruct (step_iteration _ _ _ _ Hs Hd H1) as (Hs1 & Hd1 & Hn1 & Hi1).
    destruct (IH Hs1 Hd1) as (Hs2 & Hd2 & Hn2 & Hi2).
    split; [done|]. split; [done|]. split; [lia|].
    rewrite Hi2, Hi1.
    replace (n2 - n)%nat with ((n2 - n1) + (n1 - n))%nat by lia.
    by rewrite Nat.iter_add.
Qed.

End ServerAndPool.

Lemma Toy_server_settled (w : Fields unit) : settled (exec_ (Toy.server w)).
Proof. split; [done|]. split; simpl; intros ? []. Qed.

Lemma DataHandleEx_keeps_configuration_witness :
  let s := Toy.server (Toy.no_fields false false (Some Toy.updater)) in
  exists s',
    DataHandleEx (env := Toy.collaborators false false) (Toy.push_meta 0)
      {| keys := [5]; vals := Toy.bytes8; lens := [8] |} s = Ok (tt, s') /\
    sync_mode_ (fields s') = sync_mode_ (fields s) /\
    multi_precision_ (fields s') = multi_precision_ (fields s) /\
    controller_ (fields s') = controller_ (fields s) /\
    updater_ (fields s') = updater_ (fields s) /\
    gradient_compression_ (fields s') = gradient_compression_ (fields s) /\
    Executor.queue_ (exec_ s') = [] /\
    exists l, calls (fields s') = calls (fields s) ++ l.
Proof.
  intros s. eexists. split; [vm_compute; reflexivity|].
  apply (DataHandleEx_keeps_configuration (env := Toy.collaborators false false)
           (Toy.push_meta 0) {| keys := [5]; vals := Toy.bytes8; lens := [8] |} s).
  - apply Toy_server_settled.
  - reflexivity.
  - vm_compute. reflexivity.
Defined.

(** Sync mode; a first compressed push of key 5 (original size 2), then
    the pushes of both workers. *)
Definition compressed_pushes : list Request :=
  [ Command {| head := 3; body := EmptyString |};
    Data (Toy.push_meta 3) {| keys := [2; 5]; vals := Toy.bytes8; lens := [0; 8] |};
    Data (Toy.push_meta 3) {| keys := [2; 5]; vals := Toy.bytes8; lens := [0; 8] |};
    Data (Toy.push_meta 3) {| keys := [2; 5]; vals := Toy.bytes8; lens := [0; 8] |} ].

Lemma decomp_buf_never_filled_witness :
  exists s',
    for_each compressed_pushes (handle (env := Toy.collaborators false false))
      (Toy.server (Toy.no_fields false false None)) = Ok (tt, s') /\
    length (calls (fields s')) = 4%nat /\
    decomp_buf_ (fields s') = ∅.
Proof.
  eexists. split; [vm_compute; reflexivity|]. split; [reflexivity|].
  apply (decomp_buf_never_filled (env := Toy.collaborators false false)
           compressed_pushes (Toy.server (Toy.no_fields false false None))).
  - apply Toy_server_settled.
  - reflexivity.
  - vm_compute. reflexivity.
Defined.

Lemma modes_are_latches_witness :
  let s := Toy.server (Toy.no_fields true false None) in
  exists s',
    for_each [ Command {| head := 1; body := EmptyString |};
               Data (Toy.push_meta 0) {| keys := [5]; vals := Toy.bytes8; lens := [8] |} ]
      (handle (env := Toy.collaborators false false)) s = Ok (tt, s') /\
    (sync_mode_ (fields s) = true -> sync_mode_ (fields s') = true) /\
    (multi_precision_ (fields s) = true -> multi_precision_ (fields s') = true) /\
    controller_ (fields s') = controller_ (fields s) /\
    updater_ (fields s') = updater_ (fields s) /\
    exists l, calls (fields s') = calls (fields s) ++ l.
Proof.
  intros s. eexists. split; [vm_compute; reflexivity|].
  apply (modes_are_latches (env := Toy.collaborators false false)
           [ Command {| head := 1; body := EmptyString |};
             Data (Toy.push_meta 0) {| keys := [5]; vals := Toy.bytes8; lens := [8] |} ] s).
  - apply Toy_server_settled.
  - reflexivity.
  - vm_compute. reflexivity.
Defined.

Lemma CommandHandle_acknowledges_witness :
  let s := Toy.server (Toy.no_fields false false None) in
  let recved := {| head := 0; body := "lr"%string |} in
  settled (exec_ s) /\
  controller_ (fields s) = false /\
  exists e',
    CommandHandle (env := Toy.collaborators false false) recved s
    = Ok (tt, mkServer e' (set_calls [AppResponse recved] (fields s))) /\
    Executor.in_Start e' = false.
Proof.
  intros s recved. split; [apply Toy_server_settled|]. split; [reflexivity|].
  destruct (CommandHandle_acknowledges (env := Toy.collaborators false false) recved s
              (Toy_server_settled _)) as [_ H].
  destruct (H eq_refl eq_refl) as (e' & H1 & H2 & _).
  exists e'. split; [exact H1 | exact H2].
Defined.

Lemma after_StopServer_commands_block_witness :
  let s := Toy.server (Toy.no_fields false false None) in
  let recved := {| head := 2; body := EmptyString |} in
  let recved' := {| head := 0; body := EmptyString |} in
  exists s',
    CommandHandle (env := Toy.collaborators false false) recved s = Ok (tt, s') /\
    fields s' = set_calls (calls (fields s) ++ [AppResponse recved]) (fields s) /\
    Executor.in_Start (exec_ s') = false /\
    CommandHandle (env := Toy.collaborators false false) recved' s' = Blocked.
Proof.
  intros s recved recved'. eexists. split; [vm_compute; reflexivity|].
  apply (after_StopServer_commands_block (env := Toy.collaborators false false)
           recved recved' s).
  - apply Toy_server_settled.
  - reflexivity.
  - left. reflexivity.
  - vm_compute. reflexivity.
Defined.

(** * The checks of the profiler configuration *)

Section CommandChecks.
Context {GC : Type} {env : Collaborators GC}.
Implicit Type s : KVStoreDistServer GC.

Lemma String_get_last (p : string) (c : ascii) :
  String.get (String.length (String.append p (String c EmptyString)) - 1)
             (String.append p (String c EmptyString)) = Some c.
Proof.
  induction p as [|a p IH]; [done|].
  simpl. rewrite Nat.sub_0_r.
  destruct (String.length (String.append p (String c EmptyString))) as [|n] eqn:Hl.
  - by destruct p.
  - simpl in IH. by rewrite Nat.sub_0_r in IH.
Qed.

Lemma String_substring_init (p : string) (c : ascii) :
  String.substring 0 (String.length (String.append p (String c EmptyString)) - 1)
                   (String.append p (String c EmptyString)) = p.
Proof.
  induction p as [|a p IH]; [done|].
  simpl. rewrite Nat.sub_0_r.
  destruct (String.length (String.append p (String c EmptyString))) as [|n] eqn:Hl.
  - by destruct p.
  - simpl in IH. rewrite Nat.sub_0_r in IH. simpl. by rewrite IH.
Qed.

(** The [CHECK] of [SetProfilerConfig] that an element of the
    configuration trips, if any: [split] at [':'] has to give two parts,
    neither of them empty. *)
Definition config_elem_fault (elem : string) : option CheckSite :=
  match split elem ":"%char with
  | [a; b] =>
      if (String.length a =? 0)%nat then Some Check_profiler_param_empty
      else if (String.length b =? 0)%nat then Some Check_profiler_value_empty
      else None
  | _ => Some Check_profiler_config
  end.

(** The key and the value of an element; the value of [filename] gets the
    rank of the server in front. *)
Definition config_key (elem : string) : string :=
  default EmptyString (split elem ":"%char !! 0%nat).

Definition config_val (elem : string) : string :=
  let v := default EmptyString (split elem ":"%char !! 1%nat) in
  if String.eqb (config_key elem) "filename"
  then String.append "rank" (String.append (to_string MyRank) (String.append "_" v))
  else v.

Lemma profiler_params_faults (elems : list string) s :
  profiler_params elems s
  = match omap config_elem_fault elems !! 0%nat with
    | Some c => Fatal c
    | None => Ok ((map config_key elems, map config_val elems), s)
    end.
Proof.
  induction elems as [|elem rest IH]; [done|].
  cbn [profiler_params map].
  change (omap config_elem_fault (elem :: rest))
    with (match config_elem_fault elem with
          | Some y => y :: omap config_elem_fault rest
          | None => omap config_elem_fault rest
          end).
  unfold config_val at 1. unfold config_key at 1 3. unfold config_elem_fault at 1.
  destruct (split elem ":"%char) as [|a [|b [|c l]]] eqn:Hsp; try done.
  - cbv [bind CHECK ret fatal index]. simpl.
    destruct (String.length a =? 0)%nat; [done|]. simpl.
    destruct (String.length b =? 0)%nat; [done|]. simpl.
    rewrite IH. by destruct (omap config_elem_fault rest !! 0%nat).
  - cbv [bind CHECK ret fatal index].
    destruct (Z.of_nat (length (a :: b :: c :: l)) =? 2) eqn:He; [|done].
    apply Z.eqb_eq in He. simpl length in He. lia.
Qed.

(** X30: The profiler command [kSetConfig] ([kSetProfilerParams] with a
    body that ends in ['0']): the configuration in front of the last
    character is split at [','], and every element at [':'].  The first
    element that does not give exactly two parts, or gives an empty first
    or second part, trips its [CHECK] ("Improper profiler config passed
    from worker", "ProfilerConfig parameter is empty", "ProfilerConfig
    value is empty"), and the command is not acknowledged.  When every
    element passes and there is at least one, [MXSetProfilerConfig] gets
    the keys and the values in order, the value of [filename] with
    [rank<MyRank>_] in front, and the command is acknowledged; with no
    element at all, [&ckeys[0]] indexes an empty vector. *)
Theorem SetProfilerConfig_checks recved s params :
  head recved = 5 ->
  body recved = String.append params "0" ->
  let elems := split params ","%char in
  CommandHandle recved s
  = match omap config_elem_fault elems !! 0%nat with
    | Some c => Fatal c
    | None =>
        match elems with
        | [] => Undefined
        | _ :: _ =>
            Ok (tt, mkServer (exec_ s)
                      (set_calls
                         (calls (fields s) ++
                          [MXSetProfilerConfig (map config_key elems) (map config_val elems);
                           AppResponse recved])
                         (fields s)))
        end
    end.
Proof.
  intros Hh Hb elems. unfold CommandHandle. rewrite Hh. simpl.
  unfold last_char_minus_0. rewrite Hb, String_get_last. simpl.
  unfold SetProfilerConfig. rewrite String_substring_init. fold elems.
  unfold bind at 1. unfold bind at 1. rewrite profiler_params_faults.
  destruct (omap config_elem_fault elems !! 0%nat); [done|].
  destruct elems; [done|]. simpl.
  cbv [bind index ret emit modify]. simpl. by rewrite <- app_assoc.
Qed.

End CommandChecks.

Lemma SetProfilerConfig_checks_witness :
  let s := Toy.server (Toy.no_fields false false None) in
  let bad := {| head := 5; body := "a0"%string |} in
  let good := {| head := 5; body := "filename:p.json,aggregate_stats:10"%string |} in
  CommandHandle (env := Toy.collaborators false false) bad s = Fatal Check_profiler_config /\
  CommandHandle (env := Toy.collaborators false false) good s
  = Ok (tt, mkServer (exec_ s)
              (set_calls
                 [MXSetProfilerConfig ["filename"; "aggregate_stats"]%string
                                      ["rank0_p.json"; "1"]%string;
                  AppResponse good]
                 (fields s))).
Proof.
  intros s bad good. split.
  - exact (SetProfilerConfig_checks (env := Toy.collaborators false false)
             bad s "a"%string eq_refl eq_refl).
  - exact (SetProfilerConfig_checks (env := Toy.collaborators false false)
             good s "filename:p.json,aggregate_stats:1"%string eq_refl eq_refl).
Defined.

(** Runs a computation forward. *)
Ltac mrun :=
  cbv [bind ret get modify CHECK emit index fatal undefined lift]; simpl.

(** * Dense push and pull *)

Section DenseFacts.
Context {GC : Type} {env : Collaborators GC}.
Implicit Type s : KVStoreDistServer GC.
Implicit Type w : Fields GC.

(** The response of a pull: the first [len] bytes of the stored array. *)
Definition pull_response (req_meta : KVMeta) (req_data : KVPairs)
    (stored : NDArrayRep) (n : Z) : Event :=
  let len := wrap_size_t (Size (shape stored) * n) in
  ResponseData req_meta
    {| keys := keys req_data;
       vals := take (Z.to_nat len) (dptr stored);
       lens := [wrap_int len] |}.

Lemma DefaultStorageResponse_Ok type key req_meta req_data s stored n :
  store_ (fields s) !! key = Some stored ->
  mshadow_sizeof (nd_dtype stored) = Some n ->
  wrap_size_t (Size (shape stored) * n) <= Z.of_nat (length (dptr stored)) ->
  DefaultStorageResponse type key req_meta req_data s
  = Ok (tt, mkServer (exec_ s)
              (set_calls (calls (fields s) ++ [pull_response req_meta req_data stored n])
                         (fields s))).
Proof.
  intros Hs Hn Hlen. unfold DefaultStorageResponse, bind, get. simpl.
  rewrite Hs. unfold sizeof_. rewrite Hn. simpl.
  unfold read_bytes.
  assert (H0 : 0 <= wrap_size_t (Size (shape stored) * n)).
  { unfold wrap_size_t. apply Z.mod_pos_bound. lia. }
  destruct (0 <=? wrap_size_t _) eqn:H1; [|apply Z.leb_gt in H1; lia].
  destruct (0 + wrap_size_t _ <=? _) eqn:H2; [|apply Z.leb_gt in H2; lia].
  reflexivity.
Qed.

Lemma DataHandleDefault_pull type req_meta req_data s k0 :
  push req_meta = false ->
  keys req_data = [k0] ->
  DataHandleDefault type req_meta req_data s
  = DefaultStorageResponse type (DecodeKey k0) req_meta req_data s.
Proof.
  intros Hp Hk. unfold DataHandleDefault. rewrite Hp, Hk. simpl.
  unfold bind at 1. simpl. unfold bind at 1. simpl.
  unfold bind at 1. simpl. unfold bind at 1. simpl. reflexivity.
Qed.

(** X18: A pull of an initialised key answers with the bytes of the stored
    array and changes nothing else: one [ResponseData] call is added, with
    the keys of the request, the first [Size * sizeof(dtype)] bytes of
    [store_[key]] and that length. *)
Theorem dense_pull_returns_stored type req_meta req_data s k0 stored n :
  push req_meta = false ->
  keys req_data = [k0] ->
  store_ (fields s) !! DecodeKey k0 = Some stored ->
  mshadow_sizeof (nd_dtype stored) = Some n ->
  wrap_size_t (Size (shape stored) * n) <= Z.of_nat (length (dptr stored)) ->
  DataHandleDefault type req_meta req_data s
  = Ok (tt, mkServer (exec_ s)
              (set_calls (calls (fields s) ++ [pull_response req_meta req_data stored n])
                         (fields s))).
Proof.
  intros Hp Hk Hs Hn Hlen.
  rewrite (DataHandleDefault_pull _ _ _ _ k0) by done.
  by apply DefaultStorageResponse_Ok.
Qed.

(** The first push of a key (no TSEngine, no multi-precision copy for the
    dtype): the stored array is created from the received bytes and the
    push is acknowledged. *)
Lemma DataHandleDefault_init type req_meta req_data s k0 len0 n :
  ENABLE_TSENGINE = false ->
  has_multi_precision_copy type (fields s) = false ->
  push req_meta = true ->
  keys req_data = [k0] -> lens req_data = [len0] ->
  Z.of_nat (length (vals req_data)) = wrap_size_t len0 ->
  mshadow_sizeof (dtype type) = Some n ->
  real_type (dtype type) = true ->
  store_ (fields s) !! DecodeKey k0 = None ->
  DataHandleDefault type req_meta req_data s
  = Ok (tt, mkServer (exec_ s)
              (set_calls (calls (fields s) ++ [Response req_meta])
                 (set_store_
                    (assign (DecodeKey k0)
                       (CopyFromTo
                          (NDArray_blob [wrap_size_t len0 / n] (dtype type) (vals req_data))
                          (NDArray_dense [wrap_size_t len0 / n] (dtype type)))
                       (store_ (fields s)))
                    (fields s)))).
Proof.
  intros Hts Hmp Hp Hk Hl Hv Hn Hr Hs.
  unfold DataHandleDefault. rewrite Hp, Hk, Hl, Hts. mrun.
  rewrite Hv, Z.eqb_refl. mrun.
  unfold sizeof_. rewrite Hn. mrun. rewrite Hr. mrun.
  rewrite Hmp. simpl. rewrite Hs. simpl.
  reflexivity.
Qed.

(** X19: What is pushed first is what a pull returns: after the first push of
    a key with [len0] bytes, a whole number of elements, a pull of the key
    answers with these bytes and this length.  (The tensor engine's
    [CopyFromTo] from the received blob into the fresh array is taken to
    give the array of the blob's bytes.) *)
Theorem first_push_then_pull type push_meta pull_meta push_data pull_data s k0 len0 n :
  (forall sh dt bytes,
     CopyFromTo (NDArray_blob sh dt bytes) (NDArray_dense sh dt)
     = NDArray_blob sh dt bytes) ->
  ENABLE_TSENGINE = false ->
  has_multi_precision_copy type (fields s) = false ->
  push push_meta = true -> push pull_meta = false ->
  keys push_data = [k0] -> keys pull_data = [k0] ->
  lens push_data = [len0] ->
  0 <= len0 <= INT_MAX ->
  Z.of_nat (length (vals push_data)) = len0 ->
  mshadow_sizeof (dtype type) = Some n ->
  0 < n -> len0 mod n = 0 ->
  real_type (dtype type) = true ->
  store_ (fields s) !! DecodeKey k0 = None ->
  exists s',
    (DataHandleDefault type push_meta push_data ;;
     DataHandleDefault type pull_meta pull_data) s = Ok (tt, s') /\
    calls (fields s')
    = calls (fields s)
      ++ [Response push_meta;
          ResponseData pull_meta
            {| keys := [k0]; vals := vals push_data; lens := [len0] |}].
Proof.
  intros Hcopy Hts Hmp Hp1 Hp2 Hk1 Hk2 Hl Hlen Hv Hn Hn0 Hmod Hr Hs.
  assert (Hw : wrap_size_t len0 = len0).
  { apply wrap_size_t_id. unfold INT_MAX in Hlen. lia. }
  rewrite (bind_Ok_l _ _ s tt _
             (DataHandleDefault_init type push_meta push_data s k0 len0 n
                Hts Hmp Hp1 Hk1 Hl ltac:(by rewrite Hw) Hn Hr Hs)).
  rewrite Hcopy, Hw. simpl assign.
  set (rep := {| storage_type := kDefaultStorage; shape := [len0 / n];
                 nd_dtype := dtype type; aux_idx := []; dptr := vals push_data |}).
  assert (Hsize : wrap_size_t (Size (shape rep) * n) = len0).
  { simpl. rewrite Z.mul_1_r.
    replace (len0 / n * n) with len0; [done|].
    pose proof (Z.div_mod len0 n ltac:(lia)). lia. }
  rewrite (DataHandleDefault_pull _ _ _ _ k0) by done.
  erewrite (DefaultStorageResponse_Ok type _ pull_meta pull_data _ rep n);
    [ | simpl; by rewrite lookup_insert_eq | done | rewrite Hsize; simpl dptr; lia ].
  eexists. split; [reflexivity|]. simpl.
  unfold pull_response. rewrite Hsize, Hk2.
  rewrite <- app_assoc. simpl. do 4 f_equal.
  rewrite wrap_int_id by (unfold INT_MIN, INT_MAX in *; lia).
  f_equal. rewrite <- Hv, Nat2Z.id. apply firstn_all.
Qed.

End DenseFacts.

Lemma dense_pull_returns_stored_witness :
  let s := Toy.server (set_store_ {[ 5 := Toy.dense_f32 Toy.bytes8 ]}
                         (Toy.no_fields false false None)) in
  let req_data := {| keys := [5]; vals := []; lens := [] |} in
  DataHandleDefault (env := Toy.collaborators false false)
    {| requestType := kDefaultPushPull; dtype := 0 |} (Toy.pull_meta 0) req_data s
  = Ok (tt, mkServer (exec_ s)
              (set_calls
                 (calls (fields s)
                  ++ [ResponseData (Toy.pull_meta 0)
                        {| keys := [5]; vals := Toy.bytes8; lens := [8] |}])
                 (fields s))).
Proof.
  intros s req_data.
  apply (dense_pull_returns_stored (env := Toy.collaborators false false)
           {| requestType := kDefaultPushPull; dtype := 0 |} (Toy.pull_meta 0)
           req_data s 5 (Toy.dense_f32 Toy.bytes8) 4).
  - reflexivity.
  - reflexivity.
  - reflexivity.
  - reflexivity.
  - vm_compute. congruence.
Defined.

Lemma first_push_then_pull_witness :
  let s := Toy.server (Toy.no_fields false false None) in
  let type := {| requestType := kDefaultPushPull; dtype := 0 |} in
  let push_data := {| keys := [5]; vals := Toy.bytes8; lens := [8] |} in
  let pull_data := {| keys := [5]; vals := []; lens := [] |} in
  exists s',
    (DataHandleDefault (env := Toy.collaborators false false) type (Toy.push_meta 0) push_data ;;
     DataHandleDefault (env := Toy.collaborators false false) type (Toy.pull_meta 0) pull_data) s
    = Ok (tt, s') /\
    calls (fields s')
    = calls (fields s)
      ++ [Response (Toy.push_meta 0);
          ResponseData (Toy.pull_meta 0)
            {| keys := [5]; vals := Toy.bytes8; lens := [8] |}].
Proof.
  intros s type push_data pull_data.
  apply (first_push_then_pull (env := Toy.collaborators false false)
           type (Toy.push_meta 0) (Toy.pull_meta 0) push_data pull_data s 5 8 4).
  - intros sh dt bytes. reflexivity.
  - reflexivity.
  - reflexivity.
  - reflexivity.
  - reflexivity.
  - reflexivity.
  - reflexivity.
  - reflexivity.
  - unfold INT_MAX. lia.
  - reflexivity.
  - reflexivity.
  - lia.
  - reflexivity.
  - reflexivity.
  - reflexivity.
Defined.

(** * Pushes to an initialised key *)

Section PushFacts.
Context {GC : Type} {env : Collaborators GC}.
Implicit Type s : KVStoreDistServer GC.
Implicit Type w : Fields GC.

Lemma for_each_emit {A} (g : A -> Event) (l : list A) :
  forall s,
    for_each l (fun x => emit (g x)) s
    = Ok (tt, mkServer (exec_ s) (set_calls (calls (fields s) ++ map g l) (fields s))).
Proof.
  induction l as [|x l IH]; intros s; simpl.
  - mrun. rewrite app_nil_r. by destruct s as [e []].
  - unfold bind at 1. simpl. rewrite IH. simpl.
    by rewrite <- app_assoc.
Qed.

(** The dispatcher when every pending request is a push and an updater
    is set: one call of the updater, then an acknowledgement for every
    pending request, in the order of arrival. *)
Lemma ApplyUpdates_push_only type key req_data s u :
  Executor.idle (exec_ s) ->
  updater_ (fields s) = Some u ->
  has_multi_precision_copy type (fields s) = false ->
  negb (sync_mode_ (fields s))
  || (Z.of_nat (length (request (update_buf_at key (fields s)))) =? wrap_size_t NumWorkers)
  = true ->
  existsb pull (request (update_buf_at key (fields s))) = false ->
  let w := fields s in
  let update := if sync_mode_ w then merged (update_buf_at key w)
                else temp_array (update_buf_at key w) in
  exists s',
    ApplyUpdates type key req_data s = Ok (tt, s') /\
    Executor.idle (exec_ s') /\
    calls (fields s')
    = calls w ++ UpdaterCall key update (store_ w !! key)
                 :: map Response (request (update_buf_at key w)) /\
    store_ (fields s') !! key = u key update (store_ w !! key) /\
    (forall k, k <> key -> store_ (fields s') !! k = store_ w !! k) /\
    request (update_buf_at key (fields s')) = [] /\
    merged (update_buf_at key (fields s')) = merged (update_buf_at key w).
Proof.
  intros Hidle Hu Hmp Hc Hpull w update.
  unfold ApplyUpdates. unfold bind at 1, get. cbv beta iota zeta.
  rewrite Hc, Hmp, Hpull.
  unfold apply_update. unfold bind at 1. unfold bind at 1, get. cbv beta iota zeta.
  rewrite Hu. rewrite bool_decide_eq_true_2 by (by eexists). cbv beta iota. unfold exec_Exec.
  erewrite Exec_idle_runs; [| done |].
  2:{ unfold call_updater. rewrite Hu. reflexivity. }
  simpl. unfold bind at 1. rewrite for_each_emit. simpl.
  mrun. eexists. split; [reflexivity|]. simpl.
  split; [by split|].
  split; [by rewrite <- app_assoc|].
  split.
  { destruct (u key _ _); simpl; [by rewrite lookup_insert_eq | by rewrite lookup_delete_eq]. }
  split.
  { intros k Hk. destruct (u key _ _); simpl;
      [by rewrite lookup_insert_ne | by rewrite lookup_delete_ne]. }
  fsimpl. rewrite lookup_insert_eq. done.
Qed.

(** What a push to an initialised key does before it calls the
    dispatcher (no TSEngine, no multi-precision copy for the dtype): the
    request joins the pending list, and the received array goes to
    [temp_array] (async mode) or into [merged] (sync mode: copied for the
    first request of a cohort, added for the others). *)
Lemma DataHandleDefault_push type req_meta req_data s k0 len0 n stored :
  ENABLE_TSENGINE = false ->
  has_multi_precision_copy type (fields s) = false ->
  push req_meta = true ->
  keys req_data = [k0] -> lens req_data = [len0] ->
  Z.of_nat (length (vals req_data)) = wrap_size_t len0 ->
  mshadow_sizeof (dtype type) = Some n ->
  real_type (dtype type) = true ->
  store_ (fields s) !! DecodeKey k0 = Some stored ->
  let w := fields s in
  let key := DecodeKey k0 in
  let pending := request (update_buf_at key w) in
  let dshape := [wrap_size_t len0 / n] in
  let recved := NDArray_blob dshape (dtype type) (vals req_data) in
  let merged0 := if is_none (merged (update_buf_at key w))
                 then NDArray_dense dshape (dtype type)
                 else merged (update_buf_at key w) in
  sync_mode_ w = true \/ pending = [] ->
  exists w3,
    DataHandleDefault type req_meta req_data s
    = ApplyUpdates type key req_data (mkServer (exec_ s) w3) /\
    request (update_buf_at key w3) = pending ++ [req_meta] /\
    store_ w3 = store_ w /\ calls w3 = calls w /\
    sync_mode_ w3 = sync_mode_ w /\ updater_ w3 = updater_ w /\
    multi_precision_ w3 = multi_precision_ w /\
    (sync_mode_ w = false -> temp_array (update_buf_at key w3) = recved) /\
    (sync_mode_ w = true ->
     merged (update_buf_at key w3)
     = if bool_decide (pending = []) then CopyFromTo recved merged0
       else plus_assign merged0 recved).
Proof.
  intros Hts Hmp Hp Hk Hl Hv Hn Hr Hs w key pending dshape recved merged0 Hmode.
  unfold DataHandleDefault. rewrite Hp, Hk, Hl, Hts. mrun.
  rewrite Hv, Z.eqb_refl. mrun.
  unfold sizeof_. rewrite Hn. mrun. rewrite Hr. mrun.
  rewrite Hmp. simpl. rewrite Hs. simpl.
  fold w key. fold pending.
  destruct (sync_mode_ w) eqn:Hsync; simpl.
  - destruct (is_none (merged (update_buf_at key w))) eqn:Hm; simpl;
      destruct (bool_decide (pending = [])) eqn:Hpe; simpl;
      (eexists; split; [reflexivity|]);
      subst merged0; rewrite ?Hm;
      fsimpl; rewrite ?lookup_insert_eq; simpl; rewrite ?lookup_insert_eq; simpl;
      repeat split; try done;
      try (intros _; by destruct (merged _)).
  - destruct Hmode as [|Hpe]; [done|]. rewrite Hpe. simpl.
    eexists. split; [reflexivity|].
    fsimpl. rewrite ?lookup_insert_eq. simpl. rewrite ?lookup_insert_eq. simpl.
    repeat split; try done. change (pending ++ [req_meta] = [req_meta]). by rewrite Hpe.
Qed.

(** X20: Without TSEngine, in async mode with an updater set and the
    executor idle, a well-formed dense push without the pull flag, of a
    dtype that has no multi-precision copy, to an initialised key with no
    pending request, is applied at once: the updater is called on the
    received array and the stored one, the result is stored, and the push
    is acknowledged after the updater call; nothing stays pending.  (With
    TSEngine the acknowledgement is sent before anything else.) *)
Theorem async_push_is_applied_at_once type req_meta req_data s k0 len0 n stored u :
  ENABLE_TSENGINE = false ->
  Executor.idle (exec_ s) ->
  sync_mode_ (fields s) = false ->
  updater_ (fields s) = Some u ->
  has_multi_precision_copy type (fields s) = false ->
  push req_meta = true -> pull req_meta = false ->
  keys req_data = [k0] -> lens req_data = [len0] ->
  Z.of_nat (length (vals req_data)) = wrap_size_t len0 ->
  mshadow_sizeof (dtype type) = Some n ->
  real_type (dtype type) = true ->
  store_ (fields s) !! DecodeKey k0 = Some stored ->
  request (update_buf_at (DecodeKey k0) (fields s)) = [] ->
  let recved := NDArray_blob [wrap_size_t len0 / n] (dtype type) (vals req_data) in
  exists s',
    DataHandleDefault type req_meta req_data s = Ok (tt, s') /\
    calls (fields s')
    = calls (fields s) ++ [UpdaterCall (DecodeKey k0) recved (Some stored);
                           Response req_meta] /\
    store_ (fields s') !! DecodeKey k0 = u (DecodeKey k0) recved (Some stored) /\
    request (update_buf_at (DecodeKey k0) (fields s')) = [] /\
    Executor.idle (exec_ s').
Proof.
  intros Hts Hidle Hsync Hu Hmp Hp Hpl Hk Hl Hv Hn Hr Hs Hpe recved.
  destruct (DataHandleDefault_push type req_meta req_data s k0 len0 n stored
              Hts Hmp Hp Hk Hl Hv Hn Hr Hs (or_intror Hpe))
    as (w3 & -> & Hreq & Hst & Hcalls & Hsy & Hup & Hmu & Htemp & _).
  rewrite Hpe in Hreq. simpl in Hreq. specialize (Htemp Hsync).
  destruct (ApplyUpdates_push_only type (DecodeKey k0) req_data
              (mkServer (exec_ s) w3) u)
    as (s' & -> & Hidle' & Hc' & Hs' & _ & Hr' & _); simpl.
  - done.
  - congruence.
  - unfold has_multi_precision_copy in *. by rewrite Hmu.
  - by rewrite Hsy, Hsync.
  - rewrite Hreq. simpl. by rewrite Hpl.
  - simpl in Hc', Hs', Hr'.
    rewrite Hsy, Hsync, Htemp, Hst, Hs, Hreq, Hcalls in Hc'.
    rewrite Hsy, Hsync, Htemp, Hst, Hs in Hs'.
    exists s'. split; [done|]. split; [done|]. split; [done|]. by split.
Qed.

(** X21: Without TSEngine, in sync mode, a well-formed dense push, of a
    dtype that has no multi-precision copy, to an initialised key, that
    does not complete the cohort of [NumWorkers] requests only waits: the
    request joins the pending list; no call is made (the worker gets no
    answer yet) and the stored arrays and the executor are untouched. *)
Theorem sync_push_waits_for_the_barrier type req_meta req_data s k0 len0 n stored :
  ENABLE_TSENGINE = false ->
  0 <= NumWorkers < 2 ^ 64 ->
  sync_mode_ (fields s) = true ->
  has_multi_precision_copy type (fields s) = false ->
  push req_meta = true ->
  keys req_data = [k0] -> lens req_data = [len0] ->
  Z.of_nat (length (vals req_data)) = wrap_size_t len0 ->
  mshadow_sizeof (dtype type) = Some n ->
  real_type (dtype type) = true ->
  store_ (fields s) !! DecodeKey k0 = Some stored ->
  Z.of_nat (length (request (update_buf_at (DecodeKey k0) (fields s)))) + 1
    <> NumWorkers ->
  exists s',
    DataHandleDefault type req_meta req_data s = Ok (tt, s') /\
    exec_ s' = exec_ s /\
    calls (fields s') = calls (fields s) /\
    store_ (fields s') = store_ (fields s) /\
    request (update_buf_at (DecodeKey k0) (fields s'))
    = request (update_buf_at (DecodeKey k0) (fields s)) ++ [req_meta].
Proof.
  intros Hts HN Hsync Hmp Hp Hk Hl Hv Hn Hr Hs Hlen.
  destruct (DataHandleDefault_push type req_meta req_data s k0 len0 n stored
              Hts Hmp Hp Hk Hl Hv Hn Hr Hs (or_introl Hsync))
    as (w3 & -> & Hreq & Hst & Hcalls & Hsy & Hup & Hmu & _ & _).
  unfold ApplyUpdates. unfold bind at 1, get. cbv beta iota zeta. cbn [fields exec_].
  rewrite Hsy, Hsync, Hreq, length_app, wrap_size_t_id by done. simpl.
  destruct (_ =? NumWorkers) eqn:He; [apply Z.eqb_eq in He; lia|].
  eexists. split; [reflexivity|]. done.
Qed.

(** X22: Without TSEngine, in sync mode with an updater set and the
    executor idle, for a dtype that has no multi-precision copy and a
    cohort in which no request carries the pull flag: the well-formed dense
    push that completes the cohort of [NumWorkers] requests runs the
    update.  The updater is called once, on [merged] with the array of
    this push copied (cohort of one) or added, and on the stored array;
    then every request of the cohort is acknowledged, in the order of
    arrival, and the pending list is empty.  (When a request of the cohort
    carries the pull flag, only the requests that carry it are answered.) *)
Theorem last_push_completes_the_barrier type req_meta req_data s k0 len0 n stored u :
  ENABLE_TSENGINE = false ->
  0 <= NumWorkers < 2 ^ 64 ->
  Executor.idle (exec_ s) ->
  sync_mode_ (fields s) = true ->
  updater_ (fields s) = Some u ->
  has_multi_precision_copy type (fields s) = false ->
  push req_meta = true -> pull req_meta = false ->
  keys req_data = [k0] -> lens req_data = [len0] ->
  Z.of_nat (length (vals req_data)) = wrap_size_t len0 ->
  mshadow_sizeof (dtype type) = Some n ->
  real_type (dtype type) = true ->
  store_ (fields s) !! DecodeKey k0 = Some stored ->
  let key := DecodeKey k0 in
  let pending := request (update_buf_at key (fields s)) in
  Z.of_nat (length pending) + 1 = NumWorkers ->
  existsb pull pending = false ->
  let recved := NDArray_blob [wrap_size_t len0 / n] (dtype type) (vals req_data) in
  let merged0 := if is_none (merged (update_buf_at key (fields s)))
                 then NDArray_dense [wrap_size_t len0 / n] (dtype type)
                 else merged (update_buf_at key (fields s)) in
  let update := if bool_decide (pending = []) then CopyFromTo recved merged0
                else plus_assign merged0 recved in
  exists s',
    DataHandleDefault type req_meta req_data s = Ok (tt, s') /\
    calls (fields s')
    = calls (fields s) ++ UpdaterCall key update (Some stored)
                          :: map Response (pending ++ [req_meta]) /\
    store_ (fields s') !! key = u key update (Some stored) /\
    request (update_buf_at key (fields s')) = [] /\
    Executor.idle (exec_ s').
Proof.
  intros Hts HN Hidle Hsync Hu Hmp Hp Hpl Hk Hl Hv Hn Hr Hs key pending Hlen Hpull
         recved merged0 update.
  subst update merged0 recved pending key.
  destruct (DataHandleDefault_push type req_meta req_data s k0 len0 n stored
              Hts Hmp Hp Hk Hl Hv Hn Hr Hs (or_introl Hsync))
    as (w3 & -> & Hreq & Hst & Hcalls & Hsy & Hup & Hmu & _ & Hmerged).
  specialize (Hmerged Hsync).
  destruct (ApplyUpdates_push_only type (DecodeKey k0) req_data
              (mkServer (exec_ s) w3) u)
    as (s' & -> & Hidle' & Hc' & Hs' & _ & Hr' & _); simpl.
  - done.
  - congruence.
  - unfold has_multi_precision_copy in *. by rewrite Hmu.
  - rewrite Hsy, Hsync. simpl. rewrite Hreq, length_app.
    rewrite wrap_size_t_id by done. apply Z.eqb_eq. simpl. lia.
  - rewrite Hreq, existsb_app, Hpull. simpl. by rewrite Hpl.
  - simpl in Hc', Hs', Hr'.
    rewrite Hsy, Hsync, Hmerged, Hst, Hs, Hreq, Hcalls in Hc'.
    rewrite Hsy, Hsync, Hmerged, Hst, Hs in Hs'.
    exists s'. split; [done|]. split; [done|]. split; [done|]. by split.
Qed.

End PushFacts.

(** Key 5 holds eight zero bytes; an updater is set. *)
Definition stored_5 (sync : bool) : Fields unit :=
  set_store_ {[ 5 := Toy.dense_f32 (replicate 8 Byte.x00) ]}
    (Toy.no_fields sync false (Some Toy.updater)).

Lemma async_push_is_applied_at_once_witness :
  let s := Toy.server (stored_5 false) in
  let type := {| requestType := kDefaultPushPull; dtype := 0 |} in
  let req_data := {| keys := [5]; vals := Toy.bytes8; lens := [8] |} in
  exists s',
    DataHandleDefault (env := Toy.collaborators false false) type (Toy.push_meta 0) req_data s
    = Ok (tt, s') /\
    calls (fields s')
    = calls (fields s)
      ++ [UpdaterCall 5 (Some (Toy.dense_f32 Toy.bytes8))
                        (Some (Toy.dense_f32 (replicate 8 Byte.x00)));
          Response (Toy.push_meta 0)] /\
    store_ (fields s') !! 5
    = Toy.updater 5 (Some (Toy.dense_f32 Toy.bytes8))
                    (Some (Toy.dense_f32 (replicate 8 Byte.x00))) /\
    request (update_buf_at 5 (fields s')) = [] /\
    Executor.idle (exec_ s').
Proof.
  intros s type req_data.
  apply (async_push_is_applied_at_once (env := Toy.collaborators false false)
           type (Toy.push_meta 0) req_data s 5 8 4
           (Toy.dense_f32 (replicate 8 Byte.x00)) Toy.updater);
    try reflexivity.
  split; reflexivity.
Defined.

Lemma sync_push_waits_for_the_barrier_witness :
  let s := Toy.server (stored_5 true) in
  let type := {| requestType := kDefaultPushPull; dtype := 0 |} in
  let req_data := {| keys := [5]; vals := Toy.bytes8; lens := [8] |} in
  exists s',
    DataHandleDefault (env := Toy.collaborators false false) type (Toy.push_meta 0) req_data s
    = Ok (tt, s') /\
    exec_ s' = exec_ s /\
    calls (fields s') = calls (fields s) /\
    store_ (fields s') = store_ (fields s) /\
    request (update_buf_at 5 (fields s'))
    = request (update_buf_at 5 (fields s)) ++ [Toy.push_meta 0].
Proof.
  intros s type req_data.
  apply (sync_push_waits_for_the_barrier (env := Toy.collaborators false false)
           type (Toy.push_meta 0) req_data s 5 8 4
           (Toy.dense_f32 (replicate 8 Byte.x00)));
    try reflexivity.
  - simpl. lia.
  - vm_compute. congruence.
Defined.

Lemma last_push_completes_the_barrier_witness :
  let s := Toy.server (set_updater_ (Some Toy.updater) Toy.f32_pending_5) in
  let type := {| requestType := kDefaultPushPull; dtype := 0 |} in
  let req_data := {| keys := [5]; vals := Toy.bytes8; lens := [8] |} in
  let update := Toy.add (Some (Toy.dense_f32 Toy.bytes8)) (Some (Toy.dense_f32 Toy.bytes8)) in
  exists s',
    DataHandleDefault (env := Toy.collaborators false false) type (Toy.push_meta 0) req_data s
    = Ok (tt, s') /\
    calls (fields s')
    = calls (fields s)
      ++ UpdaterCall 5 update (Some (Toy.dense_f32 (replicate 8 Byte.x00)))
         :: map Response ([Toy.push_meta 0] ++ [Toy.push_meta 0]) /\
    store_ (fields s') !! 5
    = Toy.updater 5 update (Some (Toy.dense_f32 (replicate 8 Byte.x00))) /\
    request (update_buf_at 5 (fields s')) = [] /\
    Executor.idle (exec_ s').
Proof.
  intros s type req_data update.
  apply (last_push_completes_the_barrier (env := Toy.collaborators false false)
           type (Toy.push_meta 0) req_data s 5 8 4
           (Toy.dense_f32 (replicate 8 Byte.x00)) Toy.updater);
    try reflexivity.
  - simpl. lia.
  - split; reflexivity.
Defined.

(** * Local aggregation (LeMethod) *)

Section LocalAggregationFacts.
Context {GC : Type} {env : Collaborators GC}.
Implicit Type s : KVStoreDistServer GC.
Implicit Type w : Fields GC.

Lemma lift_Ok {A} (r : result A) s a s' :
  @lift GC A r s = Ok (a, s') -> r = Ok a /\ s' = s.
Proof. destruct r; try done. intros H; by inversion H. Qed.

(** X23: [LocalAggregation] never answers the sender.  It adds the
    [num_aggregation] of the request to the counter; while the counter
    differs from [NumWorkers] it makes no call at all; when the counter
    reaches [NumWorkers] (sync mode is required then) it notifies the
    workers, hands the whole stored array to model distribution and resets
    the counter. *)
Theorem LocalAggregation_counts reqMeta reqData s s' :
  LocalAggregation reqMeta reqData s = Ok (tt, s') ->
  let total := int_add (num_aggregation_ (fields s)) (num_aggregation reqMeta) in
  exec_ s' = exec_ s /\
  if total =? NumWorkers then
    sync_mode_ (fields s) = true /\
    num_aggregation_ (fields s') = 0 /\
    exists kvs,
      keys kvs = keys reqData /\
      calls (fields s')
      = calls (fields s) ++ [NoticeWorkersOneIterationFinish;
                             EnqueueModelDistribution reqMeta kvs]
  else
    num_aggregation_ (fields s') = total /\
    calls (fields s') = calls (fields s).
Proof.
  intros H total. unfold LocalAggregation in H.
  apply bind_Ok in H as ([] & s1 & H1 & H).
  apply bind_Ok in H as ([] & s2 & H2 & H).
  assert (s1 = s) as -> by (by repeat mstep).
  assert (s2 = s) as ->.
  { destruct (push reqMeta); by repeat mstep. }
  clear H1 H2.
  apply bind_Ok in H as (k0 & s1 & H1 & H).
  assert (s1 = s) as -> by (by repeat mstep). clear H1.
  apply bind_Ok in H as (type & s1 & H1 & H). apply lift_Ok in H1 as [Ht ->].
  apply bind_Ok in H as (len0 & s1 & H1 & H).
  assert (s1 = s) as -> by (by repeat mstep). clear H1.
  apply bind_Ok in H as (n & s1 & H1 & H).
  assert (s1 = s) as -> by (by repeat mstep). clear H1.
  apply bind_Ok in H as ([] & s1 & H1 & H).
  assert (s1 = s) as -> by (by repeat mstep). clear H1.
  apply bind_Ok in H as ([] & sa & Ha & H).
  assert (Fa : exec_ sa = exec_ s /\ calls (fields sa) = calls (fields s) /\
               num_aggregation_ (fields sa) = num_aggregation_ (fields s) /\
               sync_mode_ (fields sa) = sync_mode_ (fields s)).
  { inversion Ha; subst; simpl. by destruct (is_none _). }
  clear Ha. destruct Fa as (Ea & Ca & Na & Sa).
  apply bind_Ok in H as ([] & sb & Hb & H).
  assert (Fb : exec_ sb = exec_ s /\ calls (fields sb) = calls (fields s) /\
               num_aggregation_ (fields sb) = num_aggregation_ (fields s) /\
               sync_mode_ (fields sb) = sync_mode_ (fields s)).
  { inversion Hb; subst; simpl. rewrite <- Ea, <- Ca, <- Na, <- Sa.
    by destruct (_ =? 0). }
  clear Hb Ea Ca Na Sa sa. destruct Fb as (Eb & Cb & Nb & Sb).
  apply bind_Ok in H as ([] & sc & Hc & H).
  assert (Fc : exec_ sc = exec_ s /\ calls (fields sc) = calls (fields s) /\
               num_aggregation_ (fields sc) = total /\
               sync_mode_ (fields sc) = sync_mode_ (fields s)).
  { inversion Hc; subst; simpl. by rewrite Nb. }
  clear Hc Eb Cb Nb Sb sb. destruct Fc as (Ec & Cc & Nc & Sc).
  apply bind_Ok in H as (w & s1 & H1 & H).
  inversion H1; subst w s1; clear H1.
  rewrite Nc in H. destruct (total =? NumWorkers) eqn:Htot.
  - repeat mstep.
    match type of H with
    | match ?x with _ => _ end _ = _ => destruct x as [stored|] eqn:Hst; [|done]
    end.
    repeat mstep. simpl.
    split; [done|]. split; [congruence|]. split; [done|].
    eexists. split; [|rewrite Cc, <- app_assoc; reflexivity]. reflexivity.
  - repeat mstep. done.
Qed.

End LocalAggregationFacts.

Lemma LocalAggregation_counts_witness :
  let s := Toy.server (Toy.no_fields true false None) in
  let reqMeta := {| cmd := 0; push := true; pull := false; sender := 9; timestamp := 0;
                    meta_key := 5; num_merge := 1; control_cmd := 1;
                    num_aggregation := 2 |} in
  let reqData := {| keys := [5]; vals := Toy.bytes8; lens := [8] |} in
  exists s',
    LocalAggregation (env := Toy.collaborators true false) reqMeta reqData s = Ok (tt, s') /\
    exec_ s' = exec_ s /\
    sync_mode_ (fields s) = true /\
    num_aggregation_ (fields s') = 0 /\
    exists kvs,
      keys kvs = keys reqData /\
      calls (fields s')
      = calls (fields s) ++ [NoticeWorkersOneIterationFinish;
                             EnqueueModelDistribution reqMeta kvs].
Proof.
  intros s reqMeta reqData. eexists. split; [vm_compute; reflexivity|].
  apply (LocalAggregation_counts (env := Toy.collaborators true false) reqMeta reqData s).
  vm_compute. reflexivity.
Defined.

(** * The first push under TSEngine *)

Section TSEngineFacts.
Context {GC : Type} {env : Collaborators GC}.
Implicit Type s : KVStoreDistServer GC.
Implicit Type w : Fields GC.

(** X24: Under TSEngine the first push of a key is acknowledged before
    anything is stored; then the array is stored, the version of the key
    is set to 0, and the stored bytes go out as the update of version 0.
    (The tensor engine's [CopyFromTo] from the received blob into the
    fresh array is taken to give the array of the blob's bytes.) *)
Theorem TSEngine_first_push type req_meta req_data s k0 len0 n :
  (forall sh dt bytes,
     CopyFromTo (NDArray_blob sh dt bytes) (NDArray_dense sh dt)
     = NDArray_blob sh dt bytes) ->
  ENABLE_TSENGINE = true ->
  requestType type = kDefaultPushPull ->
  has_multi_precision_copy type (fields s) = false ->
  push req_meta = true ->
  keys req_data = [k0] -> lens req_data = [len0] ->
  0 <= len0 <= INT_MAX ->
  Z.of_nat (length (vals req_data)) = len0 ->
  mshadow_sizeof (dtype type) = Some n ->
  0 < n -> len0 mod n = 0 ->
  real_type (dtype type) = true ->
  store_ (fields s) !! DecodeKey k0 = None ->
  exists s',
    DataHandleDefault type req_meta req_data s = Ok (tt, s') /\
    calls (fields s')
    = calls (fields s)
      ++ [Response req_meta;
          AutoPullUpdate 0 req_meta
            {| keys := [k0]; vals := vals req_data; lens := [len0] |}] /\
    store_v_at (DecodeKey k0) (fields s') = 0 /\
    store_ (fields s') !! DecodeKey k0
    = NDArray_blob [len0 / n] (dtype type) (vals req_data).
Proof.
  intros Hcopy Hts Hty Hmp Hp Hk Hl Hlen Hv Hn Hn0 Hmod Hr Hs.
  assert (Hw : wrap_size_t len0 = len0).
  { apply wrap_size_t_id. unfold INT_MAX in Hlen. lia. }
  assert (Hsize : wrap_size_t (len0 / n * 1 * n) = len0).
  { rewrite Z.mul_1_r. replace (len0 / n * n) with len0; [done|].
    pose proof (Z.div_mod len0 n ltac:(lia)). lia. }
  unfold DataHandleDefault. rewrite Hp, Hk, Hl, Hts. mrun.
  rewrite Hw, Hv, Z.eqb_refl. mrun.
  unfold sizeof_. rewrite Hn. mrun. rewrite Hr. mrun.
  rewrite Hmp. simpl. rewrite Hs. simpl.
  unfold DefaultAutoPull. rewrite Hty. mrun.
  rewrite Hcopy. simpl. rewrite lookup_insert_eq. simpl.
  unfold sizeof_. rewrite Hn. mrun.
  unfold read_bytes. rewrite Hsize.
  destruct (0 <=? len0) eqn:H1; [|apply Z.leb_gt in H1; lia].
  destruct (0 + len0 <=? Z.of_nat (length (vals req_data))) eqn:H2;
    [|apply Z.leb_gt in H2; lia].
  mrun. eexists. split; [reflexivity|]. simpl.
  rewrite wrap_int_id by (unfold INT_MIN, INT_MAX in *; lia).
  assert (Htake : take (Z.to_nat len0) (drop (Z.to_nat 0) (vals req_data))
                  = vals req_data).
  { simpl. rewrite <- Hv, Nat2Z.id. apply firstn_all. }
  rewrite Htake, Hk, <- app_assoc. simpl.
  split; [done|]. split.
  - unfold store_v_at. simpl. by rewrite lookup_insert_eq.
  - by rewrite lookup_insert_eq.
Qed.

End TSEngineFacts.

Lemma TSEngine_first_push_witness :
  let s := Toy.server (Toy.no_fields false false None) in
  let type := {| requestType := kDefaultPushPull; dtype := 0 |} in
  let req_data := {| keys := [5]; vals := Toy.bytes8; lens := [8] |} in
  exists s',
    DataHandleDefault (env := Toy.collaborators false true) type (Toy.push_meta 0) req_data s
    = Ok (tt, s') /\
    calls (fields s')
    = calls (fields s)
      ++ [Response (Toy.push_meta 0);
          AutoPullUpdate 0 (Toy.push_meta 0)
            {| keys := [5]; vals := Toy.bytes8; lens := [8] |}] /\
    store_v_at 5 (fields s') = 0 /\
    store_ (fields s') !! 5 = Some (Toy.dense_f32 Toy.bytes8).
Proof.
  intros s type req_data.
  apply (TSEngine_first_push (env := Toy.collaborators false true)
           type (Toy.push_meta 0) req_data s 5 8 4);
    try reflexivity.
  unfold INT_MAX. lia.
Defined.

Ltac mcbv :=
  cbv [bind ret get modify CHECK emit index fatal undefined lift sizeof_];
  cbn [lookup list_lookup fields exec_].

(** * The first row-sparse push *)

Section RowSparseInit.
Context {GC : Type} {env : Collaborators GC}.
Implicit Type s : KVStoreDistServer GC.
Implicit Type w : Fields GC.

(** The first row-sparse push of a key (no multi-precision copy for the
    dtype): the rows are stored in the order they come, as rows
    [0 .. R-1], and the push is acknowledged. *)
Lemma DataHandleRowSparse_init type req_meta req_data s k0 row_keys len1 lens_rest n :
  has_multi_precision_copy type (fields s) = false ->
  push req_meta = true ->
  keys req_data = k0 :: row_keys -> row_keys <> [] ->
  Z.of_nat (length row_keys) < 2 ^ 64 ->
  lens req_data = 0 :: len1 :: lens_rest ->
  mshadow_sizeof (dtype type) = Some n ->
  0 < n <= INT_MAX -> 0 <= len1 <= INT_MAX -> 0 < len1 / n ->
  Z.of_nat (length (vals req_data))
  = wrap_size_t (Z.of_nat (length row_keys) * (len1 / n) * n) ->
  real_type (dtype type) = true ->
  store_ (fields s) !! DecodeKey k0 = None ->
  DataHandleRowSparse type req_meta req_data s
  = Ok (tt, mkServer (exec_ s)
              (set_calls (calls (fields s) ++ [Response req_meta])
                 (set_store_
                    (<[DecodeKey k0 :=
                         {| storage_type := kRowSparseStorage;
                            shape := [Z.of_nat (length row_keys); len1 / n];
                            nd_dtype := dtype type;
                            aux_idx := seqZ 0 (Z.of_nat (length row_keys));
                            dptr := ndarray_Copy (dtype type) (dtype type) (vals req_data) |}]>
                       (store_ (fields s)))
                    (fields s)))).
Proof.
  intros Hmp Hp Hk Hrows HRmax Hl Hn Hn0 Hlen1 Hul Hv Hr Hs.
  assert (HR : wrap_size_t (Z.of_nat (length (k0 :: row_keys)) - 1)
               = Z.of_nat (length row_keys)).
  { rewrite wrap_size_t_id; simpl length; lia. }
  assert (HR0 : 0 < Z.of_nat (length row_keys)).
  { destruct row_keys; [done|]. simpl. lia. }
  assert (Hdiv : int_div len1 (wrap_int n) = len1 / n).
  { unfold int_div. rewrite (wrap_int_id n) by (unfold INT_MIN, INT_MAX in *; lia).
    rewrite Z.quot_div_nonneg by lia.
    apply wrap_int_id. unfold INT_MIN, INT_MAX in *.
    assert (len1 / n <= len1) by (apply Z.div_le_upper_bound; nia). lia. }
  assert (Hul' : wrap_size_t (len1 / n) = len1 / n).
  { apply wrap_size_t_id. unfold INT_MAX in *.
    assert (len1 / n <= len1) by (apply Z.div_le_upper_bound; nia). lia. }
  assert (Hc1 : (0 <? Z.of_nat (length (0 :: len1 :: lens_rest))) = true).
  { apply Z.ltb_lt. simpl length. lia. }
  assert (Hc2 : (0 <? Z.of_nat (length row_keys)) = true) by (by apply Z.ltb_lt).
  assert (Hc3 : (0 <? len1 / n) = true) by (by apply Z.ltb_lt).
  unfold DataHandleRowSparse, InitRowSparseStored. rewrite Hp, Hk, Hl.
  assert (Hwn : wrap_int n = n).
  { apply wrap_int_id. unfold INT_MIN, INT_MAX in *. lia. }
  mcbv.
  repeat (progress (rewrite ?HR, ?Hc1, ?Hs, ?Hc2, ?Hmp, ?Hn, ?Hdiv, ?Hc3, ?Hul', ?Hwn,
                      ?Hv, ?Z.eqb_refl, ?Hr; mcbv)).
  unfold set_stored, NDArray_rsp_blob, NDArray_rsp, assign. simpl.
  rewrite insert_insert_eq. reflexivity.
Qed.

(** A row-sparse pull of rows that lie inside the stored bytes. *)
Lemma DataHandleRowSparse_pull type req_meta req_data s stored n k0 row_keys :
  push req_meta = false ->
  keys req_data = k0 :: row_keys -> row_keys <> [] ->
  Z.of_nat (length row_keys) < 2 ^ 64 ->
  store_ (fields s) !! DecodeKey k0 = Some stored ->
  mshadow_sizeof (dtype type) = Some n ->
  0 <= ProdShape1 (shape stored) <= INT_MAX ->
  0 <= ProdShape1 (shape stored) * n <= INT_MAX ->
  (forall k, In k row_keys ->
     0 <= int_sub (DecodeKey k) (DecodeKey k0) /\
     (int_sub (DecodeKey k) (DecodeKey k0) + 1) * (ProdShape1 (shape stored) * n)
     <= Z.of_nat (length (dptr stored))) ->
  DataHandleRowSparse type req_meta req_data s
  = Ok (tt, mkServer (exec_ s)
              (set_calls
                 (calls (fields s) ++
                  [ResponseData req_meta
                     {| keys := k0 :: row_keys;
                        vals := concat (map (fun k =>
                                  take (Z.to_nat (ProdShape1 (shape stored) * n))
                                       (drop (Z.to_nat (int_sub (DecodeKey k) (DecodeKey k0)
                                                        * (ProdShape1 (shape stored) * n)))
                                             (dptr stored))) row_keys);
                        lens := 0 :: replicate (length row_keys)
                                               (ProdShape1 (shape stored)) |}])
                 (fields s))).
Proof.
  intros Hp Hk Hrows HRmax Hs Hn Hul Hus Hin.
  assert (HR : wrap_size_t (Z.of_nat (length (k0 :: row_keys)) - 1)
               = Z.of_nat (length row_keys)).
  { rewrite wrap_size_t_id; simpl length; lia. }
  assert (Hc : (Z.of_nat (length row_keys) =? 0) = false).
  { apply Z.eqb_neq. destruct row_keys; [done|]. simpl. lia. }
  assert (Hlen : (Z.of_nat (length (k0 :: row_keys)) <=? Z.of_nat (length row_keys)) = false).
  { apply Z.leb_gt. simpl length. lia. }
  assert (Hw : wrap_int (ProdShape1 (shape stored) * n) = ProdShape1 (shape stored) * n).
  { apply wrap_int_id. unfold INT_MIN, INT_MAX in *. lia. }
  assert (Hw' : wrap_int (ProdShape1 (shape stored)) = ProdShape1 (shape stored)).
  { apply wrap_int_id. unfold INT_MIN, INT_MAX in *. lia. }
  unfold DataHandleRowSparse, RowSparsePullResponse. rewrite Hp, Hk. mcbv.
  repeat (progress (rewrite ?HR, ?Hc, ?Hs, ?Hn, ?Hk, ?Hlen, ?Hw, ?Hw'; mcbv)).
  rewrite Nat2Z.id. simpl drop. rewrite firstn_all.
  rewrite gather_rows_in_range by (done || lia).
  reflexivity.
Qed.

(** X25: The row ids of the first row-sparse push are not read: whatever row
    keys come with it, its rows are stored in the order of arrival as the
    rows [0 .. R-1] of a tensor of [R] rows, and the push is
    acknowledged. *)
Theorem first_row_sparse_push_ignores_row_ids
    type req_meta req_data s k0 row_keys len1 lens_rest n :
  has_multi_precision_copy type (fields s) = false ->
  push req_meta = true ->
  keys req_data = k0 :: row_keys -> row_keys <> [] ->
  Z.of_nat (length row_keys) < 2 ^ 64 ->
  lens req_data = 0 :: len1 :: lens_rest ->
  mshadow_sizeof (dtype type) = Some n ->
  0 < n <= INT_MAX -> 0 <= len1 <= INT_MAX -> 0 < len1 / n ->
  Z.of_nat (length (vals req_data))
  = wrap_size_t (Z.of_nat (length row_keys) * (len1 / n) * n) ->
  real_type (dtype type) = true ->
  store_ (fields s) !! DecodeKey k0 = None ->
  exists s' stored,
    DataHandleRowSparse type req_meta req_data s = Ok (tt, s') /\
    store_ (fields s') !! DecodeKey k0 = Some stored /\
    shape stored = [Z.of_nat (length row_keys); len1 / n] /\
    aux_idx stored = seqZ 0 (Z.of_nat (length row_keys)) /\
    dptr stored = ndarray_Copy (dtype type) (dtype type) (vals req_data) /\
    calls (fields s') = calls (fields s) ++ [Response req_meta] /\
    forall row_keys',
      length row_keys' = length row_keys ->
      DataHandleRowSparse type req_meta
        {| keys := k0 :: row_keys'; vals := vals req_data; lens := lens req_data |} s
      = Ok (tt, s').
Proof.
  intros Hmp Hp Hk Hrows HRmax Hl Hn Hn0 Hlen1 Hul Hv Hr Hs.
  eexists _, _. split.
  { by apply (DataHandleRowSparse_init type req_meta req_data s k0 row_keys len1
                lens_rest n). }
  simpl. split; [by rewrite lookup_insert_eq|].
  do 4 (split; [done|]).
  intros row_keys' Hlen.
  rewrite (DataHandleRowSparse_init type req_meta _ s k0 row_keys' len1 lens_rest n);
    simpl; rewrite ?Hlen; try done.
  intros ->. by destruct row_keys.
Qed.

(** X26: The rows that are pushed first are the rows a pull returns: after
    the first row-sparse push of [R] rows of [unit_len] elements, a pull of
    rows with ids below [R] answers with the bytes of these rows of the
    push, in the order asked, and with the lengths
    [0, unit_len, ..., unit_len].  ([ndarray::Copy] between equal dtypes
    is taken to copy the bytes.) *)
Theorem row_sparse_push_then_pull
    type push_meta pull_meta push_data pull_data s k0 row_keys pull_keys
    len1 lens_rest n :
  (forall dt bytes, ndarray_Copy dt dt bytes = bytes) ->
  has_multi_precision_copy type (fields s) = false ->
  push push_meta = true -> push pull_meta = false ->
  keys push_data = k0 :: row_keys -> row_keys <> [] ->
  Z.of_nat (length row_keys) < 2 ^ 64 ->
  lens push_data = 0 :: len1 :: lens_rest ->
  mshadow_sizeof (dtype type) = Some n ->
  0 < n <= INT_MAX -> 0 <= len1 <= INT_MAX -> 0 < len1 / n ->
  Z.of_nat (length row_keys) * (len1 / n) * n < 2 ^ 64 ->
  Z.of_nat (length (vals push_data)) = Z.of_nat (length row_keys) * (len1 / n) * n ->
  real_type (dtype type) = true ->
  store_ (fields s) !! DecodeKey k0 = None ->
  keys pull_data = k0 :: pull_keys -> pull_keys <> [] ->
  Z.of_nat (length pull_keys) < 2 ^ 64 ->
  (forall k, In k pull_keys ->
     0 <= int_sub (DecodeKey k) (DecodeKey k0) < Z.of_nat (length row_keys)) ->
  let unit_size := len1 / n * n in
  exists s',
    (DataHandleRowSparse type push_meta push_data ;;
     DataHandleRowSparse type pull_meta pull_data) s = Ok (tt, s') /\
    calls (fields s')
    = calls (fields s)
      ++ [Response push_meta;
          ResponseData pull_meta
            {| keys := k0 :: pull_keys;
               vals := concat (map (fun k =>
                         take (Z.to_nat unit_size)
                              (drop (Z.to_nat (int_sub (DecodeKey k) (DecodeKey k0) * unit_size))
                                    (vals push_data))) pull_keys);
               lens := 0 :: replicate (length pull_keys) (len1 / n) |}].
Proof.
  intros Hcopy Hmp Hp1 Hp2 Hk Hrows HRmax Hl Hn Hn0 Hlen1 Hul Hsz Hv Hr Hs
         Hk2 Hrows2 HRmax2 Hin unit_size.
  assert (Hdivle : len1 / n * n <= len1).
  { pose proof (Z.div_mod len1 n ltac:(lia)).
    pose proof (Z.mod_pos_bound len1 n ltac:(lia)). lia. }
  assert (Hule : len1 / n <= len1 / n * n) by nia.
  rewrite (bind_Ok_l _ _ s tt _
             (DataHandleRowSparse_init type push_meta push_data s k0 row_keys len1
                lens_rest n Hmp Hp1 Hk Hrows HRmax Hl Hn Hn0 Hlen1 Hul
                ltac:(by rewrite wrap_size_t_id by lia) Hr Hs)).
  rewrite Hcopy.
  set (rep := {| storage_type := kRowSparseStorage;
                 shape := [Z.of_nat (length row_keys); len1 / n];
                 nd_dtype := dtype type;
                 aux_idx := seqZ 0 (Z.of_nat (length row_keys));
                 dptr := vals push_data |}).
  assert (Hps : ProdShape1 (shape rep) = len1 / n).
  { unfold ProdShape1. simpl. lia. }
  rewrite (DataHandleRowSparse_pull type pull_meta pull_data _ rep n k0 pull_keys);
    try done.
  - eexists. split; [reflexivity|]. unfold set_calls, set_store_. cbn [fields calls].
    rewrite Hps, <- app_assoc. reflexivity.
  - simpl. by rewrite lookup_insert_eq.
  - rewrite Hps. lia.
  - rewrite Hps. lia.
  - intros k Hk'. destruct (Hin k Hk') as [H0 H1]. split; [done|].
    rewrite Hps. simpl dptr. rewrite Hv. nia.
Qed.

End RowSparseInit.

Lemma first_row_sparse_push_ignores_row_ids_witness :
  let s := Toy.server (Toy.no_fields false false None) in
  let type := {| requestType := kRowSparsePushPull; dtype := 2 |} in
  let req_data := {| keys := [7; 100; 200]; vals := Toy.bytes4; lens := [0; 2; 2] |} in
  exists s' stored,
    DataHandleRowSparse (env := Toy.collaborators false false) type (Toy.push_meta 4) req_data s
    = Ok (tt, s') /\
    store_ (fields s') !! 7 = Some stored /\
    shape stored = [2; 1] /\
    aux_idx stored = [0; 1] /\
    dptr stored = Toy.bytes4 /\
    calls (fields s') = calls (fields s) ++ [Response (Toy.push_meta 4)] /\
    forall row_keys',
      length row_keys' = 2%nat ->
      DataHandleRowSparse (env := Toy.collaborators false false) type (Toy.push_meta 4)
        {| keys := 7 :: row_keys'; vals := Toy.bytes4; lens := [0; 2; 2] |} s
      = Ok (tt, s').
Proof.
  intros s type req_data.
  apply (first_row_sparse_push_ignores_row_ids (env := Toy.collaborators false false)
           type (Toy.push_meta 4) req_data s 7 [100; 200] 2 [2] 2);
    try reflexivity.
  - discriminate.
  - unfold INT_MAX. lia.
  - unfold INT_MAX. lia.
Defined.

Lemma row_sparse_push_then_pull_witness :
  let s := Toy.server (Toy.no_fields false false None) in
  let type := {| requestType := kRowSparsePushPull; dtype := 2 |} in
  let push_data := {| keys := [7; 100; 200]; vals := Toy.bytes4; lens := [0; 2; 2] |} in
  let pull_data := {| keys := [7; 8; 7]; vals := []; lens := [] |} in
  exists s',
    (DataHandleRowSparse (env := Toy.collaborators false false) type (Toy.push_meta 4) push_data ;;
     DataHandleRowSparse (env := Toy.collaborators false false) type (Toy.pull_meta 4) pull_data) s
    = Ok (tt, s') /\
    calls (fields s')
    = calls (fields s)
      ++ [Response (Toy.push_meta 4);
          ResponseData (Toy.pull_meta 4)
            {| keys := [7; 8; 7];
               vals := [Byte.x0c; Byte.x0d; Byte.x0a; Byte.x0b];
               lens := [0; 1; 1] |}].
Proof.
  intros s type push_data pull_data.
  apply (row_sparse_push_then_pull (env := Toy.collaborators false false)
           type (Toy.push_meta 4) (Toy.pull_meta 4) push_data pull_data s
           7 [100; 200] [8; 7] 2 [2] 2);
    try reflexivity.
  - discriminate.
  - unfold INT_MAX. lia.
  - unfold INT_MAX. lia.
  - discriminate.
  - intros k [<-|[<-|[]]]; vm_compute; split; congruence.
Defined.

(** * The copies made by SetMultiPrecision *)

Section MultiPrecisionCopies.
Context {GC : Type} {env : Collaborators GC}.
Implicit Type s : KVStoreDistServer GC.
Implicit Type w : Fields GC.

(** The new float32 array [CreateMultiPrecisionCopies] makes for a stored
    array: same storage type and shape. *)
Definition fresh_realt (stored : NDArrayRep) : NDArray :=
  match storage_type stored with
  | kRowSparseStorage => NDArray_rsp (shape stored) kFloat32
  | kDefaultStorage => NDArray_dense (shape stored) kFloat32
  end.

Lemma lookup_assign_eq key (a : NDArray) (m : gmap Z NDArrayRep) :
  assign key a m !! key = a.
Proof.
  destruct a; simpl; [apply lookup_insert_eq | apply lookup_delete_eq].
Qed.

Lemma lookup_assign_ne key k (a : NDArray) (m : gmap Z NDArrayRep) :
  k <> key -> assign key a m !! k = m !! k.
Proof.
  intros Hk. destruct a; simpl;
    [by apply lookup_insert_ne | by apply lookup_delete_ne].
Qed.

Lemma CreateMultiPrecisionCopy_Ok key stored s s' :
  CreateMultiPrecisionCopy (key, stored) s = Ok (tt, s') ->
  store_ (fields s') = store_ (fields s) /\
  multi_precision_ (fields s') = multi_precision_ (fields s) /\
  (forall k, k <> key -> store_realt_ (fields s') !! k = store_realt_ (fields s) !! k) /\
  store_realt_ (fields s') !! key
  = if nd_dtype stored =? kFloat32 then store_realt_ (fields s) !! key
    else CopyFromTo (Some stored) (fresh_realt stored).
Proof.
  unfold CreateMultiPrecisionCopy.
  destruct (nd_dtype stored =? kFloat32); simpl; intros H; repeat mstep;
    [by repeat split|].
  fold (fresh_realt stored).
  assert (Hf : exists r, fresh_realt stored = Some r).
  { unfold fresh_realt, NDArray_rsp, NDArray_dense.
    destruct (storage_type stored); eauto. }
  destruct Hf as [r Hf]. rewrite Hf.
  fsimpl. destruct (merged _); simpl; rewrite ?lookup_insert_eq;
    (split; [done|]); (split; [done|]);
    (split; [intros k Hk; by rewrite lookup_assign_ne, lookup_insert_ne by done|]);
    apply lookup_assign_eq.
Qed.

Lemma for_each_CreateMultiPrecisionCopy_Ok (l : list (Z * NDArrayRep)) :
  NoDup (l.*1) ->
  forall s s',
    for_each l CreateMultiPrecisionCopy s = Ok (tt, s') ->
    store_ (fields s') = store_ (fields s) /\
    multi_precision_ (fields s') = multi_precision_ (fields s) /\
    (forall k, k ∉ l.*1 ->
       store_realt_ (fields s') !! k = store_realt_ (fields s) !! k) /\
    (forall key stored, (key, stored) ∈ l ->
       store_realt_ (fields s') !! key
       = if nd_dtype stored =? kFloat32 then store_realt_ (fields s) !! key
         else CopyFromTo (Some stored) (fresh_realt stored)).
Proof.
  induction l as [|[key stored] l IH]; intros Hnd s s' H; simpl in H.
  - inversion H; subst. repeat split; try done. intros ? ? Hin. by inversion Hin.
  - apply bind_Ok in H as ([] & s1 & H1 & H2).
    rewrite fmap_cons in Hnd. apply NoDup_cons in Hnd as [Hnotin Hnd].
    apply CreateMultiPrecisionCopy_Ok in H1 as (A1 & A2 & A3 & A4).
    apply (IH Hnd) in H2 as (B1 & B2 & B3 & B4).
    split; [congruence|]. split; [congruence|]. split.
    + intros k Hk. rewrite fmap_cons in Hk. apply not_elem_of_cons in Hk as [Hk1 Hk2].
      rewrite B3 by done. by apply A3.
    + intros key' stored' Hin. apply elem_of_cons in Hin as [Heq|Hin].
      * inversion Heq; subst. by rewrite B3.
      * rewrite (B4 _ _ Hin).
        destruct (nd_dtype stored' =? kFloat32); [|done].
        apply A3. intros ->. apply Hnotin.
        apply list_elem_of_fmap. by exists (key, stored').
Qed.

(** X27: When the first [SetMultiPrecision] command is handled, every stored
    array whose dtype is not float32 gets a float32 copy in [store_realt_]
    (of the same storage type and shape, filled by [CopyFromTo] from the
    stored array); the keys stored as float32 get none; [store_] itself is
    untouched, the mode is on and the command is acknowledged. *)
Theorem SetMultiPrecision_makes_copies recved s s' :
  head recved = 1 ->
  multi_precision_ (fields s) = false ->
  CommandHandle recved s = Ok (tt, s') ->
  multi_precision_ (fields s') = true /\
  store_ (fields s') = store_ (fields s) /\
  calls (fields s') = calls (fields s) ++ [AppResponse recved] /\
  forall key stored,
    store_ (fields s) !! key = Some stored ->
    store_realt_ (fields s') !! key
    = if nd_dtype stored =? kFloat32 then store_realt_ (fields s) !! key
      else CopyFromTo (Some stored) (fresh_realt stored).
Proof.
  intros Hh Hmp H. unfold CommandHandle in H. rewrite Hh in H. simpl in H.
  apply bind_Ok in H as ([] & s1 & H1 & H2).
  inversion H2; subst; clear H2. simpl.
  apply bind_Ok in H1 as (w & s0 & H0 & H1). inversion H0; subst; clear H0.
  rewrite Hmp in H1. simpl in H1.
  apply bind_Ok in H1 as ([] & s2 & H2 & H3). inversion H2; subst; clear H2.
  pose proof (CreateMultiPrecisionCopies_calls _ _ H3) as Hcalls.
  unfold CreateMultiPrecisionCopies, bind, get in H3. simpl in H3.
  apply for_each_CreateMultiPrecisionCopy_Ok in H3 as (B1 & B2 & B3 & B4).
  2:{ apply NoDup_fst_map_to_list. }
  simpl in *. split; [done|]. split; [done|]. split; [by rewrite Hcalls|].
  intros key stored Hs. apply B4.
  by apply elem_of_map_to_list.
Qed.

End MultiPrecisionCopies.

Lemma SetMultiPrecision_makes_copies_witness :
  let w := set_store_ {[ 5 := Toy.dense_f32 (replicate 8 Byte.x00); 7 := Toy.rsp_f16 Toy.bytes4 ]}
             (Toy.no_fields true false None) in
  let recved := {| head := 1; body := EmptyString |} in
  exists s',
    CommandHandle (env := Toy.collaborators false false) recved (Toy.server w) = Ok (tt, s') /\
    store_realt_ (fields s') !! 5 = None /\
    store_realt_ (fields s') !! 7
    = Some {| storage_type := kRowSparseStorage; shape := [2; 1]; nd_dtype := 0;
              aux_idx := [0; 1]; dptr := Toy.bytes4 |} /\
    multi_precision_ (fields s') = true /\
    store_ (fields s') = store_ w /\
    calls (fields s') = calls w ++ [AppResponse recved] /\
    forall key stored,
      store_ w !! key = Some stored ->
      store_realt_ (fields s') !! key
      = if nd_dtype stored =? kFloat32 (Collaborators := Toy.collaborators false false)
        then store_realt_ w !! key
        else CopyFromTo (Collaborators := Toy.collaborators false false)
               (Some stored) (fresh_realt (env := Toy.collaborators false false) stored).
Proof.
  intros w recved. eexists. split; [vm_compute; reflexivity|].
  split; [reflexivity|]. split; [reflexivity|].
  apply (SetMultiPrecision_makes_copies (env := Toy.collaborators false false)
           recved (Toy.server w)).
  - reflexivity.
  - reflexivity.
  - vm_compute. reflexivity.
Defined.

(** * Cohorts that ask for the value *)

Section PullCohorts.
Context {GC : Type} {env : Collaborators GC}.
Implicit Type s : KVStoreDistServer GC.
Implicit Type w : Fields GC.

Lemma for_each_pull_responses type key req_data stored n (l : list KVMeta) :
  forall s,
    store_ (fields s) !! key = Some stored ->
    mshadow_sizeof (nd_dtype stored) = Some n ->
    wrap_size_t (Size (shape stored) * n) <= Z.of_nat (length (dptr stored)) ->
    for_each l (fun req => if pull req
                           then DefaultStorageResponse type key req req_data
                           else ret tt) s
    = Ok (tt, mkServer (exec_ s)
                (set_calls
                   (calls (fields s)
                    ++ map (fun req => pull_response req req_data stored n)
                           (List.filter pull l))
                   (fields s))).
Proof.
  induction l as [|req l IH]; intros s Hs Hn Hlen; simpl.
  - unfold ret. rewrite app_nil_r. by destruct s as [e []].
  - unfold bind at 1. destruct (pull req); simpl.
    + rewrite (DefaultStorageResponse_Ok type key req req_data s stored n) by done.
      rewrite IH by done. simpl. by rewrite <- app_assoc.
    + unfold ret at 1. by rewrite IH.
Qed.

(** X28: When the dispatcher runs for a cohort in which some request asks for
    the value (its pull flag is set), only the requests with the pull flag
    are answered, each with the bytes of the updated array; a request of
    the cohort that is a plain push gets no response at all.  The updater
    is called once before, and the pending list is empty after. *)
Theorem cohort_with_pull_answers_only_pulls type key req_data s u stored' n :
  Executor.idle (exec_ s) ->
  updater_ (fields s) = Some u ->
  has_multi_precision_copy type (fields s) = false ->
  negb (sync_mode_ (fields s))
  || (Z.of_nat (length (request (update_buf_at key (fields s)))) =? wrap_size_t NumWorkers)
  = true ->
  existsb pull (request (update_buf_at key (fields s))) = true ->
  let w := fields s in
  let update := if sync_mode_ w then merged (update_buf_at key w)
                else temp_array (update_buf_at key w) in
  u key update (store_ w !! key) = Some stored' ->
  mshadow_sizeof (nd_dtype stored') = Some n ->
  wrap_size_t (Size (shape stored') * n) <= Z.of_nat (length (dptr stored')) ->
  exists s',
    ApplyUpdates type key req_data s = Ok (tt, s') /\
    calls (fields s')
    = calls w ++ UpdaterCall key update (store_ w !! key)
                 :: map (fun req => pull_response req req_data stored' n)
                        (List.filter pull (request (update_buf_at key w))) /\
    store_ (fields s') !! key = Some stored' /\
    request (update_buf_at key (fields s')) = [] /\
    Executor.idle (exec_ s').
Proof.
  intros Hidle Hu Hmp Hc Hpull w update Hst Hn Hlen. subst w update.
  unfold ApplyUpdates. unfold bind at 1, get. cbv beta iota zeta.
  rewrite Hc, Hmp, Hpull.
  unfold apply_update. unfold bind at 1. unfold bind at 1, get. cbv beta iota zeta.
  rewrite Hu. rewrite bool_decide_eq_true_2 by (by eexists). cbv beta iota.
  unfold exec_Exec.
  erewrite Exec_idle_runs; [| done |].
  2:{ unfold call_updater. rewrite Hu. reflexivity. }
  unfold stored_at, set_stored. rewrite Hst.
  unfold copy_down. unfold bind at 1, ret at 1. cbv beta iota.
  unfold bind at 1.
  erewrite (for_each_pull_responses type key req_data stored' n); try done.
  2:{ simpl. by rewrite lookup_insert_eq. }
  unfold modify. simpl.
  eexists. split; [reflexivity|]. simpl.
  split; [by rewrite <- app_assoc|].
  split; [by rewrite lookup_insert_eq|].
  split; [|by split].
  fsimpl. by rewrite lookup_insert_eq.
Qed.

End PullCohorts.

(** * The first compressed push *)

Section CompressedFacts.
Context {GC : Type} {env : Collaborators GC}.
Implicit Type s : KVStoreDistServer GC.
Implicit Type w : Fields GC.

(** X29: The first compressed push of a key (the second key of the request)
    creates the stored array with the original size that comes as the
    first key, fills it by [Dequantize] from the received bytes, and is
    acknowledged; the update buffers and the decompression buffers are not
    touched. *)
Theorem compressed_first_push type req_meta req_data s k0 k1 len0 len1 n :
  dtype type = kFloat32 ->
  push req_meta = true ->
  keys req_data = [k0; k1] -> lens req_data = [len0; len1] ->
  Z.of_nat (length (vals req_data)) = wrap_size_t len1 ->
  mshadow_sizeof kFloat32 = Some n ->
  store_ (fields s) !! DecodeKey k1 = None ->
  DataHandleCompressed type req_meta req_data s
  = Ok (tt, mkServer (exec_ s)
              (set_calls (calls (fields s) ++ [Response req_meta])
                 (set_store_
                    (assign (DecodeKey k1)
                       (Dequantize (gradient_compression_ (fields s))
                          (NDArray_blob [wrap_size_t len1 / n] kFloat32 (vals req_data))
                          (NDArray_dense [DecodeKey k0] kFloat32))
                       (store_ (fields s)))
                    (fields s)))).
Proof.
  intros Hd Hp Hk Hl Hv Hn Hs.
  unfold DataHandleCompressed. rewrite Hd, Z.eqb_refl, Hp, Hk, Hl. mcbv.
  change (Z.of_nat (length [k0; k1]) =? 2) with true.
  change (Z.of_nat (length [len0; len1]) =? 2) with true.
  repeat (progress (rewrite ?Hv, ?Z.eqb_refl, ?Hn, ?Hs; mcbv)).
  reflexivity.
Qed.

End CompressedFacts.

Lemma cohort_with_pull_answers_only_pulls_witness :
  let s := Toy.server Toy.sync_complete_5 in
  let type := {| requestType := kDefaultPushPull; dtype := 0 |} in
  let req_data := {| keys := [5]; vals := Toy.bytes8; lens := [8] |} in
  let asker := {| cmd := 0; push := true; pull := true; sender := 11; timestamp := 3;
                  meta_key := 0; num_merge := 1; control_cmd := 0; num_aggregation := 0 |} in
  exists s',
    ApplyUpdates (env := Toy.collaborators false false) type 5 req_data s = Ok (tt, s') /\
    calls (fields s')
    = calls (fields s)
      ++ UpdaterCall 5 (Some (Toy.dense_f32 Toy.bytes8))
                       (Some (Toy.dense_f32 (replicate 8 Byte.x00)))
         :: map (fun req => pull_response req req_data (Toy.dense_f32 Toy.bytes8) 4)
                [asker] /\
    store_ (fields s') !! 5 = Some (Toy.dense_f32 Toy.bytes8) /\
    request (update_buf_at 5 (fields s')) = [] /\
    Executor.idle (exec_ s').
Proof.
  intros s type req_data asker.
  apply (cohort_with_pull_answers_only_pulls (env := Toy.collaborators false false)
           type 5 req_data s Toy.updater (Toy.dense_f32 Toy.bytes8) 4);
    try reflexivity; first [ split; reflexivity | vm_compute; congruence ].
Defined.

Lemma compressed_first_push_witness :
  let s := Toy.server (Toy.no_fields false false None) in
  let type := {| requestType := kCompressedPushPull; dtype := 0 |} in
  let req_data := {| keys := [2; 5]; vals := Toy.bytes8; lens := [0; 8] |} in
  DataHandleCompressed (env := Toy.collaborators false false) type (Toy.push_meta 3) req_data s
  = Ok (tt, mkServer (exec_ s)
              (set_calls (calls (fields s) ++ [Response (Toy.push_meta 3)])
                 (set_store_ {[ 5 := Toy.dense_f32 Toy.bytes8 ]} (fields s)))).
Proof.
  intros s type req_data.
  apply (compressed_first_push (env := Toy.collaborators false false)
           type (Toy.push_meta 3) req_data s 2 5 0 8 4); reflexivity.
Defined.
